(** * Toaster MVP: a shallow embedding of the photobooth pages

    The development follows the TypeScript sources:
    - [src/app/capture/page.tsx], the capture page
      ([captureFromVideo], [startCamera], [stopCamera], [reset],
      [shoot4WithPerShotCountdown], [canGoNext]);
    - the result page ([DEFAULT_SLOTS], [FRAMES], [getFrameConfig],
      [composeFinalPNG], the mount effect, the frame effect, [saveToDB],
      [clearDB]);
    - the earlier single page ([clamp], [composeFinalPNG],
      [recomputeFinal], [saveToDB], [loadFromDB], [clearDB], the frame
      effect).

    Modelling conventions.
    - A JavaScript [number] is an exact rational ([Q]), and [Math.round] is
      [floor (q + 1/2)].  Rounding of IEEE-754 doubles is left out, except
      in module [Binary64], which repeats the arithmetic of one slot over
      binary64 to show where that matters.
    - A 2D canvas is its drawing state together with the list of paint
      operations issued so far (a display list).
    - The browser is a record of oracles ([Platform]): which resources
      decode, whether a 2D context exists, what the PNG encoder returns,
      what the camera shows at a given time, whether IndexedDB works.
    - [async] code is sequential code in a state-and-exception monad over
      the [World] (the idb-keyval store, a clock, and the log of platform
      calls).  A promise that rejects is an exception. *)

From Stdlib Require Import ZArith QArith Qround Qminmax Lia Lqa String List.
From Stdlib Require Import PrimFloat.
From stdpp Require Import gmap strings list.

Set Default Proof Using "Type".
Local Open Scope string_scope.
Local Open Scope list_scope.

(* ===================================================================== *)
(** * JavaScript values *)
(* ===================================================================== *)

(** [Math.round]: the nearest integer, halves rounded up. *)
Definition Math_round (q : Q) : Q := inject_Z (Qfloor (q + 1 / 2)).

Definition Math_max (a b : Q) : Q := Qmax a b.

Definition Math_floor (q : Q) : Q := inject_Z (Qfloor q).

(** A [Blob]: a MIME type and raw bytes. *)
Record Blob := { blob_type : string; blob_bytes : list Z }.

(** What a rejected promise carries.  [ErrorEvent] is the DOM event an
    image element hands to [onerror]; it has no [message]. *)
Inductive JsError :=
| Error (message : string)
| TypeError (message : string)
| ErrorEvent.

(** [e?.message] *)
Definition message (e : JsError) : option string :=
  match e with
  | Error m | TypeError m => Some m
  | ErrorEvent => None
  end.

(** [e?.message ?? fallback] *)
Definition message_or (e : JsError) (fallback : string) : string :=
  default fallback (message e).

Inductive Completion (A : Type) :=
| Resolved (a : A)
| Rejected (e : JsError).
Arguments Resolved {A} a.
Arguments Rejected {A} e.

Definition is_resolved {A} (c : Completion A) : bool :=
  match c with Resolved _ => true | Rejected _ => false end.

(** [type FrameId = "frame1" | "frame2" | "frame3" | "frame4"] *)
Inductive FrameId := frame1 | frame2 | frame3 | frame4.

#[global] Instance FrameId_eq_dec : EqDecision FrameId.
Proof. solve_decision. Defined.

(** [type SavedState].  The pages read a stored record defensively
    ([!data.shots], [data.frameId ?? "frame1"], [data.savedAt ?? null]),
    so every field of a record found in the store may be absent. *)
Record SavedState := {
  saved_shots : option (list Blob);
  saved_frameId : option FrameId;
  saved_final : option Blob;
  savedAt : option Z;
}.

(** Where an image element gets its data: a URL, or the object URL that
    [URL.createObjectURL] made for a blob. *)
Inductive ImageSrc :=
| Url (s : string)
| ObjectUrl (b : Blob).

(** A loaded [HTMLImageElement]. *)
Record HTMLImageElement := {
  img_src : ImageSrc;
  img_width : Z;
  img_height : Z;
}.

(** The state of the [HTMLVideoElement] at some instant: the size of the
    stream (unsigned, 0 while there is no data) and the instant of the
    picture it shows. *)
Record HTMLVideoElement := {
  videoWidth : Z;
  videoHeight : Z;
  currentFrame : Z;
}.

(* ===================================================================== *)
(** * The 2D canvas *)
(* ===================================================================== *)

Module Canvas.

(** The current transformation matrix: (x, y) goes to
    (a x + c y + e, b x + d y + f). *)
Record Matrix := { ma : Q; mb : Q; mc : Q; md : Q; me : Q; mf : Q }.

Definition identity : Matrix :=
  {| ma := 1; mb := 0; mc := 0; md := 1; me := 0; mf := 0 |}.

Definition apply (m : Matrix) (p : Q * Q) : Q * Q :=
  let (x, y) := p in
  (ma m * x + mc m * y + me m, mb m * x + md m * y + mf m)%Q.

Record Rect := { rx : Q; ry : Q; rw : Q; rh : Q }.

(** A path is the list of its rectangles, each with the matrix that was
    current when it was added. *)
Definition Path : Type := list (Matrix * Rect).

Inductive Source :=
| ImageSource (i : HTMLImageElement)
| VideoSource (v : HTMLVideoElement).

Definition source_width (s : Source) : Z :=
  match s with
  | ImageSource i => img_width i
  | VideoSource v => videoWidth v
  end.

Definition source_height (s : Source) : Z :=
  match s with
  | ImageSource i => img_height i
  | VideoSource v => videoHeight v
  end.

(** One paint operation, with the part of the drawing state it used.
    The clip is the list of paths whose intersection bounds the paint;
    the empty list is the whole canvas. *)
Inductive Paint :=
| PFillRect (m : Matrix) (clip : list Path) (style : string) (r : Rect)
| PStrokeRect (m : Matrix) (clip : list Path) (style : string)
              (lineWidth : Q) (r : Rect)
| PDrawImage (m : Matrix) (clip : list Path) (s : Source) (r : Rect).

(** What [save] pushes and [restore] pops. *)
Record GState := {
  ctm : Matrix;
  clipping : list Path;
  fillStyle : string;
  strokeStyle : string;
  lineWidth : Q;
}.

(** A canvas element with its 2D context. *)
Record Context2D := {
  canvas_width : Z;
  canvas_height : Z;
  gstate : GState;
  stack : list GState;
  path : Path;
  display : list Paint;
}.

Definition initial_gstate : GState :=
  {| ctm := identity; clipping := []; fillStyle := "#000000";
     strokeStyle := "#000000"; lineWidth := 1 |}.

(** [document.createElement("canvas")] followed by the assignments to
    [canvas.width] and [canvas.height]. *)
Definition create (w h : Z) : Context2D :=
  {| canvas_width := w; canvas_height := h; gstate := initial_gstate;
     stack := []; path := []; display := [] |}.

Definition with_gstate (g : GState) (c : Context2D) : Context2D :=
  {| canvas_width := canvas_width c; canvas_height := canvas_height c;
     gstate := g; stack := stack c; path := path c;
     display := display c |}.

Definition with_path (p : Path) (c : Context2D) : Context2D :=
  {| canvas_width := canvas_width c; canvas_height := canvas_height c;
     gstate := gstate c; stack := stack c; path := p;
     display := display c |}.

Definition paint (p : Paint) (c : Context2D) : Context2D :=
  {| canvas_width := canvas_width c; canvas_height := canvas_height c;
     gstate := gstate c; stack := stack c; path := path c;
     display := display c ++ [p] |}.

Definition save (c : Context2D) : Context2D :=
  {| canvas_width := canvas_width c; canvas_height := canvas_height c;
     gstate := gstate c; stack := gstate c :: stack c; path := path c;
     display := display c |}.

Definition restore (c : Context2D) : Context2D :=
  match stack c with
  | [] => c
  | g :: rest =>
      {| canvas_width := canvas_width c; canvas_height := canvas_height c;
         gstate := g; stack := rest; path := path c;
         display := display c |}
  end.

Definition set_ctm (m : Matrix) (g : GState) : GState :=
  {| ctm := m; clipping := clipping g; fillStyle := fillStyle g;
     strokeStyle := strokeStyle g; lineWidth := lineWidth g |}.

Definition translate (tx ty : Q) (c : Context2D) : Context2D :=
  let m := ctm (gstate c) in
  with_gstate
    (set_ctm {| ma := ma m; mb := mb m; mc := mc m; md := md m;
                me := ma m * tx + mc m * ty + me m;
                mf := mb m * tx + md m * ty + mf m |} (gstate c)) c.

Definition scale (sx sy : Q) (c : Context2D) : Context2D :=
  let m := ctm (gstate c) in
  with_gstate
    (set_ctm {| ma := ma m * sx; mb := mb m * sx;
                mc := mc m * sy; md := md m * sy;
                me := me m; mf := mf m |} (gstate c)) c.

Definition beginPath (c : Context2D) : Context2D := with_path [] c.

Definition rect (x y w h : Q) (c : Context2D) : Context2D :=
  with_path
    (path c ++ [(ctm (gstate c), {| rx := x; ry := y; rw := w; rh := h |})])
    c.

(** [clip]: the clipping region becomes its intersection with the
    current path. *)
Definition clip (c : Context2D) : Context2D :=
  let g := gstate c in
  with_gstate
    {| ctm := ctm g; clipping := path c :: clipping g;
       fillStyle := fillStyle g; strokeStyle := strokeStyle g;
       lineWidth := lineWidth g |} c.

Definition set_fillStyle (s : string) (c : Context2D) : Context2D :=
  let g := gstate c in
  with_gstate
    {| ctm := ctm g; clipping := clipping g; fillStyle := s;
       strokeStyle := strokeStyle g; lineWidth := lineWidth g |} c.

Definition set_strokeStyle (s : string) (c : Context2D) : Context2D :=
  let g := gstate c in
  with_gstate
    {| ctm := ctm g; clipping := clipping g; fillStyle := fillStyle g;
       strokeStyle := s; lineWidth := lineWidth g |} c.

Definition set_lineWidth (lw : Q) (c : Context2D) : Context2D :=
  let g := gstate c in
  with_gstate
    {| ctm := ctm g; clipping := clipping g; fillStyle := fillStyle g;
       strokeStyle := strokeStyle g; lineWidth := lw |} c.

Definition fillRect (x y w h : Q) (c : Context2D) : Context2D :=
  let g := gstate c in
  paint (PFillRect (ctm g) (clipping g) (fillStyle g)
           {| rx := x; ry := y; rw := w; rh := h |}) c.

Definition strokeRect (x y w h : Q) (c : Context2D) : Context2D :=
  let g := gstate c in
  paint (PStrokeRect (ctm g) (clipping g) (strokeStyle g) (lineWidth g)
           {| rx := x; ry := y; rw := w; rh := h |}) c.

Definition drawImage (s : Source) (dx dy dw dh : Q) (c : Context2D)
  : Context2D :=
  let g := gstate c in
  paint (PDrawImage (ctm g) (clipping g) s
           {| rx := dx; ry := dy; rw := dw; rh := dh |}) c.

(** ** Which source pixel lands on a canvas pixel

    The centre of canvas pixel [(col, row)] is taken back through the
    matrix; if it falls in the destination rectangle, the source pixel
    under it is the one drawn there. *)

Definition det (m : Matrix) : Q := (ma m * md m - mb m * mc m)%Q.

Definition unapply (m : Matrix) (p : Q * Q) : Q * Q :=
  let (X, Y) := p in
  ((md m * (X - me m) - mc m * (Y - mf m)) / det m,
   (ma m * (Y - mf m) - mb m * (X - me m)) / det m)%Q.

Definition inside (r : Rect) (p : Q * Q) : bool :=
  let (x, y) := p in
  Qle_bool (rx r) x && negb (Qle_bool (rx r + rw r) x) &&
  Qle_bool (ry r) y && negb (Qle_bool (ry r + rh r) y).

Definition inside_path (p : Path) (dev : Q * Q) : bool :=
  existsb (fun mr => inside (snd mr) (unapply (fst mr) dev)) p.

Definition sample (p : Paint) (col row : Z) : option (Z * Z) :=
  match p with
  | PDrawImage m cl s r =>
      let dev := (inject_Z col + 1 / 2, inject_Z row + 1 / 2)%Q in
      let u := unapply m dev in
      if negb (Qeq_bool (det m) 0) && inside r u
         && forallb (fun pth => inside_path pth dev) cl
      then
        Some (Qfloor ((fst u - rx r) * inject_Z (source_width s) / rw r),
              Qfloor ((snd u - ry r) * inject_Z (source_height s) / rh r))
      else None
  | _ => None
  end.

End Canvas.

(* ===================================================================== *)
(** * The browser *)
(* ===================================================================== *)

(** The oracles the pages depend on. *)
Record Platform := {
  (** the natural size of the image behind a source, or [None] when the
      element fires [onerror] *)
  load : ImageSrc -> option (Z * Z);
  (** does [canvas.getContext("2d")] return a context *)
  canvas_2d : bool;
  (** what [canvas.toBlob(_, "image/png")] hands to its callback *)
  png : Canvas.Context2D -> option Blob;
  (** the video element at a given time *)
  camera : Z -> HTMLVideoElement;
  (** [Some e] when every IndexedDB request rejects with [e] *)
  idb_failure : option JsError;
  (** the text of the engine's message for reading a property of
      [undefined] *)
  undefined_message : string;
}.

Inductive Event :=
| CreateCanvas
| GetContext
| LoadImage (src : ImageSrc)
| ToBlob (c : Canvas.Context2D)
| Sleep (ms : Z)
| ShowCountdown (c : Z)
| IdbGet (key : string)
| IdbSet (key : string) (value : SavedState)
| IdbDel (key : string).

Record World := {
  store : gmap string SavedState;
  clock : Z;
  log : list Event;
}.

Definition emit (e : Event) (w : World) : World :=
  {| store := store w; clock := clock w; log := log w ++ [e] |}.

Definition with_store (s : gmap string SavedState) (w : World) : World :=
  {| store := s; clock := clock w; log := log w |}.

Definition advance (ms : Z) (w : World) : World :=
  {| store := store w; clock := (clock w + ms)%Z; log := log w |}.

(** ** Sequential code that may throw *)

Definition M (S A : Type) : Type := S -> Completion A * S.

Definition ret {S A} (a : A) : M S A := fun s => (Resolved a, s).

Definition throw {S A} (e : JsError) : M S A := fun s => (Rejected e, s).

Definition bind {S A B} (m : M S A) (k : A -> M S B) : M S B :=
  fun s =>
    match m s with
    | (Resolved a, s') => k a s'
    | (Rejected e, s') => (Rejected e, s')
    end.

(** [try { m } catch (e) { h e }] *)
Definition try_catch {S A} (m : M S A) (h : JsError -> M S A) : M S A :=
  fun s =>
    match m s with
    | (Resolved a, s') => (Resolved a, s')
    | (Rejected e, s') => h e s'
    end.

(** [try { m } finally { f }], for an [f] that does not throw *)
Definition finally {S A} (m : M S A) (f : S -> S) : M S A :=
  fun s => let (r, s') := m s in (r, f s').

(** a state update, such as a React setter *)
Definition modify {S} (f : S -> S) : M S unit := fun s => (Resolved tt, f s).

Definition gets {S A} (f : S -> A) : M S A := fun s => (Resolved (f s), s).

Declare Scope js_scope.
Delimit Scope js_scope with js.
Notation "'let*' x ':=' m 'in' k" := (bind m (fun x => k))
  (at level 10, x name, m at level 100, k at level 200) : js_scope.
Notation "m ';;' k" := (bind m (fun _ => k))
  (at level 100, k at level 200, right associativity) : js_scope.

(** Code that only touches the browser. *)
Definition IO (A : Type) : Type := M World A.

(** [Promise.all]: every promise has been started; the result is the first
    rejection, or all the values. *)
Fixpoint Promise_all {A} (ps : list (IO A)) : IO (list A) :=
  fun w =>
    match ps with
    | [] => (Resolved [], w)
    | p :: rest =>
        let (r, w1) := p w in
        let (rs, w2) := Promise_all rest w1 in
        (match r, rs with
         | Rejected e, _ => Rejected e
         | Resolved _, Rejected e => Rejected e
         | Resolved a, Resolved l => Resolved (a :: l)
         end, w2)
    end.

(** [array.forEach((a, i) => body)], for a body that may throw; [i] is the
    index of the head of [l]. *)
Fixpoint forEach {A S} (body : A -> nat -> S -> Completion S)
         (l : list A) (i : nat) (s : S) : Completion S :=
  match l with
  | [] => Resolved s
  | a :: rest =>
      match body a i s with
      | Resolved s' => forEach body rest (Datatypes.S i) s'
      | Rejected e => Rejected e
      end
  end.

Section Browser.

Variable P : Platform.

Local Open Scope js_scope.

(** [sleep(ms)] *)
Definition sleep (ms : Z) : IO unit :=
  modify (fun w => advance ms (emit (Sleep ms) w)).

(** [Date.now()] *)
Definition Date_now : IO Z := gets clock.

(** idb-keyval's [get], [set] and [del] *)
Definition idb_get (key : string) : IO (option SavedState) :=
  fun w =>
    match idb_failure P with
    | Some e => (Rejected e, emit (IdbGet key) w)
    | None => (Resolved (store w !! key), emit (IdbGet key) w)
    end.

Definition idb_set (key : string) (value : SavedState) : IO unit :=
  fun w =>
    match idb_failure P with
    | Some e => (Rejected e, emit (IdbSet key value) w)
    | None =>
        (Resolved tt,
         with_store (<[key := value]> (store w)) (emit (IdbSet key value) w))
    end.

Definition idb_del (key : string) : IO unit :=
  fun w =>
    match idb_failure P with
    | Some e => (Rejected e, emit (IdbDel key) w)
    | None =>
        (Resolved tt, with_store (delete key (store w)) (emit (IdbDel key) w))
    end.

(** [document.createElement("canvas")], sized, and [getContext("2d")] *)
Definition createCanvas (w h : Z) : IO Canvas.Context2D :=
  modify (emit CreateCanvas) ;; ret (Canvas.create w h).

Definition getContext (c : Canvas.Context2D) : IO (option Canvas.Context2D) :=
  modify (emit GetContext) ;;
  ret (if canvas_2d P then Some c else None).

(** The promise around [canvas.toBlob]. *)
Definition toBlob (c : Canvas.Context2D) : IO Blob :=
  modify (emit (ToBlob c)) ;;
  match png P c with
  | Some b => ret b
  | None => throw (Error "toBlob failed")
  end.

(** [loadImage(src)] *)
Definition loadImage (src : ImageSrc) : IO HTMLImageElement :=
  modify (emit (LoadImage src)) ;;
  match load P src with
  | Some (w, h) => ret {| img_src := src; img_width := w; img_height := h |}
  | None => throw ErrorEvent
  end.

(** [blobToImage(blob)] *)
Definition blobToImage (blob : Blob) : IO HTMLImageElement :=
  loadImage (ObjectUrl blob).

End Browser.

(* ===================================================================== *)
(** * The result page *)
(* ===================================================================== *)

Module ResultPage.

Definition DB_KEY : string := "toaster_mvp_state_v1".

(** [type SlotRect = { x, y, w, h }]; the fields are [slot_x] to
    [slot_h] here. *)
Record SlotRect := { slot_x : Q; slot_y : Q; slot_w : Q; slot_h : Q }.

(** [type FrameConfig = { id, label, src, slots? }] *)
Record FrameConfig := {
  frame_id : FrameId;
  frame_label : string;
  frame_src : string;
  frame_slots : option (list SlotRect);
}.

Definition DEFAULT_SLOTS : list SlotRect :=
  [ {| slot_x := 0.075; slot_y := 0.2; slot_w := 0.425;
       slot_h := 0.2833333333 |};
    {| slot_x := 0.5; slot_y := 0.2; slot_w := 0.425;
       slot_h := 0.2833333333 |};
    {| slot_x := 0.075; slot_y := 0.5166666667; slot_w := 0.425;
       slot_h := 0.2833333333 |};
    {| slot_x := 0.5; slot_y := 0.5166666667; slot_w := 0.425;
       slot_h := 0.2833333333 |} ].

Definition FRAMES : list FrameConfig :=
  [ {| frame_id := frame1; frame_label := "Frame 1";
       frame_src := "/frames/frame1.png"; frame_slots := None |};
    {| frame_id := frame2; frame_label := "Frame 2";
       frame_src := "/frames/frame2.png";
       frame_slots := Some
         [ {| slot_x := 0.105; slot_y := 0.3261; slot_w := 0.3675;
              slot_h := 0.2433 |};
           {| slot_x := 0.5142; slot_y := 0.3261; slot_w := 0.3683;
              slot_h := 0.2433 |};
           {| slot_x := 0.105; slot_y := 0.5783; slot_w := 0.3675;
              slot_h := 0.2428 |};
           {| slot_x := 0.5142; slot_y := 0.5783; slot_w := 0.3683;
              slot_h := 0.2428 |} ] |};
    {| frame_id := frame3; frame_label := "Frame 3";
       frame_src := "/frames/frame3.png"; frame_slots := None |};
    {| frame_id := frame4; frame_label := "Frame 4";
       frame_src := "/frames/frame4.png";
       frame_slots := Some
         [ {| slot_x := 0.1016; slot_y := 0.3242; slot_w := 0.3721;
              slot_h := 0.2474 |};
           {| slot_x := 0.5107; slot_y := 0.3242; slot_w := 0.3721;
              slot_h := 0.2474 |};
           {| slot_x := 0.1016; slot_y := 0.5762; slot_w := 0.3721;
              slot_h := 0.2474 |};
           {| slot_x := 0.5107; slot_y := 0.5762; slot_w := 0.3721;
              slot_h := 0.2474 |} ] |} ].

(** [FRAMES.find((f) => f.id === frameId) ?? FRAMES[0]].  An array read
    out of range is [undefined], here [None]. *)
Definition getFrameConfig (frameId : FrameId) : option FrameConfig :=
  match find (fun f => bool_decide (frame_id f = frameId)) FRAMES with
  | Some f => Some f
  | None => FRAMES !! 0%nat
  end.

Definition W : Q := 1200.
Definition H : Q := 1800.

(** The [map] callback of [composeFinalPNG]: a slot in canvas pixels. *)
Definition to_pixels (slot : SlotRect) : SlotRect :=
  {| slot_x := Math_round (slot_x slot * W);
     slot_y := Math_round (slot_y slot * H);
     slot_w := Math_round (slot_w slot * W);
     slot_h := Math_round (slot_h slot * H) |}.

(** [frame.slots ?? DEFAULT_SLOTS] *)
Definition slots_of (frame : FrameConfig) : list SlotRect :=
  default DEFAULT_SLOTS (frame_slots frame).

Section Compose.

Variable P : Platform.

Local Open Scope js_scope.

(** The numbers computed in the [forEach] callback of
    [composeFinalPNG]. *)
Definition scale_of (s : SlotRect) (img : HTMLImageElement) : Q :=
  Math_max (slot_w s / inject_Z (img_width img))
           (slot_h s / inject_Z (img_height img)).

Definition drawW (s : SlotRect) (img : HTMLImageElement) : Q :=
  inject_Z (img_width img) * scale_of s img.

Definition drawH (s : SlotRect) (img : HTMLImageElement) : Q :=
  inject_Z (img_height img) * scale_of s img.

Definition dx (s : SlotRect) (img : HTMLImageElement) : Q :=
  slot_x s + (slot_w s - drawW s img) / 2.

Definition dy (s : SlotRect) (img : HTMLImageElement) : Q :=
  slot_y s + (slot_h s - drawH s img) / 2.

(** The [forEach] callback: [slots[i]] is destructured first, which
    throws when there is no such slot. *)
Definition draw_shot (slots : list SlotRect) (img : HTMLImageElement)
           (i : nat) (ctx : Canvas.Context2D)
  : Completion Canvas.Context2D :=
  match slots !! i with
  | None => Rejected (TypeError (undefined_message P))
  | Some s =>
      let ctx := Canvas.save ctx in
      let ctx := Canvas.beginPath ctx in
      let ctx := Canvas.rect (slot_x s) (slot_y s) (slot_w s) (slot_h s)
                   ctx in
      let ctx := Canvas.clip ctx in
      let ctx := Canvas.drawImage (Canvas.ImageSource img)
                   (dx s img) (dy s img) (drawW s img) (drawH s img)
                   ctx in
      let ctx := Canvas.restore ctx in
      let ctx := Canvas.set_strokeStyle "rgba(0,0,0,0.08)" ctx in
      let ctx := Canvas.set_lineWidth 6 ctx in
      let ctx := Canvas.strokeRect (slot_x s) (slot_y s) (slot_w s)
                   (slot_h s) ctx in
      Resolved ctx
  end.

Definition composeFinalPNG (shots : list Blob) (frame : FrameConfig)
  : IO Blob :=
  if negb (length shots =? 4)%nat
  then throw (Error "Need exactly 4 shots")
  else
    let slots := map to_pixels (slots_of frame) in
    let* canvas := createCanvas 1200 1800 in
    let* ctx := getContext P canvas in
    match ctx with
    | None => throw (Error "Canvas not supported")
    | Some ctx =>
        let ctx := Canvas.set_fillStyle "#ffffff" ctx in
        let ctx := Canvas.fillRect 0 0 W H ctx in
        let* shotImgs := Promise_all (map (blobToImage P) shots) in
        match forEach (draw_shot slots) shotImgs 0 ctx with
        | Rejected e => throw e
        | Resolved ctx =>
            let* frameImg := loadImage P (Url (frame_src frame)) in
            let ctx := Canvas.drawImage (Canvas.ImageSource frameImg)
                         0 0 W H ctx in
            toBlob P ctx
        end
    end.

End Compose.

(** ** The component

    The [useState] cells of [ResultPage], and the browser they run in. *)
Record State := {
  error : option string;
  loading : bool;
  shots : list Blob;
  frameId : FrameId;
  finalBlob : option Blob;
  saving : bool;
  loadedAt : option Z;
  world : World;
}.

(** The state of the first render. *)
Definition initial (w : World) : State :=
  {| error := None; loading := true; shots := []; frameId := frame1;
     finalBlob := None; saving := false; loadedAt := None; world := w |}.

Definition setError (v : option string) (s : State) : State :=
  {| error := v; loading := loading s; shots := shots s;
     frameId := frameId s; finalBlob := finalBlob s; saving := saving s;
     loadedAt := loadedAt s; world := world s |}.

Definition setLoading (v : bool) (s : State) : State :=
  {| error := error s; loading := v; shots := shots s;
     frameId := frameId s; finalBlob := finalBlob s; saving := saving s;
     loadedAt := loadedAt s; world := world s |}.

Definition setShots (v : list Blob) (s : State) : State :=
  {| error := error s; loading := loading s; shots := v;
     frameId := frameId s; finalBlob := finalBlob s; saving := saving s;
     loadedAt := loadedAt s; world := world s |}.

Definition setFrameId (v : FrameId) (s : State) : State :=
  {| error := error s; loading := loading s; shots := shots s;
     frameId := v; finalBlob := finalBlob s; saving := saving s;
     loadedAt := loadedAt s; world := world s |}.

Definition setFinalBlob (v : option Blob) (s : State) : State :=
  {| error := error s; loading := loading s; shots := shots s;
     frameId := frameId s; finalBlob := v; saving := saving s;
     loadedAt := loadedAt s; world := world s |}.

Definition setSaving (v : bool) (s : State) : State :=
  {| error := error s; loading := loading s; shots := shots s;
     frameId := frameId s; finalBlob := finalBlob s; saving := v;
     loadedAt := loadedAt s; world := world s |}.

Definition setLoadedAt (v : option Z) (s : State) : State :=
  {| error := error s; loading := loading s; shots := shots s;
     frameId := frameId s; finalBlob := finalBlob s; saving := saving s;
     loadedAt := v; world := world s |}.

Definition setWorld (w : World) (s : State) : State :=
  {| error := error s; loading := loading s; shots := shots s;
     frameId := frameId s; finalBlob := finalBlob s; saving := saving s;
     loadedAt := loadedAt s; world := w |}.

(** Browser code run from the component. *)
Definition io {A} (m : IO A) : M State A :=
  fun s => let (r, w) := m (world s) in (r, setWorld w s).

Section Component.

Variable P : Platform.

Local Open Scope js_scope.

(** A call [composeFinalPNG(shots, frame)] whose [frame] came from
    [getFrameConfig]: an [undefined] frame passes the length test and
    throws at [frame.slots]. *)
Definition compose (shots : list Blob) (frame : option FrameConfig)
  : IO Blob :=
  match frame with
  | Some f => composeFinalPNG P shots f
  | None =>
      if negb (length shots =? 4)%nat
      then throw (Error "Need exactly 4 shots")
      else throw (TypeError (undefined_message P))
  end.

(** [!data || !data.shots || data.shots.length !== 4], negated: the
    record and its shots when the test lets them through. *)
Definition four_shots (data : option SavedState)
  : option (SavedState * list Blob) :=
  match data with
  | None => None
  | Some d =>
      match saved_shots d with
      | None => None
      | Some sh => if (length sh =? 4)%nat then Some (d, sh) else None
      end
  end.

(** The effect with the empty dependency list: load from the store on
    mount. *)
Definition mount : M State unit :=
  modify (setError None) ;;
  modify (setLoading true) ;;
  finally
    (try_catch
       (let* data := io (idb_get P DB_KEY) in
        match four_shots data with
        | None =>
            modify (setError (Some
              "No capturing data found. Please take 4 photos on the capturing page first.")) ;;
            modify (setShots []) ;;
            modify (setFinalBlob None) ;;
            modify (setLoadedAt None)
        | Some (d, sh) =>
            modify (setShots sh) ;;
            modify (setFrameId (default frame1 (saved_frameId d))) ;;
            modify (setLoadedAt (savedAt d)) ;;
            let selected :=
              getFrameConfig (default frame1 (saved_frameId d)) in
            let* final := io (compose sh selected) in
            modify (setFinalBlob (Some final))
        end)
       (fun e => modify (setError (Some (message_or e "Load failed")))))
    (setLoading false).

(** The effect that depends on [frameId]: recompose and persist. *)
Definition frame_effect : M State unit :=
  let* shots := gets shots in
  let* frameId := gets frameId in
  let frame := getFrameConfig frameId in
  if negb (length shots =? 4)%nat then ret tt
  else
    try_catch
      (let* final := io (compose shots frame) in
       modify (setFinalBlob (Some final)) ;;
       let* now := io Date_now in
       let payload :=
         {| saved_shots := Some shots; saved_frameId := Some frameId;
            saved_final := Some final; savedAt := Some now |} in
       io (idb_set P DB_KEY payload) ;;
       modify (setLoadedAt (savedAt payload)))
      (fun e => modify (setError (Some (message_or e "Compose failed")))).

(** A click on a frame button: [setFrameId(f.id)].  Setting the value
    the cell already holds does not render again, so the effect runs
    only when the frame changes. *)
Definition select_frame (f : FrameId) : M State unit :=
  let* current := gets frameId in
  if bool_decide (f = current) then ret tt
  else modify (setFrameId f) ;; frame_effect.

Definition saveToDB : M State unit :=
  modify (setError None) ;;
  let* shots := gets shots in
  if negb (length shots =? 4)%nat
  then modify (setError (Some "4 photos are required."))
  else
    modify (setSaving true) ;;
    finally
      (try_catch
         (let* frameId := gets frameId in
          let* finalBlob := gets finalBlob in
          let* now := io Date_now in
          let payload :=
            {| saved_shots := Some shots; saved_frameId := Some frameId;
               saved_final := finalBlob; savedAt := Some now |} in
          io (idb_set P DB_KEY payload) ;;
          modify (setLoadedAt (savedAt payload)))
         (fun e => modify (setError (Some (message_or e "Save failed")))))
      (setSaving false).

Definition clearDB : M State unit :=
  modify (setError None) ;;
  modify (setSaving true) ;;
  finally
    (try_catch
       (io (idb_del P DB_KEY) ;;
        modify (setLoadedAt None) ;;
        modify (setShots []) ;;
        modify (setFinalBlob None))
       (fun e => modify (setError (Some (message_or e "Clear failed")))))
    (setSaving false).

End Component.

End ResultPage.


(* ===================================================================== *)
(** * The earlier single page *)
(* ===================================================================== *)

(** The earlier version of the application had capture, frame choice and
    composition on one page.  Its [captureFromVideo] is the text of the
    capture page's; its [composeFinalPNG] takes the frame's URL and lays
    the shots out on a computed grid of four square cells. *)
Module SinglePage.

Import ResultPage.

Definition W : Q := 1200.
Definition H : Q := 1800.

Definition padding : Q := 90.
Definition gap : Q := 60.

Definition gridW : Q := W - padding * 2.
Definition cellW : Q := Math_floor ((gridW - gap) / 2).
Definition cellH : Q := cellW.
Definition totalGridH : Q := cellH * 2 + gap.

Definition startX : Q := padding.
Definition startY : Q := Math_floor ((H - totalGridH) / 2).

Definition positions : list (Q * Q) :=
  [ (startX, startY);
    (startX + cellW + gap, startY);
    (startX, startY + cellH + gap);
    (startX + cellW + gap, startY + cellH + gap) ]%Q.

(** The cell at a position, as a rectangle. *)
Definition cell (p : Q * Q) : SlotRect :=
  {| slot_x := fst p; slot_y := snd p; slot_w := cellW; slot_h := cellH |}.

Section Compose.

Variable P : Platform.

Local Open Scope js_scope.

(** The numbers computed in the [forEach] callback. *)
Definition scale_of (img : HTMLImageElement) : Q :=
  Math_max (cellW / inject_Z (img_width img))
           (cellH / inject_Z (img_height img)).

Definition drawW (img : HTMLImageElement) : Q :=
  inject_Z (img_width img) * scale_of img.

Definition drawH (img : HTMLImageElement) : Q :=
  inject_Z (img_height img) * scale_of img.

Definition dx (p : Q * Q) (img : HTMLImageElement) : Q :=
  fst p + (cellW - drawW img) / 2.

Definition dy (p : Q * Q) (img : HTMLImageElement) : Q :=
  snd p + (cellH - drawH img) / 2.

Definition draw_shot (img : HTMLImageElement) (i : nat)
           (ctx : Canvas.Context2D) : Completion Canvas.Context2D :=
  match positions !! i with
  | None => Rejected (TypeError (undefined_message P))
  | Some p =>
      let ctx := Canvas.save ctx in
      let ctx := Canvas.beginPath ctx in
      let ctx := Canvas.rect (fst p) (snd p) cellW cellH ctx in
      let ctx := Canvas.clip ctx in
      let ctx := Canvas.drawImage (Canvas.ImageSource img)
                   (dx p img) (dy p img) (drawW img) (drawH img) ctx in
      let ctx := Canvas.restore ctx in
      let ctx := Canvas.set_strokeStyle "rgba(0,0,0,0.08)" ctx in
      let ctx := Canvas.set_lineWidth 6 ctx in
      let ctx := Canvas.strokeRect (fst p) (snd p) cellW cellH ctx in
      Resolved ctx
  end.

Definition composeFinalPNG (shots : list Blob) (frameSrc : string)
  : IO Blob :=
  if negb (length shots =? 4)%nat
  then throw (Error "Need exactly 4 shots")
  else
    let* canvas := createCanvas 1200 1800 in
    let* ctx := getContext P canvas in
    match ctx with
    | None => throw (Error "Canvas not supported")
    | Some ctx =>
        let ctx := Canvas.set_fillStyle "#ffffff" ctx in
        let ctx := Canvas.fillRect 0 0 W H ctx in
        let* shotImgs := Promise_all (map (blobToImage P) shots) in
        match forEach draw_shot shotImgs 0 ctx with
        | Rejected e => throw e
        | Resolved ctx =>
            let* frameImg := loadImage P (Url frameSrc) in
            let ctx := Canvas.drawImage (Canvas.ImageSource frameImg)
                         0 0 W H ctx in
            toBlob P ctx
        end
    end.

End Compose.

End SinglePage.

(* ===================================================================== *)
(** * The earlier single page: the component *)
(* ===================================================================== *)

(** [Page], the component of the earlier version: its frame table,
    [clamp], and the handlers that compose, save, load and clear.  Its
    [loadFromDB] puts [data.frameId] and [data.shots] into the state as
    it finds them, so these two cells may hold [undefined], here
    [None]. *)
Module Page.

Definition DB_KEY : string := "toaster_mvp_state_v1".

Record Frame := { id : FrameId; label : string; src : string }.

Definition FRAMES : list Frame :=
  [ {| id := frame1; label := "Frame 1"; src := "/frames/frame1.png" |};
    {| id := frame2; label := "Frame 2"; src := "/frames/frame2.png" |};
    {| id := frame3; label := "Frame 3"; src := "/frames/frame3.png" |};
    {| id := frame4; label := "Frame 4"; src := "/frames/frame4.png" |} ].

Definition Math_min (a b : Q) : Q := Qmin a b.

Definition clamp (n min max : Q) : Q := Math_max min (Math_min max n).

(** [FRAMES.find((f) => f.id === frameId)?.src ?? FRAMES[0].src]; [None]
    stands for the [TypeError] of reading [src] from an [undefined]
    [FRAMES[0]]. *)
Definition frameSrc (frameId : option FrameId) : option string :=
  match find (fun f => bool_decide (Some (id f) = frameId)) FRAMES with
  | Some f => Some (src f)
  | None => src <$> FRAMES !! 0%nat
  end.

(** The [useState] cells the handlers below work on, and the browser. *)
Record State := {
  error : option string;
  shots : option (list Blob);
  frameId : option FrameId;
  finalBlob : option Blob;
  saving : bool;
  loadedAt : option Z;
  world : World;
}.

Definition setError (v : option string) (s : State) : State :=
  {| error := v; shots := shots s; frameId := frameId s;
     finalBlob := finalBlob s; saving := saving s; loadedAt := loadedAt s;
     world := world s |}.

Definition setShots (v : option (list Blob)) (s : State) : State :=
  {| error := error s; shots := v; frameId := frameId s;
     finalBlob := finalBlob s; saving := saving s; loadedAt := loadedAt s;
     world := world s |}.

Definition setFrameId (v : option FrameId) (s : State) : State :=
  {| error := error s; shots := shots s; frameId := v;
     finalBlob := finalBlob s; saving := saving s; loadedAt := loadedAt s;
     world := world s |}.

Definition setFinalBlob (v : option Blob) (s : State) : State :=
  {| error := error s; shots := shots s; frameId := frameId s;
     finalBlob := v; saving := saving s; loadedAt := loadedAt s;
     world := world s |}.

Definition setSaving (v : bool) (s : State) : State :=
  {| error := error s; shots := shots s; frameId := frameId s;
     finalBlob := finalBlob s; saving := v; loadedAt := loadedAt s;
     world := world s |}.

Definition setLoadedAt (v : option Z) (s : State) : State :=
  {| error := error s; shots := shots s; frameId := frameId s;
     finalBlob := finalBlob s; saving := saving s; loadedAt := v;
     world := world s |}.

Definition setWorld (w : World) (s : State) : State :=
  {| error := error s; shots := shots s; frameId := frameId s;
     finalBlob := finalBlob s; saving := saving s; loadedAt := loadedAt s;
     world := w |}.

(** The state of the first render. *)
Definition initial (w : World) : State :=
  {| error := None; shots := Some []; frameId := Some frame1;
     finalBlob := None; saving := false; loadedAt := None; world := w |}.

Definition io {A} (m : IO A) : M State A :=
  fun s => let (r, w) := m (world s) in (r, setWorld w s).

Section Component.

Variable P : Platform.

Local Open Scope js_scope.

(** [shots.length], which throws when [shots] is [undefined]. *)
Definition length_of {S} (shots : option (list Blob)) : M S nat :=
  match shots with
  | Some sh => ret (length sh)
  | None => throw (TypeError (undefined_message P))
  end.

(** A call [composeFinalPNG(shots, frameSrc)] with the values at hand:
    an [undefined] list of shots throws at [shots.length]. *)
Definition compose (shots : option (list Blob)) (frameSrc : option string)
  : IO Blob :=
  match frameSrc with
  | None => throw (TypeError (undefined_message P))
  | Some src =>
      match shots with
      | None => throw (TypeError (undefined_message P))
      | Some sh => SinglePage.composeFinalPNG P sh src
      end
  end.

Definition recomputeFinal : M State unit :=
  modify (setError None) ;;
  let* shots := gets shots in
  let* n := length_of shots in
  if negb (n =? 4)%nat then modify (setError (Some "Need 4 shots first"))
  else
    try_catch
      (let* frameId := gets frameId in
       let* final := io (compose shots (frameSrc frameId)) in
       modify (setFinalBlob (Some final)))
      (fun e => modify (setError (Some (message_or e "Compose failed")))).

Definition saveToDB : M State unit :=
  modify (setError None) ;;
  let* shots := gets shots in
  let* n := length_of shots in
  if negb (n =? 4)%nat
  then modify (setError (Some "촬영 4장이 있어야 저장할 수 있어요."))
  else
    modify (setSaving true) ;;
    finally
      (try_catch
         (let* frameId := gets frameId in
          let* finalBlob := gets finalBlob in
          let* now := io Date_now in
          let payload :=
            {| saved_shots := shots; saved_frameId := frameId;
               saved_final := finalBlob; savedAt := Some now |} in
          io (idb_set P DB_KEY payload) ;;
          modify (setLoadedAt (savedAt payload)))
         (fun e => modify (setError (Some (message_or e "Save failed")))))
      (setSaving false).

Definition loadFromDB : M State unit :=
  modify (setError None) ;;
  modify (setSaving true) ;;
  finally
    (try_catch
       (let* data := io (idb_get P DB_KEY) in
        match data with
        | None => modify (setError (Some "저장된 데이터가 없어요."))
        | Some data =>
            modify (setFrameId (saved_frameId data)) ;;
            modify (setShots (saved_shots data)) ;;
            match saved_final data with
            | Some final => modify (setFinalBlob (Some final))
            | None =>
                let* final :=
                  io (compose (saved_shots data)
                        (frameSrc (saved_frameId data))) in
                modify (setFinalBlob (Some final))
            end ;;
            modify (setLoadedAt (savedAt data))
        end)
       (fun e => modify (setError (Some (message_or e "Load failed")))))
    (setSaving false).

Definition clearDB : M State unit :=
  modify (setError None) ;;
  modify (setSaving true) ;;
  finally
    (try_catch
       (io (idb_del P DB_KEY) ;;
        modify (setLoadedAt None))
       (fun e => modify (setError (Some (message_or e "Clear failed")))))
    (setSaving false).

(** The effect that depends on [frameId]. *)
Definition frame_effect : M State unit :=
  let* shots := gets shots in
  let* n := length_of shots in
  if (n =? 4)%nat then recomputeFinal else ret tt.

(** A click on a frame button: [setFrameId(f.id)]; the effect runs when
    the value changes. *)
Definition select_frame (f : FrameId) : M State unit :=
  let* current := gets frameId in
  if bool_decide (Some f = current) then ret tt
  else modify (setFrameId (Some f)) ;; frame_effect.

End Component.

End Page.

(* ===================================================================== *)
(** * The arithmetic of one slot, in binary64 *)
(* ===================================================================== *)

(** The scale and the drawn size computed in the [forEach] callback of
    [composeFinalPNG], over the doubles JavaScript computes with.  The
    arguments are the slot's [w] and [h] and the image's [width] and
    [height]. *)
Module Binary64.

Local Open Scope float_scope.

(** [Math.max] of two numbers, neither of them [NaN]. *)
Definition Math_max (a b : float) : float := if PrimFloat.ltb a b then b else a.

Definition scale_of (w h width height : float) : float :=
  Math_max (w / width) (h / height).

Definition drawW (w h width height : float) : float :=
  width * scale_of w h width height.

Definition drawH (w h width height : float) : float :=
  height * scale_of w h width height.

End Binary64.

(* ===================================================================== *)
(** * The capture page *)
(* ===================================================================== *)

Module CapturePage.

Definition DB_KEY : string := "toaster_mvp_state_v1".

(** The [useState] cells of [CapturePage], whether [videoRef.current] is
    set, and the browser. *)
Record State := {
  videoRef : bool;
  cameraOn : bool;
  error : option string;
  isShooting : bool;
  countdown : Z;
  shotIndex : Z;
  shots : list Blob;
  world : World;
}.

Definition setError (v : option string) (s : State) : State :=
  {| videoRef := videoRef s; cameraOn := cameraOn s; error := v;
     isShooting := isShooting s; countdown := countdown s;
     shotIndex := shotIndex s; shots := shots s; world := world s |}.

Definition setIsShooting (v : bool) (s : State) : State :=
  {| videoRef := videoRef s; cameraOn := cameraOn s; error := error s;
     isShooting := v; countdown := countdown s;
     shotIndex := shotIndex s; shots := shots s; world := world s |}.

Definition setShotIndex (v : Z) (s : State) : State :=
  {| videoRef := videoRef s; cameraOn := cameraOn s; error := error s;
     isShooting := isShooting s; countdown := countdown s;
     shotIndex := v; shots := shots s; world := world s |}.

Definition setShots (v : list Blob) (s : State) : State :=
  {| videoRef := videoRef s; cameraOn := cameraOn s; error := error s;
     isShooting := isShooting s; countdown := countdown s;
     shotIndex := shotIndex s; shots := v; world := world s |}.

(** [setCountdown(c)]; the number is what the page shows, so the call is
    also recorded in the log. *)
Definition setCountdown (v : Z) (s : State) : State :=
  {| videoRef := videoRef s; cameraOn := cameraOn s; error := error s;
     isShooting := isShooting s; countdown := v;
     shotIndex := shotIndex s; shots := shots s;
     world := emit (ShowCountdown v) (world s) |}.

Definition setWorld (w : World) (s : State) : State :=
  {| videoRef := videoRef s; cameraOn := cameraOn s; error := error s;
     isShooting := isShooting s; countdown := countdown s;
     shotIndex := shotIndex s; shots := shots s; world := w |}.

Definition io {A} (m : IO A) : M State A :=
  fun s => let (r, w) := m (world s) in (r, setWorld w s).

(** A [for] loop over the given values of its counter, with the local
    variables of the enclosing function as accumulator. *)
Fixpoint for_ {S A} (counter : list Z) (body : Z -> A -> M S A) (acc : A)
  : M S A :=
  match counter with
  | [] => ret acc
  | i :: rest => bind (body i acc) (for_ rest body)
  end.

Section Component.

Variable P : Platform.

Local Open Scope js_scope.

(** [!vw || !vh] for the unsigned integers [videoWidth] and
    [videoHeight]. *)
Definition not_ready (vw vh : Z) : bool := (vw =? 0)%Z || (vh =? 0)%Z.

(** [captureFromVideo]; the earlier single page has the same function,
    word for word. *)
Definition captureFromVideo (video : HTMLVideoElement) : IO Blob :=
  let vw := videoWidth video in
  let vh := videoHeight video in
  if not_ready vw vh then throw (Error "Video not ready")
  else
    let* canvas := createCanvas vw vh in
    let* ctx := getContext P canvas in
    match ctx with
    | None => throw (Error "Canvas not supported")
    | Some ctx =>
        let ctx := Canvas.save ctx in
        let ctx := Canvas.translate (inject_Z vw) 0 ctx in
        let ctx := Canvas.scale (-1) 1 ctx in
        let ctx := Canvas.drawImage (Canvas.VideoSource video) 0 0
                     (inject_Z vw) (inject_Z vh) ctx in
        let ctx := Canvas.restore ctx in
        toBlob P ctx
    end.

(** [captureFromVideo(video)] on the live element: its fields are read
    when the call is made. *)
Definition capture_now : IO Blob :=
  let* now := gets clock in
  captureFromVideo (camera P now).

(** The body of the inner loop: show [c], wait a second. *)
Definition tick (c : Z) (_ : unit) : M State unit :=
  modify (setCountdown c) ;;
  io (sleep 1000).

(** The body of the outer loop, for shot [i]; [captured] is the array
    of the blobs taken so far. *)
Definition take_shot (i : Z) (captured : list Blob)
  : M State (list Blob) :=
  (* per-shot countdown 3..2..1 *)
  for_ [3; 2; 1]%Z tick tt ;;
  modify (setCountdown 0) ;;
  (* capture *)
  let* blob := io capture_now in
  let captured := captured ++ [blob] in
  modify (setShots captured) ;;
  modify (setShotIndex (Z.of_nat (length captured))) ;;
  (* small pause between shots *)
  (if (i <? 3)%Z then io (sleep 400) else ret tt) ;;
  ret captured.

Definition shoot4WithPerShotCountdown : M State unit :=
  modify (setError None) ;;
  let* video := gets videoRef in
  if negb video then modify (setError (Some "No video element"))
  else
    let* cameraOn := gets cameraOn in
    if negb cameraOn then modify (setError (Some "Camera is off"))
    else
      let* isShooting := gets isShooting in
      if isShooting then ret tt
      else
        modify (setIsShooting true) ;;
        modify (setShots []) ;;
        modify (setShotIndex 0) ;;
        let* completed :=
          try_catch
            (let* captured := for_ [0; 1; 2; 3]%Z take_shot [] in
             (* Save shots immediately so /result can read them *)
             let* now := io Date_now in
             let payload :=
               {| saved_shots := Some captured;
                  saved_frameId := Some frame1;
                  saved_final := None;
                  savedAt := Some now |} in
             io (idb_set P DB_KEY payload) ;;
             ret true)
            (fun e =>
               modify (setError (Some (message_or e "Capture failed"))) ;;
               modify (setIsShooting false) ;;
               modify (setCountdown 0) ;;
               ret false) in
        if completed
        then modify (setIsShooting false) ;; modify (setCountdown 0)
        else ret tt.

End Component.

Definition setCameraOn (v : bool) (s : State) : State :=
  {| videoRef := videoRef s; cameraOn := v; error := error s;
     isShooting := isShooting s; countdown := countdown s;
     shotIndex := shotIndex s; shots := shots s; world := world s |}.

(** [reset] *)
Definition reset : M State unit :=
  (modify (setError None) ;;
   modify (setIsShooting false) ;;
   modify (setCountdown 0) ;;
   modify (setShotIndex 0) ;;
   modify (setShots []))%js.

(** [canGoNext], as each render computes it. *)
Definition canGoNext (s : State) : bool :=
  (length (shots s) =? 4)%nat && negb (isShooting s).

(** ** The camera

    [startCamera] and [stopCamera] work on [streamRef], on the video
    element and on the tracks of the stream.  A track is a number; a
    stream is the list of its tracks. *)
Definition MediaStreamTrack : Type := nat.

Record MediaStream := { getTracks : list MediaStreamTrack }.

(** What the platform answers: [getUserMedia] when it is called for the
    [n]th time, and [video.play()] for a given [srcObject]. *)
Record MediaDevices := {
  getUserMedia : nat -> Completion MediaStream;
  play : MediaStream -> option JsError;
}.

(** The page together with [streamRef.current], the properties of the
    video element that the two functions assign (they mean something
    only while [videoRef.current] is set), the number of calls of
    [getUserMedia] so far, and the tracks on which [stop()] has been
    called, in order. *)
Record Camera := {
  page : State;
  streamRef : option MediaStream;
  srcObject : option MediaStream;
  muted : bool;
  playsInline : bool;
  requests : nat;
  stopped : list MediaStreamTrack;
}.

Definition with_page (v : State) (c : Camera) : Camera :=
  {| page := v; streamRef := streamRef c; srcObject := srcObject c;
     muted := muted c; playsInline := playsInline c;
     requests := requests c; stopped := stopped c |}.

Definition set_streamRef (v : option MediaStream) (c : Camera) : Camera :=
  {| page := page c; streamRef := v; srcObject := srcObject c;
     muted := muted c; playsInline := playsInline c;
     requests := requests c; stopped := stopped c |}.

Definition set_srcObject (v : option MediaStream) (c : Camera) : Camera :=
  {| page := page c; streamRef := streamRef c; srcObject := v;
     muted := muted c; playsInline := playsInline c;
     requests := requests c; stopped := stopped c |}.

Definition set_muted (v : bool) (c : Camera) : Camera :=
  {| page := page c; streamRef := streamRef c; srcObject := srcObject c;
     muted := v; playsInline := playsInline c;
     requests := requests c; stopped := stopped c |}.

Definition set_playsInline (v : bool) (c : Camera) : Camera :=
  {| page := page c; streamRef := streamRef c; srcObject := srcObject c;
     muted := muted c; playsInline := v;
     requests := requests c; stopped := stopped c |}.

(** [t.stop()] *)
Definition stop (t : MediaStreamTrack) (c : Camera) : Camera :=
  {| page := page c; streamRef := streamRef c; srcObject := srcObject c;
     muted := muted c; playsInline := playsInline c;
     requests := requests c; stopped := stopped c ++ [t] |}.

(** A setter of the page, called from code that works on the camera. *)
Definition on_page (f : State -> State) : M Camera unit :=
  modify (fun c => with_page (f (page c)) c).

Section Devices.

Variable D : MediaDevices.

Local Open Scope js_scope.

(** [await navigator.mediaDevices.getUserMedia(...)] *)
Definition request : M Camera MediaStream :=
  fun c =>
    (getUserMedia D (requests c),
     {| page := page c; streamRef := streamRef c; srcObject := srcObject c;
        muted := muted c; playsInline := playsInline c;
        requests := S (requests c); stopped := stopped c |}).

(** [await video.play()], for the stream that has just been made the
    element's [srcObject]. *)
Definition video_play (stream : MediaStream) : M Camera unit :=
  match play D stream with
  | Some e => throw e
  | None => ret tt
  end.

Definition startCamera : M Camera unit :=
  on_page (setError None) ;;
  try_catch
    (let* stream := request in
     modify (set_streamRef (Some stream)) ;;
     let* video := gets (fun c => videoRef (page c)) in
     if negb video then throw (Error "Video element not found")
     else
       modify (set_srcObject (Some stream)) ;;
       modify (set_muted true) ;;
       modify (set_playsInline true) ;;
       video_play stream ;;
       on_page (setCameraOn true))
    (fun e =>
       on_page (setError (Some (message_or e "Failed to start camera"))) ;;
       on_page (setCameraOn false)).

Definition stopCamera : M Camera unit :=
  on_page (setCameraOn false) ;;
  on_page (setIsShooting false) ;;
  on_page (setCountdown 0) ;;
  let* stream := gets streamRef in
  (match stream with
   | Some s => modify (fun c => fold_left (fun c t => stop t c) (getTracks s) c)
   | None => ret tt
   end) ;;
  modify (set_streamRef None) ;;
  let* video := gets (fun c => videoRef (page c)) in
  if video then modify (set_srcObject None) else ret tt.

End Devices.

End CapturePage.

(* ===================================================================== *)
(** * A concrete browser *)
(* ===================================================================== *)

Module Sample.

Definition shot (n : Z) : Blob :=
  {| blob_type := "image/png"; blob_bytes := [n] |}.

Definition four_shots : list Blob := [shot 0; shot 1; shot 2; shot 3].

(** A browser in which everything works: captured shots decode to
    1280x720 images, every URL to a 1200x1800 image, the camera streams
    1280x720, and the encoder answers with a blob that records the
    display list's length. *)
Definition browser : Platform :=
  {| load := fun src =>
       match src with
       | Url _ => Some (1200, 1800)%Z
       | ObjectUrl _ => Some (1280, 720)%Z
       end;
     canvas_2d := true;
     png := fun c =>
       Some {| blob_type := "image/png";
               blob_bytes := [Z.of_nat (length (Canvas.display c))] |};
     camera := fun t =>
       {| videoWidth := 1280; videoHeight := 720; currentFrame := t |};
     idb_failure := None;
     undefined_message := "Cannot read properties of undefined" |}.

(** The same browser with a camera of two pixels by one. *)
Definition tiny_camera : Platform :=
  {| load := load browser; canvas_2d := true; png := png browser;
     camera := fun t =>
       {| videoWidth := 2; videoHeight := 1; currentFrame := t |};
     idb_failure := None;
     undefined_message := undefined_message browser |}.

Definition empty_world : World := {| store := ∅; clock := 0; log := [] |}.

(** A [FrameConfig] with an empty table, the default of the lookup
    below. *)
Definition no_slots : ResultPage.FrameConfig :=
  {| ResultPage.frame_id := frame2;
     ResultPage.frame_label := "None";
     ResultPage.frame_src := "/frames/frame2.png";
     ResultPage.frame_slots := Some [] |}.

(** The capture page once the camera is on. *)
Definition ready : CapturePage.State :=
  {| CapturePage.videoRef := true; CapturePage.cameraOn := true;
     CapturePage.error := None; CapturePage.isShooting := false;
     CapturePage.countdown := 0; CapturePage.shotIndex := 0;
     CapturePage.shots := []; CapturePage.world := empty_world |}.

(** What the encoder of [browser] returns for a canvas with one
    paint. *)
Definition snap : Blob := {| blob_type := "image/png"; blob_bytes := [1%Z] |}.

Definition image (n : Z) : HTMLImageElement :=
  {| img_src := ObjectUrl (shot n); img_width := 1280; img_height := 720 |}.

Definition slot : ResultPage.SlotRect :=
  {| ResultPage.slot_x := 90; ResultPage.slot_y := 360;
     ResultPage.slot_w := 510; ResultPage.slot_h := 510 |}.

(** The entry of [FRAMES] for [frame2], and what its image and the
    four shots load as in [browser]. *)
Definition frame2_config : ResultPage.FrameConfig :=
  default no_slots (ResultPage.getFrameConfig frame2).

Definition frame_image : HTMLImageElement :=
  {| img_src := Url "/frames/frame2.png";
     img_width := 1200; img_height := 1800 |}.

Definition images : list HTMLImageElement :=
  [image 0; image 1; image 2; image 3].

(** A record as the capture page leaves it, and a world that holds
    it. *)
Definition saved : SavedState :=
  {| saved_shots := Some four_shots; saved_frameId := Some frame1;
     saved_final := None; savedAt := Some 0%Z |}.

Definition stored_world : World :=
  {| store := {[ ResultPage.DB_KEY := saved ]}; clock := 100; log := [] |}.

(** The result page after it has loaded that record. *)
Definition loaded : ResultPage.State :=
  {| ResultPage.error := None; ResultPage.loading := false;
     ResultPage.shots := four_shots; ResultPage.frameId := frame1;
     ResultPage.finalBlob := None; ResultPage.saving := false;
     ResultPage.loadedAt := Some 0%Z; ResultPage.world := stored_world |}.

(** What the encoder of [browser] returns for a composite of ten
    paints. *)
Definition composite : Blob :=
  {| blob_type := "image/png"; blob_bytes := [10%Z] |}.

(** The same browser with an IndexedDB whose requests all fail. *)
Definition no_storage : Platform :=
  {| load := load browser; canvas_2d := true; png := png browser;
     camera := camera browser;
     idb_failure := Some (Error "QuotaExceededError");
     undefined_message := undefined_message browser |}.

(** The same browser, in which the image of [frame2] does not load. *)
Definition no_frame2 : Platform :=
  {| load := fun src =>
       match src with
       | Url u => if String.eqb u "/frames/frame2.png" then None
                  else Some (1200, 1800)%Z
       | ObjectUrl _ => Some (1280, 720)%Z
       end;
     canvas_2d := true; png := png browser; camera := camera browser;
     idb_failure := None;
     undefined_message := undefined_message browser |}.

(** The same browser, in which the second shot does not decode. *)
Definition bad_shot : Platform :=
  {| load := fun src =>
       match src with
       | Url _ => Some (1200, 1800)%Z
       | ObjectUrl b => if bool_decide (blob_bytes b = [1%Z]) then None
                        else Some (1280, 720)%Z
       end;
     canvas_2d := true; png := png browser; camera := camera browser;
     idb_failure := None;
     undefined_message := undefined_message browser |}.

(** Devices that hand out, at the [n]th request, a stream with the one
    track [n], and on which playing the first stream is refused. *)
Definition devices : CapturePage.MediaDevices :=
  {| CapturePage.getUserMedia := fun n =>
       Resolved {| CapturePage.getTracks := [n] |};
     CapturePage.play := fun s =>
       if bool_decide (CapturePage.getTracks s = [0%nat])
       then Some (Error "NotAllowedError")
       else None |}.

(** The capture page before the camera has been switched on. *)
Definition idle : CapturePage.Camera :=
  {| CapturePage.page :=
       {| CapturePage.videoRef := true; CapturePage.cameraOn := false;
          CapturePage.error := None; CapturePage.isShooting := false;
          CapturePage.countdown := 0; CapturePage.shotIndex := 0;
          CapturePage.shots := []; CapturePage.world := empty_world |};
     CapturePage.streamRef := None; CapturePage.srcObject := None;
     CapturePage.muted := true; CapturePage.playsInline := true;
     CapturePage.requests := 0; CapturePage.stopped := [] |}.

(** A record with a cached final image and only one shot, and a world
    that holds it. *)
Definition cached : SavedState :=
  {| saved_shots := Some [shot 0]; saved_frameId := Some frame2;
     saved_final := Some composite; savedAt := Some 0%Z |}.

Definition cached_world : World :=
  {| store := {[ Page.DB_KEY := cached ]}; clock := 100; log := [] |}.

(** The earlier page with four shots and their composite. *)
Definition composed : Page.State :=
  {| Page.error := None; Page.shots := Some four_shots;
     Page.frameId := Some frame3; Page.finalBlob := Some composite;
     Page.saving := false; Page.loadedAt := None;
     Page.world := empty_world |}.

End Sample.


(* ===================================================================== *)
(** * Vocabulary of the statements *)
(* ===================================================================== *)

(** The world [w] after the platform calls [events]. *)
Definition after (w : World) (events : list Event) : World :=
  {| store := store w; clock := clock w; log := log w ++ events |}.

(** The platform calls made between [w] and a later world [w']. *)
Definition events_since (w w' : World) : list Event :=
  drop (length (log w)) (log w').

(** The outcome of the promise around [toBlob] for a given canvas. *)
Definition encode (P : Platform) (cv : Canvas.Context2D) : Completion Blob :=
  match png P cv with
  | Some b => Resolved b
  | None => Rejected (Error "toBlob failed")
  end.

(** [img] is the element that loading [src] resolves with. *)
Definition loads (P : Platform) (src : ImageSrc) (img : HTMLImageElement)
  : Prop :=
  load P src = Some (img_width img, img_height img) /\ img_src img = src.

Definition is_idb (e : Event) : bool :=
  match e with
  | IdbGet _ | IdbSet _ _ | IdbDel _ => true
  | _ => false
  end.

(** [m] does the same in every world: the same outcome, the same
    platform calls, none of them to IndexedDB. *)
Definition uniform {A} (m : IO A) : Prop :=
  exists (r : Completion A) (evs : list Event),
    forallb (fun e => negb (is_idb e)) evs = true /\
    forall w, m w = (r, after w evs).

(** The canvas handed to the encoder last, if any. *)
Definition encoded (w : World) : option Canvas.Context2D :=
  match last (log w) with
  | Some (ToBlob cv) => Some cv
  | _ => None
  end.

Module Layout.

Import ResultPage.

(** Does a configuration carry a slot table of its own? *)
Definition has_table (f : FrameConfig) : bool :=
  match frame_slots f with Some _ => true | None => false end.

Definition slot_rect (s : SlotRect) : Canvas.Rect :=
  {| Canvas.rx := slot_x s; Canvas.ry := slot_y s;
     Canvas.rw := slot_w s; Canvas.rh := slot_h s |}.

Definition whole_canvas : Canvas.Rect :=
  {| Canvas.rx := 0; Canvas.ry := 0; Canvas.rw := W; Canvas.rh := H |}.

Definition background : Canvas.Paint :=
  Canvas.PFillRect Canvas.identity [] "#ffffff" whole_canvas.

(** Shot [img] drawn to cover slot [s], clipped to the slot. *)
Definition clipped_draw (s : SlotRect) (img : HTMLImageElement)
  : Canvas.Paint :=
  Canvas.PDrawImage Canvas.identity [[(Canvas.identity, slot_rect s)]]
    (Canvas.ImageSource img)
    {| Canvas.rx := dx s img; Canvas.ry := dy s img;
       Canvas.rw := drawW s img; Canvas.rh := drawH s img |}.

(** The outline of slot [s], not clipped. *)
Definition border (s : SlotRect) : Canvas.Paint :=
  Canvas.PStrokeRect Canvas.identity [] "rgba(0,0,0,0.08)" 6 (slot_rect s).

Definition overlay (frameImg : HTMLImageElement) : Canvas.Paint :=
  Canvas.PDrawImage Canvas.identity [] (Canvas.ImageSource frameImg)
    whole_canvas.

Definition shot_paints (s : SlotRect) (img : HTMLImageElement)
  : list Canvas.Paint :=
  [clipped_draw s img; border s].

(** What [composeFinalPNG] paints, in order. *)
Definition composite_paints (slots : list SlotRect)
           (imgs : list HTMLImageElement) (frameImg : HTMLImageElement)
  : list Canvas.Paint :=
  background :: concat (zip_with shot_paints slots imgs)
             ++ [overlay frameImg].

(** What the specification says it paints: the background, each shot
    clipped into its slot, the frame. *)
Definition claimed_paints (slots : list SlotRect)
           (imgs : list HTMLImageElement) (frameImg : HTMLImageElement)
  : list Canvas.Paint :=
  background :: zip_with clipped_draw slots imgs ++ [overlay frameImg].

(** A frame configuration the page passes to [composeFinalPNG]: both
    calls hand it a result of [getFrameConfig]. *)
Definition offered (frame : FrameConfig) : Prop :=
  exists frameId : FrameId, getFrameConfig frameId = Some frame.

(** The element that decoding blob [b] resolves with, if it decodes. *)
Definition decoded (P : Platform) (b : Blob) : option HTMLImageElement :=
  match load P (ObjectUrl b) with
  | Some (w, h) =>
      Some {| img_src := ObjectUrl b; img_width := w; img_height := h |}
  | None => None
  end.

(** The centre of canvas pixel [(col, row)]. *)
Definition centre (col row : Z) : Q * Q :=
  (inject_Z col + 1 / 2, inject_Z row + 1 / 2)%Q.

(** A slot, in pixels, that lies on the 1200 by 1800 canvas. *)
Definition in_canvas (s : SlotRect) : bool :=
  Qle_bool 0 (slot_x s) && Qle_bool 0 (slot_y s) &&
  Qle_bool (slot_x s + slot_w s) W && Qle_bool (slot_y s + slot_h s) H.

(** Two slots with a vertical or a horizontal line between them. *)
Definition apart (a b : SlotRect) : bool :=
  Qle_bool (slot_x a + slot_w a) (slot_x b) ||
  Qle_bool (slot_x b + slot_w b) (slot_x a) ||
  Qle_bool (slot_y a + slot_h a) (slot_y b) ||
  Qle_bool (slot_y b + slot_h b) (slot_y a).

Fixpoint all_apart (l : list SlotRect) : bool :=
  match l with
  | [] => true
  | a :: rest => forallb (apart a) rest && all_apart rest
  end.

(** A table of slots all on the canvas and any two of them apart. *)
Definition well_laid_out (l : list SlotRect) : bool :=
  forallb in_canvas l && all_apart l.

End Layout.

Module Shooting.

(** The platform calls of one countdown, down to the [0] that hides
    it. *)
Definition countdown_events : list Event :=
  [ShowCountdown 3; Sleep 1000; ShowCountdown 2; Sleep 1000;
   ShowCountdown 1; Sleep 1000; ShowCountdown 0].

(** When shot [i] is taken in a run started at [t0]: after [i + 1]
    countdowns of three seconds and [i] pauses of 400 ms. *)
Definition shot_time (t0 i : Z) : Z := (t0 + 3000 * (i + 1) + 400 * i)%Z.

(** The pause after shot [i]: 400 ms, except after the last. *)
Definition pause_events (i : Z) : list Event :=
  if (i <? 3)%Z then [Sleep 400] else [].

Definition pause_time (i : Z) : Z := if (i <? 3)%Z then 400 else 0.

(** The record the capture page saves. *)
Definition payload (captured : list Blob) (now : Z) : SavedState :=
  {| saved_shots := Some captured; saved_frameId := Some frame1;
     saved_final := None; savedAt := Some now |}.

End Shooting.

Module Mirror.

(** The canvas of [captureFromVideo] after [save], [translate] and
    [scale]. *)
Definition mirrored (video : HTMLVideoElement) : Canvas.Context2D :=
  Canvas.scale (-1) 1
    (Canvas.translate (inject_Z (videoWidth video)) 0
       (Canvas.save
          (Canvas.create (videoWidth video) (videoHeight video)))).

Definition matrix (video : HTMLVideoElement) : Canvas.Matrix :=
  Canvas.ctm (Canvas.gstate (mirrored video)).

(** The one paint of [captureFromVideo]. *)
Definition mirror_paint (video : HTMLVideoElement) : Canvas.Paint :=
  Canvas.PDrawImage (matrix video) [] (Canvas.VideoSource video)
    {| Canvas.rx := 0; Canvas.ry := 0;
       Canvas.rw := inject_Z (videoWidth video);
       Canvas.rh := inject_Z (videoHeight video) |}.

(** The canvas [captureFromVideo] hands to the encoder. *)
Definition snapshot (video : HTMLVideoElement) : Canvas.Context2D :=
  Canvas.restore
    (Canvas.drawImage (Canvas.VideoSource video) 0 0
       (inject_Z (videoWidth video)) (inject_Z (videoHeight video))
       (mirrored video)).

(** What the specification says of the pixels: column [x] of the video
    shows at column [vw - x] of the capture. *)
Definition claimed_columns (video : HTMLVideoElement) : Prop :=
  forall x row : Z,
    (0 <= x < videoWidth video)%Z -> (0 <= row < videoHeight video)%Z ->
    Canvas.sample (mirror_paint video) (videoWidth video - x) row
      = Some (x, row).

(** The promise of [captureFromVideo(video)] and the platform calls it
    makes. *)
Definition capture_result (P : Platform) (video : HTMLVideoElement)
  : Completion Blob :=
  if CapturePage.not_ready (videoWidth video) (videoHeight video)
  then Rejected (Error "Video not ready")
  else if canvas_2d P then encode P (snapshot video)
       else Rejected (Error "Canvas not supported").

Definition capture_events (P : Platform) (video : HTMLVideoElement)
  : list Event :=
  if CapturePage.not_ready (videoWidth video) (videoHeight video) then []
  else if canvas_2d P
       then [CreateCanvas; GetContext; ToBlob (snapshot video)]
       else [CreateCanvas; GetContext].

End Mirror.

Module Attempts.

(** The blobs of the captures that succeeded before the first one that
    failed. *)
Fixpoint taken (rs : list (Completion Blob)) : list Blob :=
  match rs with
  | Resolved b :: rest => b :: taken rest
  | _ => []
  end.

(** What the first capture that failed threw, if one failed. *)
Fixpoint first_failure (rs : list (Completion Blob)) : option JsError :=
  match rs with
  | [] => None
  | Resolved _ :: rest => first_failure rest
  | Rejected e :: _ => Some e
  end.

(** What the four captures of a run started at [t0] give, each on the
    picture the camera shows when it is taken. *)
Definition attempts (P : Platform) (t0 : Z) : list (Completion Blob) :=
  map (fun i => Mirror.capture_result P (camera P (Shooting.shot_time t0 i)))
      [0; 1; 2; 3]%Z.

(** What the page reports after a run: the first failed capture, or else
    the failed write. *)
Definition reported (P : Platform) (rs : list (Completion Blob))
  : option string :=
  match first_failure rs, idb_failure P with
  | Some e, _ | None, Some e => Some (message_or e "Capture failed")
  | None, None => None
  end.

End Attempts.

Module Switching.

Import CapturePage.

(** The camera after a call of [startCamera] from [c], given the values
    the call left in [cameraOn], [error], [streamRef] and the video
    element's [srcObject], [muted] and [playsInline]. *)
Definition started (c : Camera) (on : bool) (err : option string)
           (ref src : option MediaStream) (attrs : bool * bool) : Camera :=
  {| page := setCameraOn on (setError err (page c));
     streamRef := ref; srcObject := src;
     muted := fst attrs; playsInline := snd attrs;
     requests := S (requests c); stopped := stopped c |}.

End Switching.


Module Stored.

Import ResultPage.

Definition no_data : string :=
  "No capturing data found. Please take 4 photos on the capturing page first.".

Definition with_final (cached : option Blob) (d : SavedState) : SavedState :=
  {| saved_shots := saved_shots d; saved_frameId := saved_frameId d;
     saved_final := cached; savedAt := savedAt d |}.

Definition view (st : State)
  : option string * list Blob * FrameId * option Blob * option Z :=
  (error st, shots st, frameId st, finalBlob st, loadedAt st).

Definition record (shots : list Blob) (f : FrameId) (final : option Blob)
           (now : Z) : SavedState :=
  {| saved_shots := Some shots; saved_frameId := Some f;
     saved_final := final; savedAt := Some now |}.

(** A record that is all there: four shots, a frame, a time. *)
Definition complete (r : SavedState) : bool :=
  match saved_shots r, saved_frameId r, savedAt r with
  | Some sh, Some _, Some _ => (length sh =? 4)%nat
  | _, _, _ => false
  end.

(** An IndexedDB call, if [e] is one, addresses key [k], and what it
    writes is complete. *)
Definition on_key (k : string) (e : Event) : bool :=
  match e with
  | IdbGet k' | IdbDel k' => String.eqb k' k
  | IdbSet k' r => String.eqb k' k && complete r
  | _ => true
  end.

(** What may happen to the store: nothing, the record under [k] is
    deleted, or a complete record is put under [k] whatever was there. *)
Definition store_step (k : string) (s s' : gmap string SavedState) : Prop :=
  s' = s \/ s' = delete k s \/
  exists r, complete r = true /\ s' = <[k := r]> s.

Definition tidy (k : string) (w w' : World) : Prop :=
  exists evs, log w' = log w ++ evs /\
              forallb (on_key k) evs = true /\
              store_step k (store w) (store w').

(** One persistence operation of either page, from any state of the
    page, takes the world from [w] to [w']. *)
Inductive persists (P : Platform) : World -> World -> Prop :=
| by_shooting (st : CapturePage.State) :
    persists P (CapturePage.world st)
      (CapturePage.world
         (snd (CapturePage.shoot4WithPerShotCountdown P st)))
| by_mount (st : ResultPage.State) :
    persists P (ResultPage.world st)
      (ResultPage.world (snd (ResultPage.mount P st)))
| by_frame_effect (st : ResultPage.State) :
    persists P (ResultPage.world st)
      (ResultPage.world (snd (ResultPage.frame_effect P st)))
| by_select_frame (f : FrameId) (st : ResultPage.State) :
    persists P (ResultPage.world st)
      (ResultPage.world (snd (ResultPage.select_frame P f st)))
| by_saveToDB (st : ResultPage.State) :
    persists P (ResultPage.world st)
      (ResultPage.world (snd (ResultPage.saveToDB P st)))
| by_clearDB (st : ResultPage.State) :
    persists P (ResultPage.world st)
      (ResultPage.world (snd (ResultPage.clearDB P st))).

End Stored.

(* ===================================================================== *)
(** * Properties *)
(* ===================================================================== *)

(** ** The frame table *)

Section Frames.

Import ResultPage Layout.

(** C10.  [getFrameConfig] is total on [FrameId]: for each of the four
    identifiers the search in [FRAMES] succeeds, [getFrameConfig]
    returns the entry found, that entry carries the identifier, and it is
    the only entry of [FRAMES] that does; the fallback [FRAMES[0]] is
    never taken. *)
Theorem getFrameConfig_total (frameId : FrameId) :
  exists f : FrameConfig,
    find (fun g => bool_decide (frame_id g = frameId)) FRAMES = Some f /\
    getFrameConfig frameId = Some f /\
    frame_id f = frameId /\
    List.filter (fun g => bool_decide (frame_id g = frameId)) FRAMES = [f].
Proof.
  destruct frameId; eexists; repeat split; reflexivity.
Qed.

(** C4, as amended.  The page offers exactly four fixed configurations,
    [frame1] to [frame4].  Two of them, [frame1] and [frame3], carry no
    table and are laid out with the shared [DEFAULT_SLOTS]; the other
    two, [frame2] and [frame4], carry their own.  The three tables in
    use are pairwise distinct, also in canvas pixels, and every
    configuration has four slots of positive size to draw into: none is
    a plain overlay. *)
Theorem four_fixed_layouts :
  map frame_id FRAMES = [frame1; frame2; frame3; frame4] /\
  map frame_id (List.filter (fun f => negb (has_table f)) FRAMES)
    = [frame1; frame3] /\
  map frame_id (List.filter has_table FRAMES) = [frame2; frame4] /\
  (forall f, In f FRAMES -> has_table f = false ->
             slots_of f = DEFAULT_SLOTS) /\
  (forall f, In f FRAMES ->
     length (slots_of f) = 4%nat /\
     Forall (fun s => (0 < slot_w (to_pixels s))%Q /\
                      (0 < slot_h (to_pixels s))%Q) (slots_of f)) /\
  (forall f g, In f FRAMES -> In g FRAMES -> has_table f = true ->
     map to_pixels (slots_of f) = map to_pixels (slots_of g) ->
     f = g).
Proof.
  split; [reflexivity|]. split; [reflexivity|]. split; [reflexivity|].
  split; [|split].
  - intros f Hf Ht. simpl in Hf.
    destruct Hf as [<-|[<-|[<-|[<-|[]]]]]; try reflexivity; discriminate.
  - intros f Hf. simpl in Hf.
    destruct Hf as [<-|[<-|[<-|[<-|[]]]]];
      (split; [reflexivity|]);
      repeat constructor.
  - intros f g Hf Hg Ht E. simpl in Hf, Hg.
    destruct Hf as [<-|[<-|[<-|[<-|[]]]]]; try discriminate Ht;
      destruct Hg as [<-|[<-|[<-|[<-|[]]]]]; try reflexivity;
      vm_compute in E; discriminate E.
Qed.

(** C4, as the specification words it: one configuration is set apart
    as the plain overlay and each of the other three is a coordinate
    table.  No choice of the one makes this true, since both [frame1]
    and [frame3] lack a table. *)
Lemma not_one_plain_and_three_tables :
  ~ (exists plain, In plain FRAMES /\
       forall g, In g FRAMES -> g <> plain -> has_table g = true).
Proof.
  intros (plain & _ & Hrest).
  assert (H1 : In (nth 0 FRAMES plain) FRAMES) by (simpl; auto).
  assert (H3 : In (nth 2 FRAMES plain) FRAMES) by (simpl; auto 6).
  destruct (decide (frame_id plain = frame1)) as [E|N].
  - specialize (Hrest _ H3).
    assert (D : nth 2 FRAMES plain <> plain)
      by (intros D; rewrite <- D in E; discriminate E).
    specialize (Hrest D). discriminate Hrest.
  - specialize (Hrest _ H1).
    assert (D : nth 0 FRAMES plain <> plain)
      by (intros D; rewrite <- D in N; apply N; reflexivity).
    specialize (Hrest D). discriminate Hrest.
Qed.

End Frames.

(** ** Cover semantics of a slot *)

Section Cover.

Import ResultPage.
Local Open Scope Q_scope.

Lemma scale_of_ge_w (s : SlotRect) (img : HTMLImageElement) :
  slot_w s / inject_Z (img_width img) <= scale_of s img.
Proof. unfold scale_of, Math_max. apply Q.le_max_l. Qed.

Lemma scale_of_ge_h (s : SlotRect) (img : HTMLImageElement) :
  slot_h s / inject_Z (img_height img) <= scale_of s img.
Proof. unfold scale_of, Math_max. apply Q.le_max_r. Qed.

Lemma mult_div_le (n a k : Q) : 0 < n -> a / n <= k -> a <= n * k.
Proof.
  intros Hn Hk.
  assert (E : a == n * (a / n)) by (field; lra).
  rewrite E at 1. apply Qmult_le_l; assumption.
Qed.

Lemma inject_Z_pos (z : Z) : (0 < z)%Z -> 0 < inject_Z z.
Proof.
  intros Hz. change 0 with (inject_Z 0). rewrite <- Zlt_Qlt. exact Hz.
Qed.

Lemma cover_slot (s : SlotRect) (img : HTMLImageElement) :
  (0 < img_width img)%Z -> (0 < img_height img)%Z ->
  0 < slot_w s -> 0 < slot_h s ->
  slot_w s <= drawW s img /\
  slot_h s <= drawH s img /\
  dx s img + drawW s img / 2 == slot_x s + slot_w s / 2 /\
  dy s img + drawH s img / 2 == slot_y s + slot_h s / 2 /\
  dx s img <= slot_x s /\
  slot_x s + slot_w s <= dx s img + drawW s img /\
  dy s img <= slot_y s /\
  slot_y s + slot_h s <= dy s img + drawH s img.
Proof.
  intros Hw Hh Hsw Hsh.
  pose proof (inject_Z_pos _ Hw) as Hw'.
  pose proof (inject_Z_pos _ Hh) as Hh'.
  assert (HW : slot_w s <= drawW s img)
    by (apply mult_div_le; [exact Hw' | apply scale_of_ge_w]).
  assert (HH : slot_h s <= drawH s img)
    by (apply mult_div_le; [exact Hh' | apply scale_of_ge_h]).
  unfold dx, dy, Qdiv. change (/ 2) with (1 # 2).
  split; [exact HW|]. split; [exact HH|].
  split; [lra|]. split; [lra|].
  split; [lra|]. split; [lra|]. split; lra.
Qed.

(** C8, as amended.  Computed exactly, for an image of positive width
    and height and a slot of positive width [w] and height [h], the scale
    [max (w / img.width) (h / img.height)] gives [drawW >= w] and
    [drawH >= h]; the origin [(dx, dy)] puts the centre of the drawn image
    on the centre of the slot; hence the drawn rectangle contains the slot
    on all four sides.  The same holds on the earlier single page, whose
    numbers are those of a slot 480 by 480 at each grid position. *)
Theorem cover (s : SlotRect) (img : HTMLImageElement) :
  (0 < img_width img)%Z -> (0 < img_height img)%Z ->
  0 < slot_w s -> 0 < slot_h s ->
  (scale_of s img =
     Qmax (slot_w s / inject_Z (img_width img))
          (slot_h s / inject_Z (img_height img)) /\
   slot_w s <= drawW s img /\
   slot_h s <= drawH s img /\
   dx s img + drawW s img / 2 == slot_x s + slot_w s / 2 /\
   dy s img + drawH s img / 2 == slot_y s + slot_h s / 2 /\
   dx s img <= slot_x s /\
   slot_x s + slot_w s <= dx s img + drawW s img /\
   dy s img <= slot_y s /\
   slot_y s + slot_h s <= dy s img + drawH s img) /\
  (forall p : Q * Q,
     SinglePage.cellW == 480 /\ SinglePage.cellH == 480 /\
     SinglePage.cellW <= SinglePage.drawW img /\
     SinglePage.cellH <= SinglePage.drawH img /\
     SinglePage.dx p img + SinglePage.drawW img / 2
       == fst p + SinglePage.cellW / 2 /\
     SinglePage.dy p img + SinglePage.drawH img / 2
       == snd p + SinglePage.cellH / 2 /\
     SinglePage.dx p img <= fst p /\
     fst p + SinglePage.cellW <= SinglePage.dx p img + SinglePage.drawW img /\
     SinglePage.dy p img <= snd p /\
     snd p + SinglePage.cellH <= SinglePage.dy p img + SinglePage.drawH img).
Proof.
  intros Hw Hh Hsw Hsh. split.
  - split; [reflexivity|]. apply cover_slot; assumption.
  - intros p. split; [reflexivity|]. split; [reflexivity|].
    apply (cover_slot (SinglePage.cell p) img Hw Hh); reflexivity.
Qed.

Lemma cover_witness :
  slot_w Sample.slot <= drawW Sample.slot (Sample.image 0) /\
  slot_h Sample.slot <= drawH Sample.slot (Sample.image 0).
Proof.
  destruct (cover Sample.slot (Sample.image 0)) as [(_ & HW & HH & _) _];
    [reflexivity | reflexivity | reflexivity | reflexivity |].
  split; [exact HW | exact HH].
Defined.

(** C8 as the specification words it, on the doubles of the platform:
    the first slot of [frame2] is 441 by 438 pixels, and for a 1280 by 720
    shot the drawn height [720 * max (441 / 1280) (438 / 720)] rounds to
    437.99999999999994, which is less than the slot's 438. *)
Lemma cover_fails_in_binary64 :
  (map (fun s => (slot_w (to_pixels s), slot_h (to_pixels s)))
       (take 1 (slots_of Sample.frame2_config))
   = [(441, 438)]) /\
  PrimFloat.ltb (Binary64.drawH 441 438 1280 720) 438 = true /\
  PrimFloat.leb 441 (Binary64.drawW 441 438 1280 720) = true.
Proof.
  split; [reflexivity|]. split; vm_compute; reflexivity.
Qed.

End Cover.

(** ** Browser code leaves the store and the clock alone *)

Section Uniform.

Lemma after_nil w : after w [] = w.
Proof. destruct w. unfold after. cbn. rewrite app_nil_r. reflexivity. Qed.

Lemma after_after w l k : after (after w l) k = after w (l ++ k).
Proof. unfold after. cbn. rewrite app_assoc. reflexivity. Qed.

Lemma emit_after w e : emit e w = after w [e].
Proof. reflexivity. Qed.

Lemma events_since_after w evs : events_since w (after w evs) = evs.
Proof. unfold events_since, after. cbn. apply drop_app_length. Qed.

Lemma uniform_ret {A} (a : A) : uniform (ret a).
Proof.
  exists (Resolved a), []. split; [reflexivity|].
  intros w. rewrite after_nil. reflexivity.
Qed.

Lemma uniform_throw {A} (e : JsError) : uniform (@throw World A e).
Proof.
  exists (Rejected e), []. split; [reflexivity|].
  intros w. rewrite after_nil. reflexivity.
Qed.

Lemma uniform_emit (e : Event) : is_idb e = false -> uniform (modify (emit e)).
Proof.
  intros He. exists (Resolved tt), [e]. split; [cbn; rewrite He; reflexivity|].
  intros w. reflexivity.
Qed.

Lemma uniform_bind {A B} (m : IO A) (k : A -> IO B) :
  uniform m -> (forall a, uniform (k a)) -> uniform (bind m k).
Proof.
  intros (r & evs & Hq & Hm) Hk.
  destruct r as [a|e].
  - destruct (Hk a) as (r' & evs' & Hq' & Hk').
    exists r', (evs ++ evs'). split.
    + rewrite forallb_app, Hq, Hq'. reflexivity.
    + intros w. unfold bind. rewrite Hm, Hk', after_after. reflexivity.
  - exists (Rejected e), evs. split; [exact Hq|].
    intros w. unfold bind. rewrite Hm. reflexivity.
Qed.

Lemma uniform_Promise_all {A} (ps : list (IO A)) :
  Forall uniform ps -> uniform (Promise_all ps).
Proof.
  induction 1 as [|p ps (r & evs & Hq & Hp) _ (rs & evs' & Hq' & Hps)].
  - exists (Resolved []), []. split; [reflexivity|].
    intros w. rewrite after_nil. reflexivity.
  - eexists _, (evs ++ evs'). split.
    + rewrite forallb_app, Hq, Hq'. reflexivity.
    + intros w. cbn. rewrite Hp, Hps, after_after. reflexivity.
Qed.

Lemma quiet_on_key (k : string) (evs : list Event) :
  forallb (fun e => negb (is_idb e)) evs = true ->
  forallb (Stored.on_key k) evs = true.
Proof.
  rewrite !forallb_forall. intros Hq e He. specialize (Hq e He).
  destruct e; try reflexivity; discriminate Hq.
Qed.

Lemma on_key_set (k : string) (r : SavedState) :
  Stored.complete r = true -> forallb (Stored.on_key k) [IdbSet k r] = true.
Proof.
  intros Hc. cbn [forallb Stored.on_key]. rewrite String.eqb_refl, Hc. reflexivity.
Qed.

Lemma tidy_refl (k : string) (w : World) : Stored.tidy k w w.
Proof.
  exists []. rewrite app_nil_r. repeat split. left. reflexivity.
Qed.

Lemma tidy_after (k : string) (w : World) (evs : list Event) :
  forallb (Stored.on_key k) evs = true -> Stored.tidy k w (after w evs).
Proof.
  intros H. exists evs. repeat split; [exact H|]. left. reflexivity.
Qed.

Variable P : Platform.

Lemma uniform_loadImage src : uniform (loadImage P src).
Proof.
  unfold loadImage. apply uniform_bind.
  - apply uniform_emit. reflexivity.
  - intros _. destruct (load P src) as [[w h]|].
    + apply uniform_ret.
    + apply uniform_throw.
Qed.

Lemma uniform_toBlob cv : uniform (toBlob P cv).
Proof.
  unfold toBlob. apply uniform_bind.
  - apply uniform_emit. reflexivity.
  - intros _. destruct (png P cv); [apply uniform_ret | apply uniform_throw].
Qed.

Lemma uniform_createCanvas w h : uniform (createCanvas w h).
Proof.
  unfold createCanvas. apply uniform_bind.
  - apply uniform_emit. reflexivity.
  - intros _. apply uniform_ret.
Qed.

Lemma uniform_getContext cv : uniform (getContext P cv).
Proof.
  unfold getContext. apply uniform_bind.
  - apply uniform_emit. reflexivity.
  - intros _. apply uniform_ret.
Qed.

Lemma uniform_composeFinalPNG shots frame :
  uniform (ResultPage.composeFinalPNG P shots frame).
Proof.
  unfold ResultPage.composeFinalPNG.
  destruct (negb (length shots =? 4)%nat); [apply uniform_throw|].
  apply uniform_bind; [apply uniform_createCanvas|]. intros canvas.
  apply uniform_bind; [apply uniform_getContext|]. intros [ctx|].
  2: apply uniform_throw.
  apply uniform_bind.
  - apply uniform_Promise_all. apply List.Forall_forall. intros p Hp.
    apply in_map_iff in Hp. destruct Hp as (b & <- & _).
    apply uniform_loadImage.
  - intros shotImgs.
    destruct (forEach _ shotImgs 0%nat _); [|apply uniform_throw].
    apply uniform_bind; [apply uniform_loadImage|]. intros frameImg.
    apply uniform_toBlob.
Qed.

Lemma uniform_compose shots frame :
  uniform (ResultPage.compose P shots frame).
Proof.
  unfold ResultPage.compose. destruct frame as [f|].
  - apply uniform_composeFinalPNG.
  - destruct (negb (length shots =? 4)%nat); apply uniform_throw.
Qed.

(** [captureFromVideo] in full. *)
Lemma captureFromVideo_run video w :
  CapturePage.captureFromVideo P video w =
    (Mirror.capture_result P video, after w (Mirror.capture_events P video)).
Proof.
  unfold CapturePage.captureFromVideo, Mirror.capture_result,
    Mirror.capture_events.
  destruct (CapturePage.not_ready _ _).
  { unfold throw. rewrite after_nil. reflexivity. }
  unfold createCanvas, getContext, toBlob, bind, modify, ret, throw.
  rewrite !emit_after, !after_after.
  destruct (canvas_2d P); [|reflexivity].
  unfold encode, Mirror.snapshot, Mirror.mirrored.
  destruct (png P _); rewrite ?emit_after, ?after_after; reflexivity.
Qed.

End Uniform.

(** ** Composition of the final image *)

Section Compose.

Import ResultPage Layout.

Variable P : Platform.

Lemma loadImage_loads (src : ImageSrc) (img : HTMLImageElement) (w : World) :
  loads P src img ->
  loadImage P src w = (Resolved img, after w [LoadImage src]).
Proof.
  intros [Hl Hs]. unfold loadImage, bind, modify, ret. rewrite Hl.
  destruct img; simpl in *; subst; reflexivity.
Qed.

Lemma loadImage_some (src : ImageSrc) (d : Z * Z) (w : World) :
  load P src = Some d ->
  loadImage P src w =
    (Resolved {| img_src := src; img_width := fst d; img_height := snd d |},
     after w [LoadImage src]).
Proof.
  intros Hl. apply loadImage_loads. split; [|reflexivity].
  rewrite Hl. destruct d; reflexivity.
Qed.

Lemma loadImage_none (src : ImageSrc) (w : World) :
  load P src = None ->
  loadImage P src w = (Rejected ErrorEvent, after w [LoadImage src]).
Proof.
  intros Hl. unfold loadImage, bind, modify, ret. rewrite Hl. reflexivity.
Qed.

(** What [composeFinalPNG] paints, for any table of at least four
    slots. *)
Lemma draws_into_slots
        (shots : list Blob) (frame : FrameConfig) (w : World)
        (imgs : list HTMLImageElement) (frameImg : HTMLImageElement) :
  length shots = 4%nat ->
  canvas_2d P = true ->
  Forall2 (fun b img => loads P (ObjectUrl b) img) shots imgs ->
  Forall (fun img => (0 < img_width img)%Z /\ (0 < img_height img)%Z)
         imgs ->
  (4 <= length (slots_of frame))%nat ->
  loads P (Url (frame_src frame)) frameImg ->
  exists cv : Canvas.Context2D,
    composeFinalPNG P shots frame w =
      (encode P cv,
       after w ([CreateCanvas; GetContext] ++
                map (fun b => LoadImage (ObjectUrl b)) shots ++
                [LoadImage (Url (frame_src frame)); ToBlob cv])) /\
    Canvas.canvas_width cv = 1200%Z /\
    Canvas.canvas_height cv = 1800%Z /\
    Canvas.display cv =
      composite_paints (map to_pixels (slots_of frame)) imgs frameImg.
Proof.
  intros Hlen Hctx Himgs _ Hslots Hframe.
  destruct shots as [|b0 [|b1 [|b2 [|b3 [|]]]]]; try discriminate Hlen.
  inversion Himgs as [|? i0 ? ? H0 Himgs1]; subst.
  inversion Himgs1 as [|? i1 ? ? H1 Himgs2]; subst.
  inversion Himgs2 as [|? i2 ? ? H2 Himgs3]; subst.
  inversion Himgs3 as [|? i3 ? ? H3 Himgs4]; subst.
  inversion Himgs4; subst.
  destruct (slots_of frame) as [|s0 [|s1 [|s2 [|s3 rest]]]] eqn:Es;
    try (simpl in Hslots; lia).
  unfold composeFinalPNG. rewrite Es.
  cbn [length Nat.eqb negb].
  unfold bind at 1. unfold createCanvas at 1.
  unfold bind at 1. unfold modify, ret at 1.
  unfold bind at 1. unfold getContext.
  unfold bind at 1. unfold modify, ret at 1. rewrite Hctx.
  unfold bind at 1. cbn [map Promise_all]. unfold blobToImage.
  rewrite (loadImage_loads _ _ _ H0), (loadImage_loads _ _ _ H1),
    (loadImage_loads _ _ _ H2), (loadImage_loads _ _ _ H3).
  cbn [forEach draw_shot map lookup list_lookup].
  unfold bind at 1. rewrite (loadImage_loads _ _ _ Hframe).
  unfold toBlob, bind, modify.
  match goal with |- context [png P ?c] => exists c end.
  split.
  - unfold encode.
    match goal with |- context [png P ?c] => destruct (png P c) end;
      unfold ret, throw, emit, after; cbn; rewrite <- ?app_assoc;
      reflexivity.
  - repeat split. cbn. destruct (map to_pixels rest); reflexivity.
Qed.

Lemma offered_four_slots (frame : FrameConfig) :
  offered frame -> length (slots_of frame) = 4%nat.
Proof. intros ([] & [= <-]); reflexivity. Qed.

(** C1, as amended.  Given exactly four shots that decode to images of
    positive size, a frame configuration that the page passes (a result
    of [getFrameConfig]), a 2D context and a frame image that loads,
    [composeFinalPNG] resolves or rejects as the PNG encoder does on a
    1200 by 1800 canvas painted, in order, with: the white background;
    for each shot [i], the shot scaled to cover slot [i] and clipped to
    it, followed by the outline of slot [i] in [rgba(0,0,0,0.08)], six
    pixels wide and not clipped; the frame image over the whole canvas.
    Slot [i] is entry [i] of the frame's table, or of the default table
    when the frame has none, with each coordinate scaled by 1200 or 1800
    and rounded; there are four of them. *)
Theorem composeFinalPNG_draws
        (shots : list Blob) (frame : FrameConfig) (w : World)
        (imgs : list HTMLImageElement) (frameImg : HTMLImageElement) :
  length shots = 4%nat ->
  offered frame ->
  canvas_2d P = true ->
  Forall2 (fun b img => loads P (ObjectUrl b) img) shots imgs ->
  Forall (fun img => (0 < img_width img)%Z /\ (0 < img_height img)%Z)
         imgs ->
  loads P (Url (frame_src frame)) frameImg ->
  exists cv : Canvas.Context2D,
    composeFinalPNG P shots frame w =
      (encode P cv,
       after w ([CreateCanvas; GetContext] ++
                map (fun b => LoadImage (ObjectUrl b)) shots ++
                [LoadImage (Url (frame_src frame)); ToBlob cv])) /\
    Canvas.canvas_width cv = 1200%Z /\
    Canvas.canvas_height cv = 1800%Z /\
    Canvas.display cv =
      composite_paints (map to_pixels (slots_of frame)) imgs frameImg /\
    length (map to_pixels (slots_of frame)) = 4%nat.
Proof.
  intros Hlen Hoff Hctx Himgs Hpos Hframe.
  pose proof (offered_four_slots _ Hoff) as Hslots.
  destruct (draws_into_slots shots frame w imgs frameImg Hlen Hctx
              Himgs Hpos) as (cv & H1 & H2 & H3 & H4);
    [lia | exact Hframe |].
  exists cv. repeat split; try assumption.
  rewrite length_map. exact Hslots.
Qed.

Lemma result_page_rejects_iff
        (shots : list Blob) (frame : FrameConfig) (w : World) :
  (is_resolved (fst (composeFinalPNG P shots frame w)) = false <->
     length shots <> 4%nat \/
     canvas_2d P = false \/
     (exists b, In b shots /\ load P (ObjectUrl b) = None) \/
     (length (slots_of frame) < 4)%nat \/
     load P (Url (frame_src frame)) = None \/
     (exists cv,
        In (ToBlob cv)
           (events_since w (snd (composeFinalPNG P shots frame w))) /\
        png P cv = None)) /\
  (length shots <> 4%nat ->
     composeFinalPNG P shots frame w =
       (Rejected (Error "Need exactly 4 shots"), w)) /\
  (In frame FRAMES -> length (slots_of frame) = 4%nat).
Proof.
  assert (Hneq : length shots <> 4%nat ->
     composeFinalPNG P shots frame w =
       (Rejected (Error "Need exactly 4 shots"), w)).
  { intros Hlen. unfold composeFinalPNG.
    apply Nat.eqb_neq in Hlen. rewrite Hlen. reflexivity. }
  split; [|split; [exact Hneq|]].
  2:{ intros Hin. simpl in Hin.
      destruct Hin as [<-|[<-|[<-|[<-|[]]]]]; reflexivity. }
  destruct (decide (length shots = 4%nat)) as [Hlen|Hlen].
  2:{ rewrite (Hneq Hlen). cbn. split; auto. }
  destruct shots as [|b0 [|b1 [|b2 [|b3 [|]]]]]; try discriminate Hlen.
  clear Hneq Hlen.
  remember (composeFinalPNG P [b0; b1; b2; b3] frame w) as r eqn:Er.
  unfold composeFinalPNG in Er.
  cbn [length Nat.eqb negb] in Er.
  unfold bind at 1 in Er. unfold createCanvas at 1 in Er.
  unfold bind at 1 in Er. unfold modify, ret at 1 in Er.
  unfold bind at 1 in Er. unfold getContext in Er.
  unfold bind at 1 in Er. unfold modify, ret at 1 in Er.
  rewrite !emit_after, after_after in Er.
  destruct (canvas_2d P) eqn:Hctx.
  2:{ subst r. cbn. split; auto. }
  unfold bind at 1 in Er. cbn [map Promise_all] in Er.
  unfold blobToImage in Er.
  destruct (load P (ObjectUrl b0)) as [d0|] eqn:E0;
    [rewrite (loadImage_some _ _ _ E0) in Er
    | rewrite (loadImage_none _ _ E0) in Er];
  (destruct (load P (ObjectUrl b1)) as [d1|] eqn:E1;
    [rewrite (loadImage_some _ _ _ E1) in Er
    | rewrite (loadImage_none _ _ E1) in Er]);
  (destruct (load P (ObjectUrl b2)) as [d2|] eqn:E2;
    [rewrite (loadImage_some _ _ _ E2) in Er
    | rewrite (loadImage_none _ _ E2) in Er]);
  (destruct (load P (ObjectUrl b3)) as [d3|] eqn:E3;
    [rewrite (loadImage_some _ _ _ E3) in Er
    | rewrite (loadImage_none _ _ E3) in Er]);
  rewrite !after_after in Er;
  try (subst r; cbn; split;
       [intros _; right; right; left; eauto 10 | reflexivity]).
  destruct (slots_of frame) as [|s0 [|s1 [|s2 [|s3 rest]]]] eqn:Es;
    cbn [forEach draw_shot map lookup list_lookup] in Er;
    try (subst r; cbn; split;
         [intros _; do 3 right; left; lia | reflexivity]).
  unfold bind at 1 in Er.
  destruct (load P (Url (frame_src frame))) as [d|] eqn:Ef;
    [rewrite (loadImage_some _ _ _ Ef) in Er
    | rewrite (loadImage_none _ _ Ef) in Er];
    rewrite ?after_after in Er.
  2:{ subst r; cbn; split;
      [intros _; do 4 right; left; reflexivity | reflexivity]. }
  unfold toBlob, bind, modify in Er. rewrite emit_after, after_after in Er.
  match type of Er with context [png P ?c] =>
    remember c as cv0 eqn:Ecv; clear Ecv;
    destruct (png P cv0) as [b|] eqn:Epng end; subst r;
    unfold ret, throw; cbn [fst snd is_resolved];
    rewrite events_since_after.
  - split; [discriminate|].
    intros [H|[H|[(b' & Hin & Hb')|[H|[H|(cv & Hin & Hcv)]]]]];
      try congruence; try (cbn in H; lia).
    + cbn in Hin. destruct Hin as [<-|[<-|[<-|[<-|[]]]]]; congruence.
    + cbn in Hin.
      repeat (destruct Hin as [Hin|Hin]; try discriminate Hin).
      * injection Hin as <-. congruence.
      * destruct Hin.
  - split; [|reflexivity]. intros _. do 5 right.
    eexists. split; [|exact Epng]. cbn. auto 10.
Qed.


Lemma single_page_rejects_iff
        (shots : list Blob) (frameSrc : string) (w : World) :
  (is_resolved (fst (SinglePage.composeFinalPNG P shots frameSrc w)) = false
   <->
     length shots <> 4%nat \/
     canvas_2d P = false \/
     (exists b, In b shots /\ load P (ObjectUrl b) = None) \/
     load P (Url frameSrc) = None \/
     (exists cv,
        In (ToBlob cv)
           (events_since w
              (snd (SinglePage.composeFinalPNG P shots frameSrc w))) /\
        png P cv = None)) /\
  (length shots <> 4%nat ->
     SinglePage.composeFinalPNG P shots frameSrc w =
       (Rejected (Error "Need exactly 4 shots"), w)).
Proof.
  assert (Hneq : length shots <> 4%nat ->
     SinglePage.composeFinalPNG P shots frameSrc w =
       (Rejected (Error "Need exactly 4 shots"), w)).
  { intros Hlen. unfold SinglePage.composeFinalPNG.
    apply Nat.eqb_neq in Hlen. rewrite Hlen. reflexivity. }
  split; [|exact Hneq].
  destruct (decide (length shots = 4%nat)) as [Hlen|Hlen].
  2:{ rewrite (Hneq Hlen). cbn. split; auto. }
  destruct shots as [|b0 [|b1 [|b2 [|b3 [|]]]]]; try discriminate Hlen.
  clear Hneq Hlen.
  remember (SinglePage.composeFinalPNG P [b0; b1; b2; b3] frameSrc w)
    as r eqn:Er.
  unfold SinglePage.composeFinalPNG in Er.
  cbn [length Nat.eqb negb] in Er.
  unfold bind at 1 in Er. unfold createCanvas at 1 in Er.
  unfold bind at 1 in Er. unfold modify, ret at 1 in Er.
  unfold bind at 1 in Er. unfold getContext in Er.
  unfold bind at 1 in Er. unfold modify, ret at 1 in Er.
  rewrite !emit_after, after_after in Er.
  destruct (canvas_2d P) eqn:Hctx.
  2:{ subst r. cbn. split; auto. }
  unfold bind at 1 in Er. cbn [map Promise_all] in Er.
  unfold blobToImage in Er.
  destruct (load P (ObjectUrl b0)) as [d0|] eqn:E0;
    [rewrite (loadImage_some _ _ _ E0) in Er
    | rewrite (loadImage_none _ _ E0) in Er];
  (destruct (load P (ObjectUrl b1)) as [d1|] eqn:E1;
    [rewrite (loadImage_some _ _ _ E1) in Er
    | rewrite (loadImage_none _ _ E1) in Er]);
  (destruct (load P (ObjectUrl b2)) as [d2|] eqn:E2;
    [rewrite (loadImage_some _ _ _ E2) in Er
    | rewrite (loadImage_none _ _ E2) in Er]);
  (destruct (load P (ObjectUrl b3)) as [d3|] eqn:E3;
    [rewrite (loadImage_some _ _ _ E3) in Er
    | rewrite (loadImage_none _ _ E3) in Er]);
  rewrite !after_after in Er;
  try (subst r; cbn; split;
       [intros _; right; right; left; eauto 10 | reflexivity]).
  cbn [forEach SinglePage.draw_shot SinglePage.positions lookup list_lookup]
    in Er.
  unfold bind at 1 in Er.
  destruct (load P (Url frameSrc)) as [d|] eqn:Ef;
    [rewrite (loadImage_some _ _ _ Ef) in Er
    | rewrite (loadImage_none _ _ Ef) in Er];
    rewrite ?after_after in Er.
  2:{ subst r; cbn; split;
      [intros _; do 3 right; left; reflexivity | reflexivity]. }
  unfold toBlob, bind, modify in Er. rewrite emit_after, after_after in Er.
  match type of Er with context [png P ?c] =>
    remember c as cv0 eqn:Ecv; clear Ecv;
    destruct (png P cv0) as [b|] eqn:Epng end; subst r;
    unfold ret, throw; cbn [fst snd is_resolved];
    rewrite events_since_after.
  - split; [discriminate|].
    intros [H|[H|[(b' & Hin & Hb')|[H|(cv & Hin & Hcv)]]]];
      try congruence; try (cbn in H; lia).
    + cbn in Hin. destruct Hin as [<-|[<-|[<-|[<-|[]]]]]; congruence.
    + cbn in Hin.
      repeat (destruct Hin as [Hin|Hin]; try discriminate Hin).
      * injection Hin as <-. congruence.
      * destruct Hin.
  - split; [|reflexivity]. intros _. do 4 right.
    eexists. split; [|exact Epng]. cbn. auto 10.
Qed.

(** C2.  For every frame configuration the page passes (a result of
    [getFrameConfig]), [composeFinalPNG] rejects if and only if the list
    of shots does not have length 4, or the frame image or a shot does
    not load, or the canvas or the encoder is not available: there is no
    2D context, or the encoder returns nothing for the canvas it is
    handed.  The same holds on the earlier single page, for any frame
    URL.  In both, for a list whose length is not 4 the rejection is
    [Error "Need exactly 4 shots"] and the world is untouched: no canvas
    was created. *)
Theorem composeFinalPNG_rejects_iff
        (shots : list Blob) (frame : FrameConfig) (frameSrc : string)
        (w : World) :
  offered frame ->
  ((is_resolved (fst (composeFinalPNG P shots frame w)) = false <->
      length shots <> 4%nat \/
      (load P (Url (frame_src frame)) = None \/
       exists b, In b shots /\ load P (ObjectUrl b) = None) \/
      (canvas_2d P = false \/
       exists cv,
         In (ToBlob cv)
            (events_since w (snd (composeFinalPNG P shots frame w))) /\
         png P cv = None)) /\
   (length shots <> 4%nat ->
      composeFinalPNG P shots frame w =
        (Rejected (Error "Need exactly 4 shots"), w))) /\
  ((is_resolved (fst (SinglePage.composeFinalPNG P shots frameSrc w)) = false
    <->
      length shots <> 4%nat \/
      (load P (Url frameSrc) = None \/
       exists b, In b shots /\ load P (ObjectUrl b) = None) \/
      (canvas_2d P = false \/
       exists cv,
         In (ToBlob cv)
            (events_since w
               (snd (SinglePage.composeFinalPNG P shots frameSrc w))) /\
         png P cv = None)) /\
   (length shots <> 4%nat ->
      SinglePage.composeFinalPNG P shots frameSrc w =
        (Rejected (Error "Need exactly 4 shots"), w))).
Proof.
  intros Hoff. pose proof (offered_four_slots _ Hoff) as Hslots.
  destruct (result_page_rejects_iff shots frame w) as (Hiff & Hneq & _).
  destruct (single_page_rejects_iff shots frameSrc w) as (Siff & Sneq).
  split; (split; [|assumption]).
  - rewrite Hiff. split.
    + intros [H|[H|[H|[H|[H|H]]]]]; auto; lia.
    + intros [H|[[H|H]|[H|H]]]; auto 7.
  - rewrite Siff. split.
    + intros [H|[H|[H|[H|H]]]]; auto.
    + intros [H|[[H|H]|[H|H]]]; auto 7.
Qed.

End Compose.

Section ComposeExamples.

Import ResultPage Layout Sample.

Lemma composeFinalPNG_draws_witness :
  exists cv : Canvas.Context2D,
    fst (composeFinalPNG browser four_shots frame2_config empty_world)
      = encode browser cv /\
    Canvas.display cv =
      composite_paints (map to_pixels (slots_of frame2_config))
        images frame_image.
Proof.
  destruct (composeFinalPNG_draws browser four_shots frame2_config
              empty_world images frame_image)
    as (cv & Hrun & _ & _ & Hdisplay & _).
  - reflexivity.
  - exists frame2. reflexivity.
  - reflexivity.
  - repeat constructor.
  - repeat constructor.
  - split; reflexivity.
  - exists cv. rewrite Hrun. split; [reflexivity | exact Hdisplay].
Defined.

(** C1 as the specification words it: with the real [frame2] and a
    browser in which everything works, the canvas that is encoded
    carries ten paints, four of them slot outlines, and is not the
    six-paint composite of the specification. *)
Lemma composeFinalPNG_not_as_claimed :
  (Canvas.display <$>
     encoded (snd (composeFinalPNG browser four_shots frame2_config
                     empty_world)))
    <> Some (claimed_paints (map to_pixels (slots_of frame2_config))
               images frame_image).
Proof.
  intros E. apply (f_equal (fmap (length (A:=Canvas.Paint)))) in E.
  vm_compute in E. discriminate E.
Qed.

Lemma composeFinalPNG_rejects_iff_witness :
  composeFinalPNG browser [shot 0] frame2_config empty_world =
    (Rejected (Error "Need exactly 4 shots"), empty_world).
Proof.
  destruct (composeFinalPNG_rejects_iff browser [shot 0] frame2_config
              "/frames/frame2.png" empty_world) as [(_ & Hneq) _].
  - exists frame2. reflexivity.
  - apply Hneq. cbn. lia.
Defined.

End ComposeExamples.

(** ** The mirrored snapshot *)

Section MirrorProps.

Import CapturePage Mirror.
Local Open Scope Q_scope.

Lemma Qfloor_half (z : Z) (q : Q) : q == inject_Z z + 1 / 2 -> Qfloor q = z.
Proof.
  intros E. rewrite (Qfloor_comp _ _ E).
  apply Z.le_antisymm.
  - apply Z.lt_succ_r. rewrite Zlt_Qlt.
    apply Qle_lt_trans with (inject_Z z + 1 / 2).
    + apply Qfloor_le.
    + unfold Z.succ. rewrite inject_Z_plus.
      unfold Qdiv. change (/ 2) with (1 # 2). change (inject_Z 1) with 1.
      lra.
  - rewrite <- (Qfloor_Z z) at 1. apply Qfloor_resp_le.
    unfold Qdiv. change (/ 2) with (1 # 2). lra.
Qed.

Lemma inside_true (r : Canvas.Rect) (p : Q * Q) :
  Canvas.rx r <= fst p -> fst p < Canvas.rx r + Canvas.rw r ->
  Canvas.ry r <= snd p -> snd p < Canvas.ry r + Canvas.rh r ->
  Canvas.inside r p = true.
Proof.
  destruct p as [x y]. cbn [fst snd]. intros H1 H2 H3 H4.
  unfold Canvas.inside.
  apply Qle_bool_iff in H1. apply Qle_bool_iff in H3.
  rewrite H1, H3.
  destruct (Qle_bool (Canvas.rx r + Canvas.rw r) x) eqn:E2.
  { apply Qle_bool_iff in E2. lra. }
  destruct (Qle_bool (Canvas.ry r + Canvas.rh r) y) eqn:E4.
  { apply Qle_bool_iff in E4. lra. }
  reflexivity.
Qed.

Ltac open_matrix :=
  unfold matrix, Canvas.apply, Canvas.unapply, Canvas.det, mirrored,
    Canvas.scale, Canvas.translate, Canvas.save, Canvas.create,
    Canvas.with_gstate, Canvas.set_ctm, Canvas.initial_gstate,
    Canvas.identity;
  cbn [fst snd Canvas.ctm Canvas.gstate Canvas.ma Canvas.mb Canvas.mc
       Canvas.md Canvas.me Canvas.mf].

(** The matrix in force when the video is drawn sends [x] to
    [vw - x] and keeps [y]. *)
Lemma matrix_apply (video : HTMLVideoElement) (x y : Q) :
  fst (Canvas.apply (matrix video) (x, y))
    == inject_Z (videoWidth video) - x /\
  snd (Canvas.apply (matrix video) (x, y)) == y.
Proof. open_matrix. split; ring. Qed.

Lemma matrix_unapply (video : HTMLVideoElement) (X Y : Q) :
  fst (Canvas.unapply (matrix video) (X, Y))
    == inject_Z (videoWidth video) - X /\
  snd (Canvas.unapply (matrix video) (X, Y)) == Y.
Proof. open_matrix. split; field. Qed.

Lemma mirror_sample (video : HTMLVideoElement) (col row : Z) :
  (0 <= col < videoWidth video)%Z -> (0 <= row < videoHeight video)%Z ->
  Canvas.sample (mirror_paint video) col row =
    Some (videoWidth video - 1 - col, row)%Z.
Proof.
  intros Hc Hr.
  assert (Hw : 0 < inject_Z (videoWidth video))
    by (change 0 with (inject_Z 0); rewrite <- Zlt_Qlt; lia).
  assert (Hh : 0 < inject_Z (videoHeight video))
    by (change 0 with (inject_Z 0); rewrite <- Zlt_Qlt; lia).
  assert (Hc1 : 0 <= inject_Z col)
    by (change 0 with (inject_Z 0); rewrite <- Zle_Qle; lia).
  assert (Hc2 : inject_Z col + 1 <= inject_Z (videoWidth video))
    by (change 1 with (inject_Z 1);
        rewrite <- inject_Z_plus, <- Zle_Qle; lia).
  assert (Hr1 : 0 <= inject_Z row)
    by (change 0 with (inject_Z 0); rewrite <- Zle_Qle; lia).
  assert (Hr2 : inject_Z row + 1 <= inject_Z (videoHeight video))
    by (change 1 with (inject_Z 1);
        rewrite <- inject_Z_plus, <- Zle_Qle; lia).
  unfold mirror_paint, Canvas.sample.
  destruct (matrix_unapply video (inject_Z col + 1 / 2)
              (inject_Z row + 1 / 2)) as [Hu Hv].
  set (u := Canvas.unapply _ _) in *.
  assert (Hdet : Qeq_bool (Canvas.det (matrix video)) 0 = false)
    by reflexivity.
  rewrite Hdet.
  cbn [negb andb forallb Canvas.rx Canvas.ry Canvas.rw Canvas.rh
       Canvas.source_width Canvas.source_height].
  rewrite inside_true;
    cbn [Canvas.rx Canvas.ry Canvas.rw Canvas.rh];
    try (rewrite ?Hu, ?Hv; unfold Qdiv; change (/ 2) with (1 # 2); lra).
  f_equal. f_equal; apply Qfloor_half.
  - rewrite Hu. unfold Z.sub. rewrite !inject_Z_plus, !inject_Z_opp.
    change (inject_Z 1) with 1. field. lra.
  - rewrite Hv. field. lra.
Qed.

(** C6, as amended.  For a video of non-zero width [vw] and height [vh],
    and with a 2D context, [captureFromVideo] draws the current picture
    once, onto a [vw] by [vh] canvas, under the matrix set up by
    [translate(vw, 0)] followed by [scale(-1, 1)], and resolves or
    rejects as the PNG encoder does on that canvas.  The matrix sends
    the horizontal coordinate [x] to [vw - x]; hence pixel column [col]
    of the capture shows pixel column [vw - 1 - col] of the video, in
    the same row. *)
Theorem captureFromVideo_mirrors
        (P : Platform) (video : HTMLVideoElement) (w : World) :
  (0 < videoWidth video)%Z -> (0 < videoHeight video)%Z ->
  canvas_2d P = true ->
  captureFromVideo P video w =
    (encode P (snapshot video),
     after w [CreateCanvas; GetContext; ToBlob (snapshot video)]) /\
  Canvas.canvas_width (snapshot video) = videoWidth video /\
  Canvas.canvas_height (snapshot video) = videoHeight video /\
  Canvas.display (snapshot video) = [mirror_paint video] /\
  (forall x y : Q,
     fst (Canvas.apply (matrix video) (x, y))
       == inject_Z (videoWidth video) - x /\
     snd (Canvas.apply (matrix video) (x, y)) == y) /\
  (forall col row : Z,
     (0 <= col < videoWidth video)%Z -> (0 <= row < videoHeight video)%Z ->
     Canvas.sample (mirror_paint video) col row
       = Some (videoWidth video - 1 - col, row)%Z).
Proof.
  intros Hw Hh Hctx.
  split; [|split; [|split; [|split; [|split]]]].
  - rewrite captureFromVideo_run.
    unfold capture_result, capture_events, not_ready.
    destruct (Z.eqb_spec (videoWidth video) 0) as [E|_]; [lia|].
    destruct (Z.eqb_spec (videoHeight video) 0) as [E|_]; [lia|].
    rewrite Hctx. reflexivity.
  - reflexivity.
  - reflexivity.
  - reflexivity.
  - intros x y. apply matrix_apply.
  - apply mirror_sample.
Qed.

Lemma captureFromVideo_mirrors_witness :
  Canvas.sample (mirror_paint (camera Sample.browser 0)) 0 0
    = Some (1279, 0)%Z.
Proof.
  destruct (captureFromVideo_mirrors Sample.browser
              (camera Sample.browser 0) Sample.empty_world)
    as (_ & _ & _ & _ & _ & Hsample);
    [reflexivity | reflexivity | reflexivity |].
  apply (Hsample 0%Z 0%Z); vm_compute; (split; [discriminate | reflexivity]).
Defined.

(** C6 as the specification words it: on a video two pixels wide and one
    high, column 0 of the video would have to show at column 2 of the
    capture, which has no such column; it shows at column 1. *)
Lemma columns_not_as_claimed :
  ~ claimed_columns (camera Sample.tiny_camera 0).
Proof.
  intros Hclaim.
  assert (H : Canvas.sample (mirror_paint (camera Sample.tiny_camera 0))
                (videoWidth (camera Sample.tiny_camera 0) - 0) 0
              = Some (0, 0)%Z)
    by (apply (Hclaim 0%Z 0%Z); vm_compute;
        (split; [discriminate | reflexivity])).
  vm_compute in H. discriminate H.
Qed.

End MirrorProps.

(** ** The shooting sequence *)

Section Shoot.
Import CapturePage Mirror Shooting.
Variable P : Platform.

Lemma take_shot_run (i : Z) (captured : list Blob) (st : State) :
  take_shot P i captured st =
    let w := world st in
    let video := camera P (clock w + 3000) in
    match capture_result P video with
    | Resolved b =>
        (Resolved (captured ++ [b]),
         {| videoRef := videoRef st; cameraOn := cameraOn st;
            error := error st; isShooting := isShooting st;
            countdown := 0;
            shotIndex := Z.of_nat (length (captured ++ [b]));
            shots := captured ++ [b];
            world :=
              {| store := store w;
                 clock := clock w + 3000 + pause_time i;
                 log := log w ++ countdown_events
                          ++ capture_events P video ++ pause_events i |} |})
    | Rejected e =>
        (Rejected e,
         {| videoRef := videoRef st; cameraOn := cameraOn st;
            error := error st; isShooting := isShooting st;
            countdown := 0; shotIndex := shotIndex st; shots := shots st;
            world :=
              {| store := store w;
                 clock := clock w + 3000;
                 log := log w ++ countdown_events
                          ++ capture_events P video |} |})
    end.
Proof.
  destruct st as [vr co er sh cd si ss [sto clk lg]].
  unfold take_shot, tick.
  cbn [for_]. unfold bind, modify, io, sleep, ret, capture_now, gets.
  cbn -[captureFromVideo Z.add].
  rewrite captureFromVideo_run.
  replace (clk + 1000 + 1000 + 1000)%Z with (clk + 3000)%Z by lia.
  destruct (capture_result P (camera P (clk + 3000))) as [b|e].
  - unfold pause_time, pause_events.
    destruct (i <? 3)%Z;
      cbv [setCountdown setWorld setShots setShotIndex emit advance after
           world store clock log videoRef cameraOn error isShooting
           countdown shotIndex shots countdown_events];
      rewrite <- ?app_assoc; cbn [app];
      replace (clk + 1000 + 1000 + 1000)%Z with (clk + 3000)%Z by lia;
      rewrite ?Z.add_0_r, ?app_nil_r; reflexivity.
  - cbv [setCountdown setWorld setShots setShotIndex emit advance after
         world store clock log videoRef cameraOn error isShooting
         countdown shotIndex shots countdown_events];
    rewrite <- ?app_assoc; cbn [app];
    replace (clk + 1000 + 1000 + 1000)%Z with (clk + 3000)%Z by lia;
    reflexivity.
Qed.

Lemma bind_resolved {S A B} (m : M S A) (k : A -> M S B) s a s' :
  m s = (Resolved a, s') -> bind m k s = k a s'.
Proof. intros E. unfold bind. rewrite E. reflexivity. Qed.

Lemma bind_rejected {S A B} (m : M S A) (k : A -> M S B) s e s' :
  m s = (Rejected e, s') -> bind m k s = (Rejected e, s').
Proof. intros E. unfold bind. rewrite E. reflexivity. Qed.

Lemma capture_events_quiet (video : HTMLVideoElement) :
  forallb (fun e => negb (is_idb e)) (capture_events P video) = true.
Proof.
  unfold capture_events.
  destruct (not_ready _ _); [reflexivity|].
  destruct (canvas_2d P); reflexivity.
Qed.

Lemma quiet_no_set (evs : list Event) (k : string) (r : SavedState) :
  forallb (fun e => negb (is_idb e)) evs = true -> ~ In (IdbSet k r) evs.
Proof.
  intros Hq Hin. rewrite forallb_forall in Hq.
  specialize (Hq _ Hin). discriminate Hq.
Qed.

Lemma events_since_log (sto sto' : gmap string SavedState) (c c' : Z)
      (lg evs : list Event) :
  events_since {| store := sto; clock := c; log := lg |}
               {| store := sto'; clock := c'; log := lg ++ evs |} = evs.
Proof. unfold events_since. cbn. apply drop_app_length. Qed.

Ltac run_shot Er :=
  unfold bind at 1 in Er; rewrite take_shot_run in Er;
  cbv [world store clock log videoRef cameraOn error isShooting
       countdown shotIndex shots] in Er;
  unfold pause_time, pause_events in Er;
  cbn [Z.ltb Z.compare Pos.compare Pos.compare_cont app] in Er;
  rewrite <- ?app_assoc in Er.

(** The run [Er], for a state that passes the three guards, up to the
    loop. *)
Ltac shoot_start Er :=
  unfold shoot4WithPerShotCountdown in Er;
  unfold bind at 1 in Er; unfold modify at 1 in Er;
  unfold bind at 1 in Er; unfold gets at 1 in Er;
  cbn [videoRef setError negb] in Er;
  unfold bind at 1 in Er; unfold gets at 1 in Er;
  cbn [cameraOn setError negb] in Er;
  unfold bind at 1 in Er; unfold gets at 1 in Er;
  cbn [isShooting setError] in Er;
  unfold bind at 1 in Er; unfold modify at 1 in Er;
  unfold bind at 1 in Er; unfold modify at 1 in Er;
  unfold bind at 1 in Er; unfold modify at 1 in Er;
  unfold bind at 1 in Er; unfold try_catch at 1 in Er;
  unfold bind at 1 in Er;
  cbn [for_] in Er;
  cbv [setShotIndex setShots setIsShooting setError world store clock log
       videoRef cameraOn error isShooting countdown shotIndex shots] in Er.

(** The six ways the loop and the write can go: the write fails, all is
    well, or capture 3, 2, 1 or 0 fails. *)
Ltac shoot_cases Er clk :=
  run_shot Er;
  destruct (capture_result P (camera P (clk + 3000))) as [a0|e0] eqn:E0;
  [ cbv beta iota in Er; run_shot Er;
    destruct (capture_result P (camera P (clk + 3000 + 400 + 3000)))
      as [a1|e1] eqn:E1;
    [ cbv beta iota in Er; run_shot Er;
      destruct (capture_result P
                  (camera P (clk + 3000 + 400 + 3000 + 400 + 3000)))
        as [a2|e2] eqn:E2;
      [ cbv beta iota in Er; run_shot Er;
        destruct (capture_result P
                    (camera P (clk + 3000 + 400 + 3000 + 400 + 3000
                               + 400 + 3000)))
          as [a3|e3] eqn:E3;
        [ rewrite Z.add_0_r, app_nil_r in Er;
          cbv [bind ret io Date_now gets idb_set modify setWorld
               setCountdown emit with_store
               world store clock log videoRef cameraOn error isShooting
               countdown shotIndex shots] in Er;
          destruct (idb_failure P) as [e|] eqn:Eidb
        | ]
      | ]
    | ]
  | ];
  cbv [bind ret modify setCountdown emit
       world store clock log videoRef cameraOn error isShooting
       countdown shotIndex shots] in Er.

Ltac quiet :=
  unfold countdown_events;
  repeat (cbn [app forallb is_idb negb andb];
          rewrite ?forallb_app, ?capture_events_quiet);
  reflexivity.

(** A capture failed: nothing was written. *)
Ltac fail_case :=
  split;
  [ intros; congruence
  | intros _; split; [reflexivity|];
    intros k r; rewrite <- ?app_assoc; rewrite events_since_log;
    apply quiet_no_set; quiet ].

(** All four captures succeeded, so none of them failed. *)
Ltac all_taken P :=
  let i := fresh "i" in
  let Hi := fresh "Hi" in
  let Hr := fresh "Hr" in
  intros (i & Hi & Hr); exfalso; cbn in Hi;
  destruct Hi as [<-|[<-|[<-|[<-|[]]]]]; unfold shot_time in Hr;
  cbn [Z.add Z.mul Pos.add Pos.mul Pos.succ] in Hr;
  match type of Hr with
  | context [camera P ?t] =>
      match goal with
      | E : capture_result P (camera P ?t') = Resolved _ |- _ =>
          replace t with t' in Hr by lia; rewrite E in Hr;
          discriminate Hr
      end
  end.

(** C3.  A run of [shoot4WithPerShotCountdown] that gets past its
    guards (video element present, camera on, not already shooting)
    attempts the four captures in order, each after the countdown 3, 2, 1
    shown for one second per number, with a 400 ms pause after each of
    the first three.  If all four captures succeed and IndexedDB works,
    the record written under [DB_KEY] holds the four blobs in capture
    order, [frame1], no final image and the time of the write, and the
    platform calls of the run are exactly the four countdowns and
    captures followed by that write.  If a capture fails, the store is
    left as it was and no write is attempted. *)
Theorem shoot4_takes_four_then_saves (st : State) :
  videoRef st = true -> cameraOn st = true -> isShooting st = false ->
  let t := clock (world st) in
  let v i := camera P (shot_time t i) in
  let st' := snd (shoot4WithPerShotCountdown P st) in
  (forall b0 b1 b2 b3 : Blob,
     idb_failure P = None ->
     capture_result P (v 0%Z) = Resolved b0 ->
     capture_result P (v 1%Z) = Resolved b1 ->
     capture_result P (v 2%Z) = Resolved b2 ->
     capture_result P (v 3%Z) = Resolved b3 ->
     store (world st') =
       <[DB_KEY := payload [b0; b1; b2; b3] (shot_time t 3)]>
         (store (world st)) /\
     shots st' = [b0; b1; b2; b3] /\
     error st' = None /\
     isShooting st' = false /\
     events_since (world st) (world st') =
       countdown_events ++ capture_events P (v 0%Z) ++ [Sleep 400] ++
       countdown_events ++ capture_events P (v 1%Z) ++ [Sleep 400] ++
       countdown_events ++ capture_events P (v 2%Z) ++ [Sleep 400] ++
       countdown_events ++ capture_events P (v 3%Z) ++
       [IdbSet DB_KEY (payload [b0; b1; b2; b3] (shot_time t 3));
        ShowCountdown 0]) /\
  ((exists i, In i [0; 1; 2; 3]%Z /\
              is_resolved (capture_result P (v i)) = false) ->
     store (world st') = store (world st) /\
     forall k r, ~ In (IdbSet k r) (events_since (world st) (world st'))).
Proof.
  intros Hv Hc Hs t v st'.
  destruct st as [vr co er sh cd si ss [sto clk lg]].
  cbn in Hv, Hc, Hs, t. subst vr co sh t.
  assert (T0 : shot_time clk 0 = (clk + 3000)%Z) by (unfold shot_time; lia).
  assert (T1 : shot_time clk 1 = (clk + 3000 + 400 + 3000)%Z)
    by (unfold shot_time; lia).
  assert (T2 : shot_time clk 2 = (clk + 3000 + 400 + 3000 + 400 + 3000)%Z)
    by (unfold shot_time; lia).
  assert (T3 : shot_time clk 3 =
               (clk + 3000 + 400 + 3000 + 400 + 3000 + 400 + 3000)%Z)
    by (unfold shot_time; lia).
  subst v st'. cbv beta. rewrite T0, T1, T2, T3. clear T0 T1 T2 T3.
  remember (shoot4WithPerShotCountdown P _) as run eqn:Er.
  shoot_start Er. shoot_cases Er clk;
    subst run; cbn [snd world store shots error isShooting];
    [> | | fail_case .. ].
  - split; [intros; congruence | all_taken P].
  - split; [|all_taken P].
    intros b0 b1 b2 b3 _ [= <-] [= <-] [= <-] [= <-].
    repeat split.
    rewrite <- !app_assoc. rewrite events_since_log.
    repeat first [rewrite <- !app_assoc | progress cbn [app]].
    reflexivity.
Qed.

Lemma capture_events_on_key (k : string) (video : HTMLVideoElement) :
  forallb (Stored.on_key k) (capture_events P video) = true.
Proof. apply quiet_on_key, capture_events_quiet. Qed.

Ltac on_key :=
  unfold countdown_events;
  repeat (cbn [app forallb andb];
          rewrite ?forallb_app, ?capture_events_on_key);
  reflexivity.

Ltac tidy_case :=
  eexists; split;
  [ cbn [log]; rewrite <- ?app_assoc; reflexivity
  | split; [on_key | left; reflexivity] ].

(** Whatever the state of the page, a click on the shooting button only
    ever writes a complete record under [DB_KEY]. *)
Lemma shoot4_tidy (st : State) :
  Stored.tidy DB_KEY (world st)
    (world (snd (shoot4WithPerShotCountdown P st))).
Proof.
  destruct st as [vr co er sh cd si ss [sto clk lg]].
  destruct vr; [destruct co; [destruct sh|]|];
    try (apply tidy_refl).
  remember (shoot4WithPerShotCountdown P _) as run eqn:Er.
  shoot_start Er. shoot_cases Er clk;
    subst run; cbn [snd world];
    [> tidy_case | | tidy_case .. ].
  eexists. split; [|split].
  - cbn [log]. rewrite <- ?app_assoc. reflexivity.
  - on_key.
  - right. right. eexists. split; [|reflexivity]. reflexivity.
Qed.

(** What a run that got past its guards leaves on the page and in the
    store. *)
Lemma shoot4_outcome (st : State) :
  videoRef st = true -> cameraOn st = true -> isShooting st = false ->
  let t := clock (world st) in
  let rs := Attempts.attempts P t in
  let run := shoot4WithPerShotCountdown P st in
  fst run = Resolved tt /\
  shots (snd run) = Attempts.taken rs /\
  shotIndex (snd run) = Z.of_nat (length (Attempts.taken rs)) /\
  isShooting (snd run) = false /\
  countdown (snd run) = 0%Z /\
  error (snd run) = Attempts.reported P rs /\
  store (world (snd run)) =
    match Attempts.first_failure rs, idb_failure P with
    | None, None =>
        <[DB_KEY := payload (Attempts.taken rs) (shot_time t 3)]>
          (store (world st))
    | _, _ => store (world st)
    end /\
  last (log (world (snd run))) = Some (ShowCountdown 0).
Proof.
  intros Hv Hc Hs t rs run.
  destruct st as [vr co er sh cd si ss [sto clk lg]].
  cbn in Hv, Hc, Hs, t. subst vr co sh t.
  assert (T0 : shot_time clk 0 = (clk + 3000)%Z) by (unfold shot_time; lia).
  assert (T1 : shot_time clk 1 = (clk + 3000 + 400 + 3000)%Z)
    by (unfold shot_time; lia).
  assert (T2 : shot_time clk 2 = (clk + 3000 + 400 + 3000 + 400 + 3000)%Z)
    by (unfold shot_time; lia).
  assert (T3 : shot_time clk 3 =
               (clk + 3000 + 400 + 3000 + 400 + 3000 + 400 + 3000)%Z)
    by (unfold shot_time; lia).
  subst rs. unfold Attempts.attempts, Attempts.reported. cbn [map].
  rewrite T0, T1, T2, T3. clear T0 T1 T2 T3.
  subst run.
  remember (shoot4WithPerShotCountdown P _) as run eqn:Er.
  shoot_start Er. shoot_cases Er clk;
    subst run;
    cbn [fst snd world store shots error isShooting countdown shotIndex log
         Attempts.taken Attempts.first_failure length];
    rewrite ?Eidb;
    (split; [reflexivity|]); (split; [reflexivity|]);
    (split; [reflexivity|]); (split; [reflexivity|]);
    (split; [reflexivity|]); (split; [reflexivity|]);
    (split; [reflexivity|]);
    rewrite ?app_assoc; apply last_snoc.
Qed.

End Shoot.

Section ShootExamples.

Import CapturePage Mirror Shooting Sample.

Lemma shoot4_takes_four_then_saves_witness :
  store (world (snd (shoot4WithPerShotCountdown browser ready)))
    !! DB_KEY
  = Some (payload [snap; snap; snap; snap] 13200).
Proof.
  destruct (shoot4_takes_four_then_saves browser ready
              eq_refl eq_refl eq_refl) as [Hsaved _].
  destruct (Hsaved snap snap snap snap eq_refl eq_refl eq_refl eq_refl
              eq_refl) as [Hstore _].
  rewrite Hstore. apply lookup_insert_eq.
Defined.

End ShootExamples.

(** ** The capture page: refusals, flags, and what is kept *)

Section CaptureProps.

Import CapturePage Mirror Shooting Attempts.
Variable P : Platform.

Lemma taken_length (rs : list (Completion Blob)) :
  length (taken rs) = length rs <-> first_failure rs = None.
Proof.
  induction rs as [|[b|e] rs IH]; cbn.
  - split; reflexivity.
  - rewrite <- IH. split; [intros [= E]; exact E | intros ->; reflexivity].
  - split; discriminate.
Qed.

Lemma attempts_length (t : Z) : length (attempts P t) = 4%nat.
Proof. reflexivity. Qed.

(** X1.  A click on the shooting button that does not get past the guards:
    without a video element, or with the camera off, the page reports
    so; during a run the click is ignored, except that it clears the
    error shown.  In all three cases nothing else on the page changes
    and the browser is not called. *)
Theorem shoot4_refuses (st : State) :
  let st' := snd (shoot4WithPerShotCountdown P st) in
  (videoRef st = false -> st' = setError (Some "No video element") st) /\
  (videoRef st = true -> cameraOn st = false ->
     st' = setError (Some "Camera is off") st) /\
  (videoRef st = true -> cameraOn st = true -> isShooting st = true ->
     st' = setError None st) /\
  (videoRef st && cameraOn st && negb (isShooting st) = false ->
     world st' = world st /\ shots st' = shots st /\
     shotIndex st' = shotIndex st).
Proof.
  destruct st as [vr co er sh cd si ss w]. cbn [videoRef cameraOn isShooting].
  split; [|split; [|split]].
  - intros ->. reflexivity.
  - intros -> ->. reflexivity.
  - intros -> -> ->. reflexivity.
  - destruct vr; [destruct co; [destruct sh|]|]; cbn; intros H;
      try discriminate H; repeat split.
Qed.

(** X2.  Whatever the browser does and whatever the state of the page, the
    promise of a click on the shooting button resolves, and the shooting
    flag is afterwards what it was before: a run that started has also
    ended, with the countdown at 0. *)
Theorem shoot4_settles (st : State) :
  let run := shoot4WithPerShotCountdown P st in
  fst run = Resolved tt /\
  isShooting (snd run) = isShooting st /\
  (videoRef st && cameraOn st && negb (isShooting st) = true ->
     countdown (snd run) = 0%Z /\
     last (log (world (snd run))) = Some (ShowCountdown 0)).
Proof.
  destruct (videoRef st && cameraOn st && negb (isShooting st)) eqn:G.
  - apply andb_prop in G. destruct G as [G Hs].
    apply andb_prop in G. destruct G as [Hv Hc].
    apply negb_true_iff in Hs.
    destruct (shoot4_outcome P st Hv Hc Hs)
      as (Hr & _ & _ & Hsh & Hcd & _ & _ & Hlast).
    cbv zeta. rewrite Hr, Hsh, Hs, Hcd, Hlast. repeat split.
  - cbv zeta. split; [|split; [|discriminate]];
      destruct st as [vr co er sh cd si ss w];
      cbn [videoRef cameraOn isShooting] in G;
      (destruct vr; [destruct co; [destruct sh|]|]); try discriminate G;
      reflexivity.
Qed.

(** X3.  After a run that got past the guards, the page holds the blobs of
    the captures that succeeded before the first that failed, in order,
    and [shotIndex] is their number.  [error] is the message of the
    first failed capture, or else of the failed write, or else empty.
    "Next" is enabled exactly when all four captures succeeded: when
    they did but the write failed, it is enabled although the store
    holds nothing new. *)
Theorem shots_kept_up_to_first_failure (st : State) :
  videoRef st = true -> cameraOn st = true -> isShooting st = false ->
  let rs := attempts P (clock (world st)) in
  let st' := snd (shoot4WithPerShotCountdown P st) in
  shots st' = taken rs /\
  shotIndex st' = Z.of_nat (length (shots st')) /\
  error st' = reported P rs /\
  (canGoNext st' = true <-> first_failure rs = None) /\
  (first_failure rs = None -> idb_failure P <> None ->
     canGoNext st' = true /\
     store (world st') = store (world st) /\
     error st' <> None).
Proof.
  intros Hv Hc Hs rs st'.
  destruct (shoot4_outcome P st Hv Hc Hs)
    as (_ & Hshots & Hidx & Hsh & _ & Herr & Hstore & _).
  fold rs in Hshots, Hidx, Herr, Hstore. fold st' in Hshots, Hidx, Hsh, Herr, Hstore.
  assert (Hnext : canGoNext st' = true <-> first_failure rs = None).
  { unfold canGoNext. rewrite Hsh, Hshots, andb_true_r, Nat.eqb_eq.
    rewrite <- taken_length. subst rs. rewrite attempts_length.
    reflexivity. }
  split; [exact Hshots|]. split; [rewrite Hidx, Hshots; reflexivity|].
  split; [exact Herr|]. split; [exact Hnext|].
  intros Hall Hidb. split; [apply Hnext, Hall|].
  rewrite Hstore, Herr. unfold reported. rewrite Hall.
  destruct (idb_failure P); [|congruence]. split; [reflexivity|discriminate].
Qed.

End CaptureProps.

Section CaptureExamples.

Import CapturePage Attempts Sample.

Lemma shots_kept_up_to_first_failure_witness :
  canGoNext (snd (shoot4WithPerShotCountdown browser ready)) = true.
Proof.
  destruct (shots_kept_up_to_first_failure browser ready
              eq_refl eq_refl eq_refl) as (_ & _ & _ & Hnext & _).
  apply Hnext. reflexivity.
Defined.

End CaptureExamples.

(** ** The result page and the store *)

Section Result.

Import ResultPage Stored.
Variable P : Platform.

Ltac run_page :=
  cbv [bind modify finally try_catch io idb_get idb_set idb_del gets ret
       Date_now
       setError setLoading setShots setFrameId setFinalBlob setLoadedAt
       setSaving setWorld error loading shots frameId finalBlob saving
       loadedAt world].

Lemma mount_run (st : State) :
  idb_failure P = None ->
  mount P st =
    (Resolved tt,
     let w := after (world st) [IdbGet DB_KEY] in
     match four_shots (store (world st) !! DB_KEY) with
     | None =>
         {| error := Some no_data; loading := false; shots := [];
            frameId := frameId st; finalBlob := None; saving := saving st;
            loadedAt := None; world := w |}
     | Some (d, sh) =>
         let fid := default frame1 (saved_frameId d) in
         let run := compose P sh (getFrameConfig fid) w in
         {| error :=
              match fst run with
              | Resolved _ => None
              | Rejected e => Some (message_or e "Load failed")
              end;
            loading := false; shots := sh; frameId := fid;
            finalBlob :=
              match fst run with
              | Resolved b => Some b
              | Rejected _ => finalBlob st
              end;
            saving := saving st; loadedAt := savedAt d;
            world := snd run |}
     end).
Proof.
  intros Hidb. destruct st as [er lo sh fi fb sa la w].
  unfold mount. run_page. rewrite Hidb.
  change (emit (IdbGet DB_KEY) w) with (after w [IdbGet DB_KEY]).
  destruct (four_shots (store w !! DB_KEY)) as [[d s4]|]; [|reflexivity].
  run_page.
  destruct (compose P s4 _ _) as [[b|e] w']; reflexivity.
Qed.

Lemma compose_anywhere (shots : list Blob) (frame : option FrameConfig)
      (w w0 : World) :
  fst (compose P shots frame w) = fst (compose P shots frame w0).
Proof.
  destruct (uniform_compose P shots frame) as (r & evs & _ & Hrun).
  rewrite !Hrun. reflexivity.
Qed.

Lemma four_shots_some (data : option SavedState) (d : SavedState)
      (sh : list Blob) :
  data = Some d -> saved_shots d = Some sh -> length sh = 4%nat ->
  four_shots data = Some (d, sh).
Proof.
  intros -> Hs Hl. unfold four_shots. rewrite Hs.
  apply Nat.eqb_eq in Hl. rewrite Hl. reflexivity.
Qed.

Lemma four_shots_none (data : option SavedState) :
  (data = None \/
   exists d, data = Some d /\
             forall sh, saved_shots d = Some sh -> length sh <> 4%nat) ->
  four_shots data = None.
Proof.
  intros [->|(d & -> & Hd)]; [reflexivity|].
  unfold four_shots. destruct (saved_shots d) as [sh|]; [|reflexivity].
  specialize (Hd sh eq_refl). apply Nat.eqb_neq in Hd. rewrite Hd.
  reflexivity.
Qed.

(** C7.  On mount, with a working IndexedDB, the result page reads the
    record under [DB_KEY].  If there is none, or its shots are absent or
    not exactly four, the page reports the "no capturing data" error and
    is left with no shots and no composite.  Otherwise it adopts the
    stored shots and the stored frame, [frame1] when the record has
    none, and its composite is whatever [composeFinalPNG] makes of the
    stored shots and that frame (nothing, if it fails): the cached final
    image of the record plays no part, and replacing it by any other
    value changes nothing of what the page shows. *)
Theorem mount_reads_the_store (w : World) :
  idb_failure P = None ->
  let st' := snd (mount P (initial w)) in
  ((store w !! DB_KEY = None \/
    exists d, store w !! DB_KEY = Some d /\
              forall sh, saved_shots d = Some sh -> length sh <> 4%nat) ->
     error st' = Some no_data /\ shots st' = [] /\ finalBlob st' = None) /\
  (forall d sh,
     store w !! DB_KEY = Some d -> saved_shots d = Some sh ->
     length sh = 4%nat ->
     shots st' = sh /\
     frameId st' = default frame1 (saved_frameId d) /\
     (forall w0,
        finalBlob st' =
          match fst (compose P sh
                       (getFrameConfig (default frame1 (saved_frameId d)))
                       w0) with
          | Resolved final => Some final
          | Rejected _ => None
          end) /\
     (forall cached,
        view (snd (mount P
                     (initial
                        (with_store
                           (<[DB_KEY := with_final cached d]> (store w))
                           w))))
        = view st')).
Proof.
  intros Hidb st'. subst st'.
  split.
  - intros Hnone. rewrite (mount_run _ Hidb). cbn [snd initial world].
    rewrite (four_shots_none _ Hnone). repeat split.
  - intros d sh Hd Hsh Hlen.
    rewrite !(mount_run _ Hidb). cbn [snd initial world].
    rewrite (four_shots_some _ _ _ Hd Hsh Hlen).
    cbn [shots frameId finalBlob].
    split; [reflexivity|]. split; [reflexivity|]. split.
    + intros w0. rewrite (compose_anywhere _ _ _ w0).
      destruct (fst (compose P sh _ w0)); reflexivity.
    + intros cached. rewrite (mount_run _ Hidb).
      cbn [snd initial world with_store store].
      rewrite lookup_insert_eq.
      rewrite (four_shots_some (Some (with_final cached d))
                 (with_final cached d) sh eq_refl Hsh Hlen).
      unfold view. cbn [error shots frameId finalBlob loadedAt
                        with_final saved_frameId savedAt].
      rewrite (compose_anywhere _ _ _ (after w [IdbGet DB_KEY])).
      reflexivity.
Qed.

Lemma frame_effect_run (st : State) :
  length (shots st) = 4%nat ->
  frame_effect P st =
    (Resolved tt,
     let run := compose P (shots st) (getFrameConfig (frameId st))
                  (world st) in
     match fst run with
     | Rejected e =>
         {| error := Some (message_or e "Compose failed");
            loading := loading st; shots := shots st;
            frameId := frameId st; finalBlob := finalBlob st;
            saving := saving st; loadedAt := loadedAt st;
            world := snd run |}
     | Resolved final =>
         let now := clock (snd run) in
         let payload := record (shots st) (frameId st) (Some final) now in
         match idb_failure P with
         | Some e =>
             {| error := Some (message_or e "Compose failed");
                loading := loading st; shots := shots st;
                frameId := frameId st; finalBlob := Some final;
                saving := saving st; loadedAt := loadedAt st;
                world := after (snd run) [IdbSet DB_KEY payload] |}
         | None =>
             {| error := error st;
                loading := loading st; shots := shots st;
                frameId := frameId st; finalBlob := Some final;
                saving := saving st; loadedAt := Some now;
                world :=
                  with_store (<[DB_KEY := payload]> (store (snd run)))
                    (after (snd run) [IdbSet DB_KEY payload]) |}
         end
     end).
Proof.
  intros Hlen. destruct st as [er lo sh fi fb sa la w].
  cbn [shots] in Hlen. apply Nat.eqb_eq in Hlen.
  unfold frame_effect. run_page. rewrite Hlen. cbn [negb]. run_page.
  destruct (compose P sh _ w) as [[b|e] w']; [|reflexivity].
  cbn [fst snd]. destruct (idb_failure P); reflexivity.
Qed.

Lemma select_frame_run (st : State) (f : FrameId) :
  select_frame P f st =
    if bool_decide (f = frameId st) then (Resolved tt, st)
    else frame_effect P (setFrameId f st).
Proof.
  unfold select_frame, bind, gets, modify, ret.
  destruct (bool_decide (f = frameId st)); reflexivity.
Qed.

(** C9.  With four shots loaded, selecting a frame other than the
    current one recomposes the final image and, when the composition
    succeeds and IndexedDB works, overwrites the record under [DB_KEY]
    with the page's four shots, the new frame, the new final image and
    the time of the write.  The page's shots are unchanged, so the shots
    of a record that held them are unchanged too, and no other key of the
    store is affected. *)
Theorem select_frame_overwrites (st : State) (f : FrameId) (final : Blob) :
  length (shots st) = 4%nat ->
  f <> frameId st ->
  idb_failure P = None ->
  fst (compose P (shots st) (getFrameConfig f) (world st)) = Resolved final ->
  let st' := snd (select_frame P f st) in
  let now := clock (world st) in
  store (world st') =
    <[DB_KEY := record (shots st) f (Some final) now]> (store (world st)) /\
  frameId st' = f /\
  finalBlob st' = Some final /\
  shots st' = shots st /\
  (forall k, k <> DB_KEY ->
             store (world st') !! k = store (world st) !! k) /\
  (forall old,
     store (world st) !! DB_KEY = Some old ->
     saved_shots old = Some (shots st) ->
     exists new, store (world st') !! DB_KEY = Some new /\
                 saved_shots new = saved_shots old).
Proof.
  intros Hlen Hf Hidb Hfinal st' now. subst st' now.
  rewrite select_frame_run.
  rewrite bool_decide_eq_false_2 by exact Hf.
  rewrite frame_effect_run by exact Hlen.
  cbn [snd setFrameId shots frameId world].
  destruct (uniform_compose P (shots st) (getFrameConfig f))
    as (r & evs & _ & Hrun).
  rewrite Hrun in Hfinal |- *. cbn [fst] in Hfinal. subst r.
  cbn [fst snd]. rewrite Hidb.
  cbn [world with_store store after clock frameId finalBlob shots].
  split; [reflexivity|]. split; [reflexivity|]. split; [reflexivity|].
  split; [reflexivity|]. split.
  - intros k Hk. apply lookup_insert_ne. congruence.
  - intros old _ Hold. eexists. split; [apply lookup_insert_eq|].
    symmetry. exact Hold.
Qed.

Lemma saveToDB_run (st : State) :
  length (shots st) = 4%nat ->
  saveToDB P st =
    (Resolved tt,
     let now := clock (world st) in
     let payload := record (shots st) (frameId st) (finalBlob st) now in
     match idb_failure P with
     | Some e =>
         {| error := Some (message_or e "Save failed");
            loading := loading st; shots := shots st;
            frameId := frameId st; finalBlob := finalBlob st;
            saving := false; loadedAt := loadedAt st;
            world := after (world st) [IdbSet DB_KEY payload] |}
     | None =>
         {| error := None;
            loading := loading st; shots := shots st;
            frameId := frameId st; finalBlob := finalBlob st;
            saving := false; loadedAt := Some now;
            world :=
              with_store (<[DB_KEY := payload]> (store (world st)))
                (after (world st) [IdbSet DB_KEY payload]) |}
     end).
Proof.
  intros Hlen. destruct st as [er lo sh fi fb sa la w].
  cbn [shots] in Hlen. apply Nat.eqb_eq in Hlen.
  unfold saveToDB. run_page. rewrite Hlen. cbn [negb]. run_page.
  destruct (idb_failure P); reflexivity.
Qed.

Lemma saveToDB_refuses (st : State) :
  length (shots st) <> 4%nat ->
  world (snd (saveToDB P st)) = world st.
Proof.
  intros Hlen. destruct st as [er lo sh fi fb sa la w].
  cbn [shots] in Hlen. apply Nat.eqb_neq in Hlen.
  unfold saveToDB. run_page. rewrite Hlen. reflexivity.
Qed.

Lemma frame_effect_skips (st : State) :
  length (shots st) <> 4%nat ->
  frame_effect P st = (Resolved tt, st).
Proof.
  intros Hlen. destruct st as [er lo sh fi fb sa la w].
  cbn [shots] in Hlen. apply Nat.eqb_neq in Hlen.
  unfold frame_effect. run_page. rewrite Hlen. reflexivity.
Qed.

Lemma clearDB_run (st : State) :
  world (snd (clearDB P st)) =
    match idb_failure P with
    | Some e => after (world st) [IdbDel DB_KEY]
    | None =>
        with_store (delete DB_KEY (store (world st)))
          (after (world st) [IdbDel DB_KEY])
    end.
Proof.
  destruct st as [er lo sh fi fb sa la w].
  unfold clearDB. run_page.
  destruct (idb_failure P); reflexivity.
Qed.
Lemma mount_fails (st : State) (e : JsError) :
  idb_failure P = Some e ->
  mount P st =
    (Resolved tt,
     {| error := Some (message_or e "Load failed"); loading := false;
        shots := shots st; frameId := frameId st;
        finalBlob := finalBlob st; saving := saving st;
        loadedAt := loadedAt st;
        world := after (world st) [IdbGet DB_KEY] |}).
Proof.
  intros Hidb. destruct st as [er lo sh fi fb sa la w].
  unfold mount. run_page. rewrite Hidb. reflexivity.
Qed.

Lemma saveToDB_refusal (st : State) :
  length (shots st) <> 4%nat ->
  saveToDB P st = (Resolved tt, setError (Some "4 photos are required.") st).
Proof.
  intros Hlen. destruct st as [er lo sh fi fb sa la w].
  cbn [shots] in Hlen. apply Nat.eqb_neq in Hlen.
  unfold saveToDB. run_page. rewrite Hlen. reflexivity.
Qed.

Lemma clearDB_state (st : State) :
  clearDB P st =
    (Resolved tt,
     match idb_failure P with
     | Some e =>
         {| error := Some (message_or e "Clear failed");
            loading := loading st; shots := shots st;
            frameId := frameId st; finalBlob := finalBlob st;
            saving := false; loadedAt := loadedAt st;
            world := after (world st) [IdbDel DB_KEY] |}
     | None =>
         {| error := None; loading := loading st; shots := [];
            frameId := frameId st; finalBlob := None; saving := false;
            loadedAt := None;
            world := with_store (delete DB_KEY (store (world st)))
                       (after (world st) [IdbDel DB_KEY]) |}
     end).
Proof.
  destruct st as [er lo sh fi fb sa la w].
  unfold clearDB. run_page.
  destruct (idb_failure P); reflexivity.
Qed.

End Result.


(** ** One overwritable record *)

Section OneRecord.

Import ResultPage Stored.
Variable P : Platform.

Lemma mount_world (st : State) :
  exists evs, forallb (on_key DB_KEY) evs = true /\
              world (snd (mount P st)) = after (world st) evs.
Proof.
  destruct (idb_failure P) as [e|] eqn:Hidb.
  - exists [IdbGet DB_KEY]. split; [reflexivity|].
    destruct st as [er lo sh fi fb sa la w].
    unfold mount.
    cbv [bind modify finally try_catch io idb_get gets ret
         setError setLoading setShots setFrameId setFinalBlob setLoadedAt
         setWorld error loading shots frameId finalBlob saving loadedAt
         world].
    rewrite Hidb. reflexivity.
  - rewrite (mount_run _ _ Hidb). cbn [snd].
    destruct (four_shots _) as [[d sh]|].
    + destruct (uniform_compose P sh
                  (getFrameConfig (default frame1 (saved_frameId d))))
        as (r & evs & Hq & Hrun).
      exists (IdbGet DB_KEY :: evs). split.
      * cbn. apply (quiet_on_key DB_KEY) in Hq. exact Hq.
      * cbn [world]. rewrite Hrun. cbn [snd]. rewrite after_after.
        reflexivity.
    + exists [IdbGet DB_KEY]. split; reflexivity.
Qed.

Lemma frame_effect_tidy (st : State) :
  tidy DB_KEY (world st) (world (snd (frame_effect P st))).
Proof.
  destruct (decide (length (shots st) = 4%nat)) as [Hlen|Hlen].
  2:{ rewrite (frame_effect_skips _ _ Hlen). apply tidy_refl. }
  rewrite (frame_effect_run _ _ Hlen). cbn [snd].
  destruct (uniform_compose P (shots st) (getFrameConfig (frameId st)))
    as (r & evs & Hq & Hrun).
  rewrite Hrun. cbn [fst snd].
  apply (quiet_on_key DB_KEY) in Hq.
  assert (Hc : forall final now,
            complete (record (shots st) (frameId st) (Some final) now)
            = true).
  { intros. unfold complete, record. cbn. apply Nat.eqb_eq. exact Hlen. }
  destruct r as [final|e]; [destruct (idb_failure P)|]; cbn [world].
  - rewrite after_after. apply tidy_after.
    rewrite forallb_app, Hq, on_key_set by apply Hc. reflexivity.
  - eexists. split; [|split].
    + cbn [with_store log after]. rewrite <- app_assoc. reflexivity.
    + rewrite forallb_app, Hq, on_key_set by apply Hc. reflexivity.
    + right. right. eexists. split; [apply Hc|]. reflexivity.
  - apply tidy_after. exact Hq.
Qed.
Lemma select_frame_tidy (f : FrameId) (st : State) :
  tidy DB_KEY (world st) (world (snd (select_frame P f st))).
Proof.
  rewrite select_frame_run.
  destruct (bool_decide (f = frameId st)); [apply tidy_refl|].
  apply (frame_effect_tidy (setFrameId f st)).
Qed.

Lemma mount_tidy (st : State) :
  tidy DB_KEY (world st) (world (snd (mount P st))).
Proof.
  destruct (mount_world st) as (evs & Hk & ->).
  apply tidy_after, Hk.
Qed.

Lemma saveToDB_tidy (st : State) :
  tidy DB_KEY (world st) (world (snd (saveToDB P st))).
Proof.
  destruct (decide (length (shots st) = 4%nat)) as [Hlen|Hlen].
  2:{ rewrite (saveToDB_refuses _ _ Hlen). apply tidy_refl. }
  rewrite (saveToDB_run _ _ Hlen). cbn [snd].
  assert (Hc : forall now,
            complete (record (shots st) (frameId st) (finalBlob st) now)
            = true).
  { intros. unfold complete, record. cbn. apply Nat.eqb_eq. exact Hlen. }
  destruct (idb_failure P); cbn [world].
  - apply tidy_after, on_key_set, Hc.
  - eexists. split; [reflexivity|]. split; [apply on_key_set, Hc|].
    right. right. eexists. split; [apply Hc|]. reflexivity.
Qed.

Lemma clearDB_tidy (st : State) :
  tidy DB_KEY (world st) (world (snd (clearDB P st))).
Proof.
  rewrite clearDB_run. destruct (idb_failure P).
  - apply tidy_after. reflexivity.
  - eexists. split; [reflexivity|]. split; [reflexivity|].
    right. left. reflexivity.
Qed.

Lemma store_step_dom (s s' : gmap string SavedState) :
  store_step DB_KEY s s' ->
  (forall k, k <> DB_KEY -> s' !! k = s !! k) /\
  (dom s ⊆ {[DB_KEY]} -> dom s' ⊆ {[DB_KEY]}).
Proof.
  intros [->|[->|(r & _ & ->)]].
  - split; [reflexivity | auto].
  - split.
    + intros k Hk. apply lookup_delete_ne. congruence.
    + intros Hdom k Hk. rewrite dom_delete_L in Hk.
      apply elem_of_difference in Hk. apply Hdom, Hk.
  - split.
    + intros k Hk. apply lookup_insert_ne. congruence.
    + intros Hdom k Hk. rewrite dom_insert_L in Hk.
      apply elem_of_union in Hk. destruct Hk as [Hk|Hk];
        [exact Hk | apply Hdom, Hk].
Qed.

(** C5.  Both pages use the one key ["toaster_mvp_state_v1"].  Every
    persistence operation (shooting on the capture page; the mount
    effect, the frame effect, a frame selection, [saveToDB] and [clearDB]
    on the result page), from any state of its page, makes IndexedDB
    calls on that key only, writes complete records only, and leaves the
    store as it was, or without the record under the key, or with a
    complete record under the key in place of whatever was there; other
    keys keep what they had.  A [saveToDB] with four shots and a working
    IndexedDB puts its record under the key.  Hence a store with no
    record under another key never holds more than one record, however
    many operations follow. *)
Theorem single_overwritable_record :
  CapturePage.DB_KEY = "toaster_mvp_state_v1" /\
  ResultPage.DB_KEY = "toaster_mvp_state_v1" /\
  (forall w w', persists P w w' ->
     tidy DB_KEY w w' /\
     (forall k, k <> DB_KEY -> store w' !! k = store w !! k)) /\
  (forall st, length (shots st) = 4%nat -> idb_failure P = None ->
     store (world (snd (saveToDB P st))) =
       <[DB_KEY := record (shots st) (frameId st) (finalBlob st)
                     (clock (world st))]> (store (world st))) /\
  (forall w w', rtc (persists P) w w' ->
     dom (store w) ⊆ {[DB_KEY]} ->
     dom (store w') ⊆ {[DB_KEY]} /\ size (store w') <= 1).
Proof.
  split; [reflexivity|]. split; [reflexivity|].
  assert (Hstep : forall w w', persists P w w' -> tidy DB_KEY w w').
  { intros w w' [st|st|st|f st|st|st].
    - apply (shoot4_tidy P st).
    - apply mount_tidy.
    - apply frame_effect_tidy.
    - apply select_frame_tidy.
    - apply saveToDB_tidy.
    - apply clearDB_tidy. }
  split; [|split].
  - intros w w' Hp. split; [apply Hstep, Hp|].
    destruct (Hstep _ _ Hp) as (evs & _ & _ & Hs).
    apply (store_step_dom _ _ Hs).
  - intros st Hlen Hidb. rewrite (saveToDB_run _ _ Hlen), Hidb.
    reflexivity.
  - intros w w' Hrtc Hdom.
    assert (Hdom' : dom (store w') ⊆ {[DB_KEY]}).
    { induction Hrtc as [w|w w1 w2 Hp _ IH]; [exact Hdom|].
      apply IH. destruct (Hstep _ _ Hp) as (evs & _ & _ & Hs).
      apply (store_step_dom _ _ Hs), Hdom. }
    split; [exact Hdom'|].
    rewrite <- size_dom.
    etransitivity; [apply subseteq_size, Hdom'|].
    rewrite size_singleton. reflexivity.
Qed.

End OneRecord.

Section StoreExamples.

Import ResultPage Stored Sample.

Lemma mount_reads_the_store_witness :
  shots (snd (mount browser (initial stored_world))) = four_shots /\
  frameId (snd (mount browser (initial stored_world))) = frame1.
Proof.
  destruct (mount_reads_the_store browser stored_world eq_refl)
    as [_ Hloads].
  destruct (Hloads saved four_shots) as (Hshots & Hframe & _).
  - apply lookup_singleton_eq.
  - reflexivity.
  - reflexivity.
  - split; [exact Hshots | exact Hframe].
Defined.

Lemma select_frame_overwrites_witness :
  store (world (snd (select_frame browser frame2 loaded))) !! DB_KEY
    = Some (record four_shots frame2 (Some composite) 100).
Proof.
  destruct (select_frame_overwrites browser loaded frame2 composite)
    as [Hstore _].
  - reflexivity.
  - discriminate.
  - reflexivity.
  - vm_compute. reflexivity.
  - rewrite Hstore. apply lookup_insert_eq.
Defined.

End StoreExamples.

(** ** The result page: failures, round trips *)

Section ResultProps.

Import ResultPage Stored.
Variable P : Platform.

(** X9.  No handler of the result page lets a failure escape: whatever the
    browser does and whatever the state of the page, the promises of the
    mount effect, the frame effect, a frame selection, [saveToDB] and
    [clearDB] resolve.  The mount effect always ends with [loading]
    off, [clearDB] and a [saveToDB] that found four shots with [saving]
    off; a [saveToDB] that refuses does not touch [saving]. *)
Theorem result_page_settles (st : State) (f : FrameId) :
  (fst (mount P st) = Resolved tt /\ loading (snd (mount P st)) = false) /\
  fst (frame_effect P st) = Resolved tt /\
  fst (select_frame P f st) = Resolved tt /\
  (fst (saveToDB P st) = Resolved tt /\
   saving (snd (saveToDB P st)) =
     if (length (shots st) =? 4)%nat then false else saving st) /\
  (fst (clearDB P st) = Resolved tt /\ saving (snd (clearDB P st)) = false).
Proof.
  assert (Heff : forall s, fst (frame_effect P s) = Resolved tt).
  { intros s. destruct (decide (length (shots s) = 4%nat)) as [Hlen|Hlen].
    - rewrite (frame_effect_run _ _ Hlen). reflexivity.
    - rewrite (frame_effect_skips _ _ Hlen). reflexivity. }
  split; [|split; [|split; [|split]]].
  - destruct (idb_failure P) as [e|] eqn:Hidb.
    + rewrite (mount_fails _ _ _ Hidb). split; reflexivity.
    + rewrite (mount_run _ _ Hidb). cbn [fst snd].
      split; [reflexivity|].
      destruct (four_shots _) as [[d sh]|]; reflexivity.
  - apply Heff.
  - rewrite select_frame_run.
    destruct (bool_decide (f = frameId st)); [reflexivity | apply Heff].
  - destruct (Nat.eqb_spec (length (shots st)) 4) as [Hlen|Hlen].
    + rewrite (saveToDB_run _ _ Hlen). cbn [fst snd].
      split; [reflexivity|]. destruct (idb_failure P); reflexivity.
    + rewrite (saveToDB_refusal _ _ Hlen). split; reflexivity.
  - rewrite clearDB_state. cbn [fst snd].
    split; [reflexivity|]. destruct (idb_failure P); reflexivity.
Qed.

(** The mount effect from the first render, on a store that holds a
    record with four shots, and the effect that depends on [frameId] run
    on the state it leaves.  [r] is how the composition of the stored
    shots with the stored frame settles. *)
Lemma mount_then_frame_effect (w : World) (d : SavedState) (sh : list Blob) :
  idb_failure P = None ->
  store w !! DB_KEY = Some d ->
  saved_shots d = Some sh ->
  length sh = 4%nat ->
  let fid := default frame1 (saved_frameId d) in
  let st' := snd (mount P (initial w)) in
  let st'' := snd (frame_effect P st') in
  exists (r : Completion Blob) (evs : list Event),
    (forall w1, compose P sh (getFrameConfig fid) w1 = (r, after w1 evs)) /\
    (shots st', frameId st', loadedAt st') = (sh, fid, savedAt d) /\
    store (world st') = store w /\
    clock (world st') = clock w /\
    error st' = match r with
                | Resolved _ => None
                | Rejected e => Some (message_or e "Load failed")
                end /\
    finalBlob st' = match r with
                    | Resolved b => Some b
                    | Rejected _ => None
                    end /\
    (shots st'', frameId st'') = (sh, fid) /\
    match r with
    | Resolved final =>
        store (world st'') =
          <[DB_KEY := record sh fid (Some final) (clock w)]> (store w) /\
        loadedAt st'' = Some (clock w) /\
        finalBlob st'' = Some final /\
        error st'' = None
    | Rejected e =>
        store (world st'') = store w /\
        loadedAt st'' = savedAt d /\
        finalBlob st'' = None /\
        error st'' = Some (message_or e "Compose failed")
    end.
Proof.
  intros Hidb Hd Hsh Hlen fid st' st''.
  destruct (uniform_compose P sh (getFrameConfig fid))
    as (r & evs & _ & Hrun).
  exists r, evs. split; [exact Hrun|].
  assert (E' : st' =
    {| error := match r with
                | Resolved _ => None
                | Rejected e => Some (message_or e "Load failed")
                end;
       loading := false; shots := sh; frameId := fid;
       finalBlob := match r with
                    | Resolved b => Some b
                    | Rejected _ => None
                    end;
       saving := false; loadedAt := savedAt d;
       world := after (after w [IdbGet DB_KEY]) evs |}).
  { subst st'. rewrite (mount_run _ _ Hidb). cbn [snd initial world].
    rewrite (four_shots_some _ _ _ Hd Hsh Hlen). cbv zeta. fold fid.
    rewrite Hrun. cbn [fst snd finalBlob saving]. reflexivity. }
  subst st''. rewrite E'. clear E'.
  cbn [shots frameId loadedAt world error finalBlob after store clock].
  split; [reflexivity|]. split; [reflexivity|]. split; [reflexivity|].
  split; [reflexivity|]. split; [reflexivity|].
  rewrite frame_effect_run by exact Hlen.
  cbn [snd shots frameId world]. rewrite Hrun. cbn [fst snd].
  destruct r as [final|e].
  - rewrite Hidb. cbn. repeat split.
  - cbn. repeat split.
Qed.

(** X10.  A save followed by a reload of the result page.  With four
    shots on the page and a working IndexedDB, [saveToDB] stores the
    page's shots, frame and composite with the time of the save.  A page
    mounted later on a store that still holds that record adopts the
    same shots and the same frame.  If the frame is [frame1], the value
    the page starts with, the effect that depends on [frameId] does not
    run again: the page shows the time of the save and the store is as
    the save left it.  If it is another frame, [setFrameId] makes that
    effect run again, on the state the mount effect left: the shots and
    the frame stay, and when the composition succeeds the record is
    written again with the same shots and frame, the new composite and
    the time of the reload, which is then also the time shown; when it
    fails the record and the time shown stay those of the save. *)
Theorem saveToDB_then_mount (st : State) (later : World) :
  length (shots st) = 4%nat ->
  idb_failure P = None ->
  let now := clock (world st) in
  let saved := snd (saveToDB P st) in
  store later = store (world saved) ->
  let st' := snd (mount P (initial later)) in
  let st'' := snd (frame_effect P st') in
  store (world saved) !! DB_KEY =
    Some (record (shots st) (frameId st) (finalBlob st) now) /\
  loadedAt saved = Some now /\
  shots st' = shots st /\
  frameId st' = frameId st /\
  (frameId st = frame1 ->
     loadedAt st' = Some now /\
     store (world st') = store (world saved)) /\
  (frameId st <> frame1 ->
     shots st'' = shots st /\
     frameId st'' = frameId st /\
     (forall final,
        fst (compose P (shots st) (getFrameConfig (frameId st)) (world st))
          = Resolved final ->
        store (world st'') =
          <[DB_KEY := record (shots st) (frameId st) (Some final)
                        (clock later)]> (store (world saved)) /\
        loadedAt st'' = Some (clock later) /\
        finalBlob st'' = Some final) /\
     (is_resolved
        (fst (compose P (shots st) (getFrameConfig (frameId st)) (world st)))
        = false ->
        store (world st'') = store (world saved) /\
        loadedAt st'' = Some now)).
Proof.
  intros Hlen Hidb now saved Hlater st' st''.
  assert (Es : store (world saved) =
               <[DB_KEY := record (shots st) (frameId st) (finalBlob st) now]>
                 (store (world st)) /\
               loadedAt saved = Some now).
  { subst saved. rewrite (saveToDB_run _ _ Hlen), Hidb. repeat split. }
  destruct Es as (Estore & Eat).
  assert (Hrec : store (world saved) !! DB_KEY =
                 Some (record (shots st) (frameId st) (finalBlob st) now))
    by (rewrite Estore; apply lookup_insert_eq).
  assert (Hrec' : store later !! DB_KEY =
                  Some (record (shots st) (frameId st) (finalBlob st) now))
    by (rewrite Hlater; exact Hrec).
  destruct (mount_then_frame_effect later _ (shots st) Hidb Hrec'
              eq_refl Hlen)
    as (r & evs & Hrun & Hview & Hst & _ & _ & _ & Hview2 & Heff).
  cbn [record saved_frameId savedAt default] in Hview, Hview2, Heff, Hrun.
  fold st' in Hview, Hst. fold st' st'' in Hview2, Heff.
  injection Hview as Hshots Hframe Hat.
  injection Hview2 as Hshots2 Hframe2.
  split; [exact Hrec|]. split; [exact Eat|].
  split; [exact Hshots|]. split; [exact Hframe|]. split.
  - intros _. split; [exact Hat | rewrite Hst; exact Hlater].
  - intros _. split; [exact Hshots2|]. split; [exact Hframe2|].
    rewrite Hrun. cbn [fst]. split.
    + intros final ->. destruct Heff as (Hs & Hl & Hf & _).
      rewrite Hs, Hlater. repeat split; assumption.
    + destruct r as [b|e]; [discriminate|]. intros _.
      destruct Heff as (Hs & Hl & _). rewrite Hs, Hlater.
      split; [reflexivity | exact Hl].
Qed.

(** X11.  [clearDB] with a working IndexedDB removes the record and empties
    the page: no shots, no composite, no time, no error.  A page mounted
    on the store it leaves reports that there is no capturing data, and
    a [saveToDB] on the emptied page refuses and writes nothing, so the
    store stays without the record. *)
Theorem clearDB_then_nothing_to_load (st : State) :
  idb_failure P = None ->
  let cleared := snd (clearDB P st) in
  store (world cleared) = delete DB_KEY (store (world st)) /\
  view cleared = (None, [], frameId st, None, None) /\
  error (snd (mount P (initial (world cleared)))) = Some no_data /\
  error (snd (saveToDB P cleared)) = Some "4 photos are required." /\
  store (world (snd (saveToDB P cleared))) !! DB_KEY = None.
Proof.
  intros Hidb cleared. subst cleared.
  rewrite clearDB_state, Hidb. cbn [snd world with_store store view
    error shots frameId finalBlob loadedAt].
  split; [reflexivity|]. split; [reflexivity|]. split; [|split].
  - rewrite (mount_run _ _ Hidb). cbn [snd initial world with_store store].
    rewrite lookup_delete_eq. reflexivity.
  - rewrite saveToDB_refusal by (cbn; lia). reflexivity.
  - rewrite saveToDB_refusal by (cbn; lia).
    cbn [snd setError world store]. apply lookup_delete_eq.
Qed.

(** X12.  When IndexedDB fails with [e], no handler of the result page changes
    the store, each reports [e]'s message (or its own fallback text) in
    [error], and none adopts or drops anything it should not: the mount
    effect leaves shots, frame, composite and time as they were and
    composes nothing; [clearDB] keeps the shots and the composite on the
    page; [saveToDB] and the frame effect leave [loadedAt] as it was,
    the frame effect having already put its new composite on the
    page. *)
Theorem result_page_store_failure (st : State) (e : JsError) :
  idb_failure P = Some e ->
  (let st' := snd (mount P st) in
   error st' = Some (message_or e "Load failed") /\
   (shots st', frameId st', finalBlob st', loadedAt st')
     = (shots st, frameId st, finalBlob st, loadedAt st) /\
   world st' = after (world st) [IdbGet DB_KEY]) /\
  (let st' := snd (clearDB P st) in
   error st' = Some (message_or e "Clear failed") /\
   (shots st', frameId st', finalBlob st', loadedAt st')
     = (shots st, frameId st, finalBlob st, loadedAt st) /\
   world st' = after (world st) [IdbDel DB_KEY]) /\
  (length (shots st) = 4%nat ->
   let st' := snd (saveToDB P st) in
   error st' = Some (message_or e "Save failed") /\
   loadedAt st' = loadedAt st /\
   store (world st') = store (world st)) /\
  (forall final,
     length (shots st) = 4%nat ->
     fst (compose P (shots st) (getFrameConfig (frameId st)) (world st))
       = Resolved final ->
     let st' := snd (frame_effect P st) in
     error st' = Some (message_or e "Compose failed") /\
     finalBlob st' = Some final /\
     loadedAt st' = loadedAt st /\
     store (world st') = store (world st)).
Proof.
  intros Hidb. split; [|split; [|split]].
  - rewrite (mount_fails _ _ _ Hidb). repeat split.
  - rewrite clearDB_state, Hidb. repeat split.
  - intros Hlen. rewrite (saveToDB_run _ _ Hlen), Hidb. repeat split.
  - intros final Hlen Hfinal. rewrite (frame_effect_run _ _ Hlen).
    cbn [snd]. rewrite Hfinal, Hidb.
    cbn [error finalBlob loadedAt world after store].
    destruct (uniform_compose P (shots st) (getFrameConfig (frameId st)))
      as (r & evs & _ & Hrun).
    rewrite Hrun. repeat split.
Qed.

(** X13.  A frame selection whose composition fails leaves the page and the
    store at odds: the page shows the new frame as selected, but keeps
    the composite it had, made with the old frame, and the record in the
    store is not touched (no write is attempted), so it still names the
    old frame. *)
Theorem select_frame_failed_composition
        (st : State) (f : FrameId) (e : JsError) :
  length (shots st) = 4%nat ->
  f <> frameId st ->
  fst (compose P (shots st) (getFrameConfig f) (world st)) = Rejected e ->
  let st' := snd (select_frame P f st) in
  frameId st' = f /\
  finalBlob st' = finalBlob st /\
  error st' = Some (message_or e "Compose failed") /\
  loadedAt st' = loadedAt st /\
  store (world st') = store (world st) /\
  forallb (fun ev => negb (is_idb ev))
          (events_since (world st) (world st')) = true.
Proof.
  intros Hlen Hf He st'. subst st'.
  rewrite select_frame_run, bool_decide_eq_false_2 by exact Hf.
  rewrite frame_effect_run by exact Hlen.
  cbn [snd setFrameId shots frameId world].
  destruct (uniform_compose P (shots st) (getFrameConfig f))
    as (r & evs & Hq & Hrun).
  rewrite Hrun in He |- *. cbn [fst] in He. subst r. cbn [fst snd].
  cbn [frameId finalBlob error loadedAt world].
  rewrite events_since_after.
  repeat split. exact Hq.
Qed.

End ResultProps.

Section ResultPropsExamples.

Import ResultPage Stored Sample.

Lemma saveToDB_then_mount_witness :
  shots (snd (mount browser
                (initial (world (snd (saveToDB browser loaded))))))
    = four_shots.
Proof.
  destruct (saveToDB_then_mount browser loaded
              (world (snd (saveToDB browser loaded)))
              eq_refl eq_refl eq_refl)
    as (_ & _ & Hshots & _).
  exact Hshots.
Defined.

Lemma result_page_store_failure_witness :
  error (snd (mount no_storage (initial stored_world)))
    = Some "QuotaExceededError".
Proof.
  destruct (result_page_store_failure no_storage (initial stored_world)
              (Error "QuotaExceededError") eq_refl) as ((Herr & _) & _).
  exact Herr.
Defined.

Lemma select_frame_failed_composition_witness :
  frameId (snd (select_frame no_frame2 frame2 loaded)) = frame2 /\
  store (world (snd (select_frame no_frame2 frame2 loaded)))
    = store stored_world.
Proof.
  destruct (select_frame_failed_composition no_frame2 loaded frame2
              ErrorEvent) as (Hframe & _ & _ & _ & Hstore & _).
  - reflexivity.
  - discriminate.
  - vm_compute. reflexivity.
  - split; [exact Hframe | exact Hstore].
Defined.

Lemma clearDB_then_nothing_to_load_witness :
  store (world (snd (clearDB browser loaded))) = ∅.
Proof.
  destruct (clearDB_then_nothing_to_load browser loaded eq_refl)
    as (Hstore & _).
  rewrite Hstore. apply delete_singleton_eq.
Defined.

End ResultPropsExamples.

(** ** From the capture page to the result page *)

Section Journey.

Import Shooting Attempts.
Variable P : Platform.

Lemma reset_run (st : CapturePage.State) :
  CapturePage.reset st =
    (Resolved tt,
     {| CapturePage.videoRef := CapturePage.videoRef st;
        CapturePage.cameraOn := CapturePage.cameraOn st;
        CapturePage.error := None; CapturePage.isShooting := false;
        CapturePage.countdown := 0; CapturePage.shotIndex := 0;
        CapturePage.shots := [];
        CapturePage.world :=
          after (CapturePage.world st) [ShowCountdown 0] |}).
Proof. destruct st. reflexivity. Qed.

(** The result page mounted, from its first render, on a store that
    holds a record of the capture page. *)
Lemma arrive_with_record (w : World) (sh : list Blob) (now : Z) :
  idb_failure P = None ->
  length sh = 4%nat ->
  store w !! ResultPage.DB_KEY = Some (payload sh now) ->
  let st' := snd (ResultPage.mount P (ResultPage.initial w)) in
  ResultPage.shots st' = sh /\
  ResultPage.frameId st' = frame1 /\
  ResultPage.loadedAt st' = Some now.
Proof.
  intros Hidb Hlen Hrec st'. subst st'.
  rewrite (mount_run _ _ Hidb).
  cbn [snd ResultPage.initial ResultPage.world]. rewrite Hrec.
  rewrite (four_shots_some _ (payload sh now) sh eq_refl eq_refl Hlen).
  repeat split.
Qed.

(** X5.  The two pages fit together.  When a run on the capture page took
    its four shots and the write succeeded, "Next" is enabled, and the
    result page mounted on the store the run left adopts exactly the
    four shots the capture page holds, in the same order, with [frame1]
    and the time of the write.  A [reset] on the capture page empties
    that page and disables "Next", but does not reach the store: the
    result page still finds the four shots. *)
Theorem capture_then_result (st : CapturePage.State) :
  CapturePage.videoRef st = true ->
  CapturePage.cameraOn st = true ->
  CapturePage.isShooting st = false ->
  idb_failure P = None ->
  first_failure (attempts P (clock (CapturePage.world st))) = None ->
  let captured := snd (CapturePage.shoot4WithPerShotCountdown P st) in
  let cleared := snd (CapturePage.reset captured) in
  let arrived :=
    snd (ResultPage.mount P
           (ResultPage.initial (CapturePage.world captured))) in
  let arrived_late :=
    snd (ResultPage.mount P
           (ResultPage.initial (CapturePage.world cleared))) in
  CapturePage.canGoNext captured = true /\
  length (CapturePage.shots captured) = 4%nat /\
  ResultPage.shots arrived = CapturePage.shots captured /\
  ResultPage.frameId arrived = frame1 /\
  ResultPage.loadedAt arrived
    = Some (shot_time (clock (CapturePage.world st)) 3) /\
  CapturePage.shots cleared = [] /\
  CapturePage.canGoNext cleared = false /\
  ResultPage.shots arrived_late = CapturePage.shots captured.
Proof.
  intros Hv Hc Hs Hidb Hall captured cleared arrived arrived_late.
  destruct (shoot4_outcome P st Hv Hc Hs)
    as (_ & Hshots & _ & Hsh & _ & _ & Hstore & _).
  fold captured in Hshots, Hsh, Hstore.
  rewrite Hall, Hidb in Hstore.
  assert (Hlen : length (CapturePage.shots captured) = 4%nat).
  { rewrite Hshots. rewrite (proj2 (taken_length _) Hall). reflexivity. }
  rewrite <- Hshots in Hstore.
  assert (Hrec : store (CapturePage.world captured) !! ResultPage.DB_KEY =
                 Some (payload (CapturePage.shots captured)
                         (shot_time (clock (CapturePage.world st)) 3))).
  { rewrite Hstore. apply lookup_insert_eq. }
  destruct (arrive_with_record _ _ _ Hidb Hlen Hrec) as (A1 & A2 & A3).
  split.
  { unfold CapturePage.canGoNext. rewrite Hsh, Hlen. reflexivity. }
  split; [exact Hlen|]. split; [exact A1|]. split; [exact A2|].
  split; [exact A3|].
  subst cleared. rewrite reset_run. cbn [snd CapturePage.shots].
  split; [reflexivity|]. split; [reflexivity|].
  subst arrived_late. rewrite reset_run. cbn [snd CapturePage.world].
  exact (proj1 (arrive_with_record
                  (after (CapturePage.world captured) [ShowCountdown 0])
                  _ _ Hidb Hlen Hrec)).
Qed.

End Journey.

Section JourneyExamples.

Import Sample.

Lemma capture_then_result_witness :
  ResultPage.shots
    (snd (ResultPage.mount browser
            (ResultPage.initial
               (CapturePage.world
                  (snd (CapturePage.shoot4WithPerShotCountdown browser
                          ready))))))
  = CapturePage.shots
      (snd (CapturePage.shoot4WithPerShotCountdown browser ready)).
Proof.
  destruct (capture_then_result browser ready eq_refl eq_refl eq_refl
              eq_refl eq_refl) as (_ & _ & Hshots & _).
  exact Hshots.
Defined.

End JourneyExamples.

(** ** Composition: what a failed shot costs, and what is never touched *)

Section ComposeProps.

Import ResultPage Layout.
Variable P : Platform.

Lemma Promise_all_blobs (bs : list Blob) (w : World) :
  Promise_all (map (blobToImage P) bs) w =
    (match mapM (decoded P) bs with
     | Some imgs => Resolved imgs
     | None => Rejected ErrorEvent
     end,
     after w (map (fun b => LoadImage (ObjectUrl b)) bs)).
Proof.
  revert w. induction bs as [|b bs IH]; intros w.
  - cbn. rewrite after_nil. reflexivity.
  - cbn [map Promise_all mapM]. unfold blobToImage at 1.
    destruct (load P (ObjectUrl b)) as [[iw ih]|] eqn:E.
    + assert (Hd : decoded P b =
                Some {| img_src := ObjectUrl b; img_width := iw;
                        img_height := ih |})
        by (unfold decoded; rewrite E; reflexivity).
      rewrite (loadImage_some _ _ _ _ E), IH, after_after, Hd.
      cbn. destruct (mapM (decoded P) bs); reflexivity.
    + assert (Hd : decoded P b = None)
        by (unfold decoded; rewrite E; reflexivity).
      rewrite (loadImage_none _ _ _ E), IH, after_after, Hd.
      cbn. destruct (mapM (decoded P) bs); reflexivity.
Qed.

Lemma decoded_none (shots : list Blob) (b : Blob) :
  In b shots -> load P (ObjectUrl b) = None ->
  mapM (decoded P) shots = None.
Proof.
  intros Hin Hb. apply mapM_None_2. apply Exists_exists.
  exists b. split; [apply list_elem_of_In; exact Hin|].
  unfold decoded. rewrite Hb. reflexivity.
Qed.

Ltac open_compose :=
  cbn [negb];
  unfold bind at 1; unfold createCanvas at 1;
  unfold bind at 1; unfold modify, ret at 1;
  unfold bind at 1; unfold getContext;
  unfold bind at 1; unfold modify, ret at 1;
  rewrite !emit_after, after_after.

(** X14.  With four shots and a 2D context, a shot that does not decode
    makes [composeFinalPNG] reject with the image element's error
    event, on the result page and on the earlier page alike.  All four
    shots have then been handed to the decoder (the loads are started
    together), but the frame image has not been requested and nothing
    has been encoded.  The event carries no message, so the result page
    shows a fallback text.  A page that mounts on a record with such a
    shot adopts the four shots all the same and has no composite.  If
    the record's frame is [frame1] or absent, as in a record of the
    capture page, the mount effect is all that runs and the text is
    "Load failed".  For another frame [setFrameId] makes the effect that
    depends on [frameId] run again, on the state the mount effect left:
    it fails the same way, leaves the text "Compose failed" and writes
    nothing. *)
Theorem undecodable_shot_stops_composition
        (shots : list Blob) (frame : FrameConfig) (frameSrc : string)
        (w : World) (b : Blob) :
  length shots = 4%nat ->
  canvas_2d P = true ->
  In b shots ->
  load P (ObjectUrl b) = None ->
  let calls := [CreateCanvas; GetContext]
                 ++ map (fun b => LoadImage (ObjectUrl b)) shots in
  composeFinalPNG P shots frame w = (Rejected ErrorEvent, after w calls) /\
  SinglePage.composeFinalPNG P shots frameSrc w
    = (Rejected ErrorEvent, after w calls) /\
  (forall (w0 : World) (d : SavedState),
     idb_failure P = None ->
     store w0 !! DB_KEY = Some d ->
     saved_shots d = Some shots ->
     let st' := snd (mount P (initial w0)) in
     let st'' := snd (frame_effect P st') in
     ResultPage.shots st' = shots /\
     frameId st' = default frame1 (saved_frameId d) /\
     finalBlob st' = None /\
     store (world st') = store w0 /\
     (default frame1 (saved_frameId d) = frame1 ->
        error st' = Some "Load failed") /\
     (default frame1 (saved_frameId d) <> frame1 ->
        error st'' = Some "Compose failed" /\
        ResultPage.shots st'' = shots /\
        finalBlob st'' = None /\
        store (world st'') = store w0)).
Proof.
  intros Hlen Hctx Hin Hb calls. subst calls.
  pose proof (decoded_none _ _ Hin Hb) as Hnone.
  assert (Hlen' : (length shots =? 4)%nat = true) by (apply Nat.eqb_eq, Hlen).
  assert (Hres : forall fr w1,
            composeFinalPNG P shots fr w1 =
              (Rejected ErrorEvent,
               after w1 ([CreateCanvas; GetContext]
                           ++ map (fun b => LoadImage (ObjectUrl b)) shots))).
  { intros fr w1. unfold composeFinalPNG. rewrite Hlen'. open_compose.
    rewrite Hctx. unfold bind at 1.
    rewrite Promise_all_blobs, Hnone, after_after. reflexivity. }
  split; [apply Hres|]. split.
  - unfold SinglePage.composeFinalPNG. rewrite Hlen'. open_compose.
    rewrite Hctx. unfold bind at 1.
    rewrite Promise_all_blobs, Hnone, after_after. reflexivity.
  - intros w0 d Hidb Hd Hsh st' st''.
    destruct (mount_then_frame_effect P w0 d shots Hidb Hd Hsh Hlen)
      as (r & evs & Hrun & Hview & Hst & _ & Herr & Hfb & Hview2 & Heff).
    fold st' in Hview, Hst, Herr, Hfb. fold st' st'' in Hview2, Heff.
    assert (Hf : exists fr,
              getFrameConfig (default frame1 (saved_frameId d)) = Some fr)
      by (destruct (default frame1 (saved_frameId d)); eexists; reflexivity).
    destruct Hf as (fr & Hfr).
    assert (Hr : r = Rejected ErrorEvent).
    { specialize (Hrun w0). rewrite Hfr in Hrun. unfold compose in Hrun.
      rewrite Hres in Hrun. injection Hrun as <- _. reflexivity. }
    subst r. cbn in Herr, Heff.
    injection Hview as Hshots Hframe _.
    injection Hview2 as Hshots2 _.
    destruct Heff as (Hs & _ & Hf2 & He2).
    split; [exact Hshots|]. split; [exact Hframe|]. split; [exact Hfb|].
    split; [exact Hst|]. split; [intros _; exact Herr|].
    intros _. repeat split; assumption.
Qed.

Lemma uniform_single_compose shots frameSrc :
  uniform (SinglePage.composeFinalPNG P shots frameSrc).
Proof.
  unfold SinglePage.composeFinalPNG.
  destruct (negb (length shots =? 4)%nat); [apply uniform_throw|].
  apply uniform_bind; [apply uniform_createCanvas|]. intros canvas.
  apply uniform_bind; [apply uniform_getContext|]. intros [ctx|].
  2: apply uniform_throw.
  apply uniform_bind.
  - apply uniform_Promise_all. apply List.Forall_forall. intros p Hp.
    apply in_map_iff in Hp. destruct Hp as (b & <- & _).
    apply uniform_loadImage.
  - intros shotImgs.
    destruct (forEach _ shotImgs 0%nat _); [|apply uniform_throw].
    apply uniform_bind; [apply uniform_loadImage|]. intros frameImg.
    apply uniform_toBlob.
Qed.

Lemma uniform_captureFromVideo video :
  uniform (CapturePage.captureFromVideo P video).
Proof.
  exists (Mirror.capture_result P video), (Mirror.capture_events P video).
  split; [apply capture_events_quiet|].
  intros w. apply captureFromVideo_run.
Qed.

(** X15.  The code that draws never looks at the store or the clock and
    never changes them: [composeFinalPNG] of either page and
    [captureFromVideo] settle the same way and make the same platform
    calls, none of them to IndexedDB, in whatever world they are
    started. *)
Theorem canvas_code_leaves_the_store_alone
        (shots : list Blob) (frame : FrameConfig) (frameSrc : string)
        (video : HTMLVideoElement) :
  uniform (composeFinalPNG P shots frame) /\
  uniform (SinglePage.composeFinalPNG P shots frameSrc) /\
  uniform (CapturePage.captureFromVideo P video) /\
  (forall A (m : IO A), uniform m ->
     forall w,
       store (snd (m w)) = store w /\ clock (snd (m w)) = clock w /\
       forallb (fun e => negb (is_idb e)) (events_since w (snd (m w)))
         = true /\
       forall w0, fst (m w) = fst (m w0) /\
                  events_since w (snd (m w))
                    = events_since w0 (snd (m w0))).
Proof.
  split; [apply uniform_composeFinalPNG|].
  split; [apply uniform_single_compose|].
  split; [apply uniform_captureFromVideo|].
  intros A m (r & evs & Hq & Hm) w. rewrite Hm.
  split; [reflexivity|]. split; [reflexivity|].
  cbn [snd]. rewrite events_since_after. split; [exact Hq|].
  intros w0. rewrite Hm. cbn [fst snd]. rewrite events_since_after.
  split; reflexivity.
Qed.

(** X16.  The earlier page's [composeFinalPNG].  Given exactly four
    shots that decode, a 2D context and a frame image that loads, it
    resolves or rejects as the PNG encoder does on a 1200 by 1800 canvas
    painted, in order, with the white background, for each shot the shot
    scaled to cover its cell and clipped to it, followed by the cell's
    outline, and the frame image over the whole canvas.  The cells are
    the four squares of 480 pixels at (90, 390), (630, 390), (90, 930)
    and (630, 930): a grid with 90 pixels to its left and right, 60
    between the cells, and 390 above and below. *)
Theorem single_page_draws
        (shots : list Blob) (frameSrc : string) (w : World)
        (imgs : list HTMLImageElement) (frameImg : HTMLImageElement) :
  length shots = 4%nat ->
  canvas_2d P = true ->
  Forall2 (fun b img => loads P (ObjectUrl b) img) shots imgs ->
  loads P (Url frameSrc) frameImg ->
  exists cv : Canvas.Context2D,
    SinglePage.composeFinalPNG P shots frameSrc w =
      (encode P cv,
       after w ([CreateCanvas; GetContext] ++
                map (fun b => LoadImage (ObjectUrl b)) shots ++
                [LoadImage (Url frameSrc); ToBlob cv])) /\
    Canvas.canvas_width cv = 1200%Z /\
    Canvas.canvas_height cv = 1800%Z /\
    Canvas.display cv =
      composite_paints (map SinglePage.cell SinglePage.positions) imgs
        frameImg /\
    map SinglePage.cell SinglePage.positions =
      [ {| slot_x := 90; slot_y := 390; slot_w := 480; slot_h := 480 |};
        {| slot_x := 630; slot_y := 390; slot_w := 480; slot_h := 480 |};
        {| slot_x := 90; slot_y := 930; slot_w := 480; slot_h := 480 |};
        {| slot_x := 630; slot_y := 930; slot_w := 480; slot_h := 480 |} ].
Proof.
  intros Hlen Hctx Himgs Hframe.
  destruct shots as [|b0 [|b1 [|b2 [|b3 [|]]]]]; try discriminate Hlen.
  inversion Himgs as [|? i0 ? ? H0 Himgs1]; subst.
  inversion Himgs1 as [|? i1 ? ? H1 Himgs2]; subst.
  inversion Himgs2 as [|? i2 ? ? H2 Himgs3]; subst.
  inversion Himgs3 as [|? i3 ? ? H3 Himgs4]; subst.
  inversion Himgs4; subst.
  unfold SinglePage.composeFinalPNG.
  cbn [length Nat.eqb negb].
  unfold bind at 1. unfold createCanvas at 1.
  unfold bind at 1. unfold modify, ret at 1.
  unfold bind at 1. unfold getContext.
  unfold bind at 1. unfold modify, ret at 1. rewrite Hctx.
  unfold bind at 1. cbn [map Promise_all]. unfold blobToImage.
  rewrite (loadImage_loads _ _ _ _ H0), (loadImage_loads _ _ _ _ H1),
    (loadImage_loads _ _ _ _ H2), (loadImage_loads _ _ _ _ H3).
  cbn [forEach SinglePage.draw_shot SinglePage.positions lookup list_lookup].
  unfold bind at 1. rewrite (loadImage_loads _ _ _ _ Hframe).
  unfold toBlob, bind, modify.
  match goal with |- context [png P ?c] => exists c end.
  split.
  - unfold encode.
    match goal with |- context [png P ?c] => destruct (png P c) end;
      unfold ret, throw, emit, after; cbn; rewrite <- ?app_assoc;
      reflexivity.
  - split; [reflexivity|]. split; [reflexivity|]. split; [reflexivity|].
    vm_compute. reflexivity.
Qed.

End ComposeProps.

Section ComposePropsExamples.

Import ResultPage Layout Sample.

Lemma undecodable_shot_stops_composition_witness :
  fst (composeFinalPNG bad_shot four_shots frame2_config empty_world)
    = Rejected ErrorEvent.
Proof.
  destruct (undecodable_shot_stops_composition bad_shot four_shots
              frame2_config "/frames/frame2.png" empty_world (shot 1))
    as (Hrun & _).
  - reflexivity.
  - reflexivity.
  - cbn. auto.
  - reflexivity.
  - rewrite Hrun. reflexivity.
Defined.

Lemma single_page_draws_witness :
  exists cv : Canvas.Context2D,
    fst (SinglePage.composeFinalPNG browser four_shots "/frames/frame1.png"
           empty_world) = encode browser cv /\
    length (Canvas.display cv) = 10%nat.
Proof.
  destruct (single_page_draws browser four_shots "/frames/frame1.png"
              empty_world images
              {| img_src := Url "/frames/frame1.png"; img_width := 1200;
                 img_height := 1800 |})
    as (cv & Hrun & _ & _ & Hdisplay & _).
  - reflexivity.
  - reflexivity.
  - repeat constructor.
  - split; reflexivity.
  - exists cv. rewrite Hrun, Hdisplay. split; reflexivity.
Defined.

End ComposePropsExamples.

(** ** The pixels of a slot *)

Section Pixels.

Import ResultPage Layout.
Local Open Scope Q_scope.

Lemma inside_ext (r : Canvas.Rect) (p q : Q * Q) :
  fst p == fst q -> snd p == snd q -> Canvas.inside r p = Canvas.inside r q.
Proof.
  destruct p as [x y], q as [x' y']. cbn [fst snd]. intros Hx Hy.
  unfold Canvas.inside. rewrite Hx, Hy. reflexivity.
Qed.

Lemma unapply_identity (p : Q * Q) :
  fst (Canvas.unapply Canvas.identity p) == fst p /\
  snd (Canvas.unapply Canvas.identity p) == snd p.
Proof.
  destruct p as [x y]. unfold Canvas.unapply, Canvas.det, Canvas.identity.
  cbn [fst snd Canvas.ma Canvas.mb Canvas.mc Canvas.md Canvas.me Canvas.mf].
  split; field.
Qed.

Lemma inside_iff (r : Canvas.Rect) (p : Q * Q) :
  Canvas.inside r p = true <->
  Canvas.rx r <= fst p /\ fst p < Canvas.rx r + Canvas.rw r /\
  Canvas.ry r <= snd p /\ snd p < Canvas.ry r + Canvas.rh r.
Proof.
  destruct p as [x y]. cbn [fst snd]. unfold Canvas.inside.
  rewrite !andb_true_iff, !negb_true_iff, !Qle_bool_iff.
  split.
  - intros [[[H1 H2] H3] H4]. repeat split; try assumption.
    + apply Qnot_le_lt. intros H. apply Qle_bool_iff in H. congruence.
    + apply Qnot_le_lt. intros H. apply Qle_bool_iff in H. congruence.
  - intros (H1 & H2 & H3 & H4). repeat split; try assumption.
    + destruct (Qle_bool _ x) eqn:E; [|reflexivity].
      apply Qle_bool_iff in E. lra.
    + destruct (Qle_bool _ y) eqn:E; [|reflexivity].
      apply Qle_bool_iff in E. lra.
Qed.

Lemma Qfloor_within (q : Q) (n : Z) :
  0 <= q -> q < inject_Z n -> (0 <= Qfloor q < n)%Z.
Proof.
  intros H0 Hn. split.
  - change 0%Z with (Qfloor 0). apply Qfloor_resp_le. exact H0.
  - rewrite Zlt_Qlt. apply Qle_lt_trans with q; [apply Qfloor_le | exact Hn].
Qed.

Lemma scaled_within (t d n : Q) :
  0 < d -> 0 < n -> 0 <= t -> t < d -> 0 <= t * n / d /\ t * n / d < n.
Proof.
  intros Hd Hn Ht Htd. split.
  - apply Qle_shift_div_l; [exact Hd|]. rewrite Qmult_0_l.
    apply Qmult_le_0_compat; lra.
  - apply Qlt_shift_div_r; [exact Hd|].
    rewrite (Qmult_comm n d). rewrite (Qmult_comm t n), (Qmult_comm d n).
    apply Qmult_lt_l; assumption.
Qed.

(** X17.  A shot fills its slot and nothing else.  For an image of
    positive size, the clipped [drawImage] of the [forEach] callback
    paints every canvas pixel whose centre lies in the slot with a pixel
    of the image (no part of the slot is left to the background), and
    paints no pixel whose centre lies outside the slot. *)
Theorem shot_fills_its_slot
        (s : SlotRect) (img : HTMLImageElement) (col row : Z) :
  (0 < img_width img)%Z -> (0 < img_height img)%Z ->
  (Canvas.inside (slot_rect s) (centre col row) = true ->
     exists u v : Z,
       Canvas.sample (clipped_draw s img) col row = Some (u, v) /\
       (0 <= u < img_width img)%Z /\ (0 <= v < img_height img)%Z) /\
  (Canvas.inside (slot_rect s) (centre col row) = false ->
     Canvas.sample (clipped_draw s img) col row = None).
Proof.
  intros Hw Hh.
  pose proof (inject_Z_pos _ Hw) as Hw'.
  pose proof (inject_Z_pos _ Hh) as Hh'.
  unfold clipped_draw, Canvas.sample. fold (centre col row).
  destruct (unapply_identity (centre col row)) as [Hu Hv].
  set (u := Canvas.unapply Canvas.identity (centre col row)) in *.
  assert (Hclip : Canvas.inside (slot_rect s) u
                  = Canvas.inside (slot_rect s) (centre col row))
    by (apply inside_ext; assumption).
  cbn [forallb Canvas.inside_path existsb fst snd].
  fold u. rewrite Hclip, orb_false_r, andb_true_r.
  split.
  - intros Hin. rewrite Hin, andb_true_r.
    apply inside_iff in Hin. rewrite <- Hu, <- Hv in Hin.
    cbn [slot_rect Canvas.rx Canvas.ry Canvas.rw Canvas.rh] in Hin.
    destruct Hin as (X1 & X2 & Y1 & Y2).
    assert (Hsw : 0 < slot_w s) by lra.
    assert (Hsh : 0 < slot_h s) by lra.
    destruct (cover_slot s img Hw Hh Hsw Hsh)
      as (HW & HH & _ & _ & L & R & T & B).
    assert (Hdet : Qeq_bool (Canvas.det Canvas.identity) 0 = false)
      by reflexivity.
    rewrite Hdet. cbn [negb andb].
    rewrite inside_true;
      cbn [Canvas.rx Canvas.ry Canvas.rw Canvas.rh]; try lra.
    cbn [Canvas.source_width Canvas.source_height].
    eexists _, _. split; [reflexivity|].
    split; apply Qfloor_within;
      apply scaled_within; lra.
  - intros Hout. rewrite Hout, andb_false_r. reflexivity.
Qed.

Lemma all_apart_lookup (l : list SlotRect) (i j : nat) (a b : SlotRect) :
  all_apart l = true -> l !! i = Some a -> l !! j = Some b -> (i < j)%nat ->
  apart a b = true.
Proof.
  revert i j. induction l as [|c l IH]; intros i j Hall Hi Hj Hlt.
  - discriminate Hi.
  - cbn in Hall. apply andb_prop in Hall. destruct Hall as [Hc Hrest].
    destruct i as [|i], j as [|j]; try lia.
    + cbn in Hi, Hj. injection Hi as <-.
      rewrite forallb_forall in Hc. apply Hc.
      apply list_elem_of_In. eapply list_elem_of_lookup_2. exact Hj.
    + cbn in Hi, Hj. apply (IH i j Hrest Hi Hj). lia.
Qed.

Lemma apart_sym (a b : SlotRect) : apart a b = apart b a.
Proof.
  unfold apart.
  destruct (Qle_bool (slot_x a + slot_w a) (slot_x b)),
    (Qle_bool (slot_x b + slot_w b) (slot_x a)),
    (Qle_bool (slot_y a + slot_h a) (slot_y b)),
    (Qle_bool (slot_y b + slot_h b) (slot_y a)); reflexivity.
Qed.

Lemma apart_not_both (a b : SlotRect) (p : Q * Q) :
  apart a b = true ->
  Canvas.inside (slot_rect a) p = true ->
  Canvas.inside (slot_rect b) p = true -> False.
Proof.
  intros Hap Ha Hb. apply inside_iff in Ha, Hb.
  cbn [slot_rect Canvas.rx Canvas.ry Canvas.rw Canvas.rh] in Ha, Hb.
  unfold apart in Hap. rewrite !orb_true_iff, !Qle_bool_iff in Hap.
  destruct Ha as (? & ? & ? & ?), Hb as (? & ? & ? & ?).
  destruct Hap as [[[H|H]|H]|H]; lra.
Qed.

Lemma sample_in_slot (s : SlotRect) (img : HTMLImageElement) (col row : Z) :
  Canvas.sample (clipped_draw s img) col row <> None ->
  Canvas.inside (slot_rect s) (centre col row) = true.
Proof.
  intros Hs. destruct (Canvas.inside (slot_rect s) (centre col row)) eqn:E;
    [reflexivity|]. exfalso. apply Hs.
  unfold clipped_draw, Canvas.sample. fold (centre col row).
  destruct (unapply_identity (centre col row)) as [Hu Hv].
  cbn [forallb Canvas.inside_path existsb fst snd].
  rewrite (inside_ext (slot_rect s) _ (centre col row) Hu Hv), E.
  cbn [orb andb]. rewrite andb_false_r. reflexivity.
Qed.

Lemma in_canvas_pixel (s : SlotRect) (col row : Z) :
  in_canvas s = true ->
  Canvas.inside (slot_rect s) (centre col row) = true ->
  (0 <= col < 1200)%Z /\ (0 <= row < 1800)%Z.
Proof.
  intros Hc Hin. apply inside_iff in Hin.
  cbn [slot_rect Canvas.rx Canvas.ry Canvas.rw Canvas.rh centre fst snd]
    in Hin.
  unfold in_canvas in Hc. rewrite !andb_true_iff, !Qle_bool_iff in Hc.
  destruct Hc as [[[C1 C2] C3] C4]. destruct Hin as (X1 & X2 & Y1 & Y2).
  unfold W in C3. unfold H in C4.
  unfold Qdiv in *. change (/ 2) with (1 # 2) in *.
  assert (Hc0 : -1 < inject_Z col) by lra.
  assert (Hc1 : inject_Z col < 1200) by lra.
  assert (Hr0 : -1 < inject_Z row) by lra.
  assert (Hr1 : inject_Z row < 1800) by lra.
  change (-1) with (inject_Z (-1)) in Hc0, Hr0.
  change 1200 with (inject_Z 1200) in Hc1.
  change 1800 with (inject_Z 1800) in Hr1.
  rewrite <- Zlt_Qlt in Hc0, Hc1, Hr0, Hr1. lia.
Qed.

(** X18.  In every layout the pages use (the pixel table of each of the
    four frames of the result page, and the grid of the earlier page)
    the slots lie on the 1200 by 1800 canvas and no two of them overlap.
    Hence no canvas pixel is painted by two shots, and a shot paints
    only pixels of the canvas. *)
Theorem shots_never_overlap
        (table : list SlotRect) (i j : nat) (a b : SlotRect)
        (imgA imgB : HTMLImageElement) (col row : Z) :
  (exists f cfg, getFrameConfig f = Some cfg /\
                 table = map to_pixels (slots_of cfg)) \/
  table = map SinglePage.cell SinglePage.positions ->
  table !! i = Some a ->
  table !! j = Some b ->
  i <> j ->
  well_laid_out table = true /\
  (Canvas.sample (clipped_draw a imgA) col row = None \/
   Canvas.sample (clipped_draw b imgB) col row = None) /\
  (Canvas.sample (clipped_draw a imgA) col row <> None ->
   (0 <= col < 1200)%Z /\ (0 <= row < 1800)%Z).
Proof.
  intros Htable Hi Hj Hij.
  assert (Hs : well_laid_out table = true).
  { destruct Htable as [(f & cfg & Hf & ->)| ->];
      [destruct f; injection Hf as <-|]; vm_compute; reflexivity. }
  split; [exact Hs|].
  unfold well_laid_out in Hs. apply andb_prop in Hs.
  destruct Hs as [Hcan Hap].
  assert (Hab : apart a b = true).
  { destruct (Nat.lt_total i j) as [Hlt|[Heq|Hlt]]; [|contradiction|].
    - exact (all_apart_lookup _ _ _ _ _ Hap Hi Hj Hlt).
    - rewrite apart_sym. exact (all_apart_lookup _ _ _ _ _ Hap Hj Hi Hlt). }
  split.
  - destruct (Canvas.sample (clipped_draw a imgA) col row) eqn:Ea;
      [|left; reflexivity].
    destruct (Canvas.sample (clipped_draw b imgB) col row) eqn:Eb;
      [|right; reflexivity].
    exfalso. apply (apart_not_both a b (centre col row) Hab).
    + apply (sample_in_slot a imgA). rewrite Ea. discriminate.
    + apply (sample_in_slot b imgB). rewrite Eb. discriminate.
  - intros Hs. apply (in_canvas_pixel a).
    + rewrite forallb_forall in Hcan. apply Hcan.
      apply list_elem_of_In. eapply list_elem_of_lookup_2. exact Hi.
    + apply (sample_in_slot a imgA). exact Hs.
Qed.

End Pixels.

Section PixelsExamples.

Import ResultPage Layout Sample.

Lemma shot_fills_its_slot_witness :
  exists u v : Z,
    Canvas.sample (clipped_draw slot (image 0)) 90 360 = Some (u, v).
Proof.
  destruct (shot_fills_its_slot slot (image 0) 90 360 eq_refl eq_refl)
    as [Hin _].
  destruct (Hin eq_refl) as (u & v & Hs & _).
  exists u, v. exact Hs.
Defined.

Lemma shots_never_overlap_witness :
  well_laid_out (map to_pixels (slots_of frame2_config)) = true.
Proof.
  destruct (shots_never_overlap
              (map to_pixels (slots_of frame2_config)) 0 1
              (to_pixels {| slot_x := 0.105; slot_y := 0.3261;
                            slot_w := 0.3675; slot_h := 0.2433 |})
              (to_pixels {| slot_x := 0.5142; slot_y := 0.3261;
                            slot_w := 0.3683; slot_h := 0.2433 |})
              (image 0) (image 1) 0 0) as (Hlaid & _).
  - left. exists frame2, frame2_config. split; reflexivity.
  - reflexivity.
  - reflexivity.
  - lia.
  - exact Hlaid.
Defined.

End PixelsExamples.

(** ** Why a capture fails *)

Section CaptureFailures.

Import CapturePage Mirror Shooting Attempts.
Variable P : Platform.

(** X4.  [captureFromVideo] rejects exactly when the video has no width
    or no height yet, or there is no 2D context, or the encoder returns
    nothing for the mirrored snapshot.  A video that is not ready is
    turned away with "Video not ready" before any canvas is created; a
    missing context gives "Canvas not supported" with a canvas created
    but nothing encoded; an encoder that returns nothing gives "toBlob
    failed".  On the capture page, a video that is not ready when the
    first countdown ends leaves the page with "Video not ready", no
    shots, and the store untouched. *)
Theorem captureFromVideo_rejects_iff (video : HTMLVideoElement) (w : World) :
  let run := captureFromVideo P video w in
  (is_resolved (fst run) = false <->
     videoWidth video = 0%Z \/ videoHeight video = 0%Z \/
     canvas_2d P = false \/ png P (snapshot video) = None) /\
  (videoWidth video = 0%Z \/ videoHeight video = 0%Z ->
     run = (Rejected (Error "Video not ready"), w)) /\
  (videoWidth video <> 0%Z -> videoHeight video <> 0%Z ->
     canvas_2d P = false ->
     run = (Rejected (Error "Canvas not supported"),
            after w [CreateCanvas; GetContext])) /\
  (videoWidth video <> 0%Z -> videoHeight video <> 0%Z ->
     canvas_2d P = true -> png P (snapshot video) = None ->
     run = (Rejected (Error "toBlob failed"),
            after w [CreateCanvas; GetContext; ToBlob (snapshot video)])) /\
  (forall st : State,
     videoRef st = true -> cameraOn st = true -> isShooting st = false ->
     camera P (shot_time (clock (world st)) 0) = video ->
     videoWidth video = 0%Z \/ videoHeight video = 0%Z ->
     let st' := snd (shoot4WithPerShotCountdown P st) in
     error st' = Some "Video not ready" /\
     shots st' = [] /\
     store (world st') = store (world st)).
Proof.
  cbv zeta. rewrite captureFromVideo_run.
  assert (Hpage : forall st : State,
     videoRef st = true -> cameraOn st = true -> isShooting st = false ->
     camera P (shot_time (clock (world st)) 0) = video ->
     videoWidth video = 0%Z \/ videoHeight video = 0%Z ->
     error (snd (shoot4WithPerShotCountdown P st))
       = Some "Video not ready" /\
     shots (snd (shoot4WithPerShotCountdown P st)) = [] /\
     store (world (snd (shoot4WithPerShotCountdown P st)))
       = store (world st)).
  { intros st Hv Hc Hs Hcam Hzero.
    destruct (shoot4_outcome P st Hv Hc Hs)
      as (_ & Hshots & _ & _ & _ & Herr & Hstore & _).
    assert (H0 : capture_result P video = Rejected (Error "Video not ready")).
    { unfold capture_result, not_ready.
      destruct Hzero as [-> | ->]; [reflexivity|].
      rewrite orb_true_r. reflexivity. }
    unfold attempts, reported in *. cbn [map] in *.
    rewrite Hcam, H0 in *. cbn in *.
    split; [exact Herr|]. split; [exact Hshots | exact Hstore]. }
  unfold capture_result, capture_events, not_ready, encode.
  cbn [fst snd].
  destruct (Z.eqb_spec (videoWidth video) 0) as [Ew|Nw];
    [|destruct (Z.eqb_spec (videoHeight video) 0) as [Eh|Nh]];
    cbn [orb].
  - rewrite after_nil. split; [split; auto|].
    split; [reflexivity|].
    split; [intros; contradiction|]. split; [intros; contradiction|].
    exact Hpage.
  - rewrite after_nil. split; [split; auto|].
    split; [reflexivity|].
    split; [intros; contradiction|]. split; [intros; contradiction|].
    exact Hpage.
  - destruct (canvas_2d P) eqn:Hctx;
      [destruct (png P (snapshot video)) eqn:Hpng|]; cbn [is_resolved].
    + split.
      { split; [discriminate|]. intros [H|[H|[H|H]]]; congruence. }
      split; [intros [H|H]; contradiction|].
      split; [intros; congruence|]. split; [intros; congruence|].
      exact Hpage.
    + split; [split; auto|].
      split; [intros [H|H]; contradiction|].
      split; [intros; congruence|]. split; [reflexivity|].
      exact Hpage.
    + split; [split; auto|].
      split; [intros [H|H]; contradiction|].
      split; [reflexivity|]. split; [intros; congruence|].
      exact Hpage.
Qed.

End CaptureFailures.

(** ** Switching the camera on and off *)

Section CameraProps.

Import CapturePage Switching.
Variable D : MediaDevices.

Lemma stop_all (l : list MediaStreamTrack) (c : Camera) :
  fold_left (fun c t => stop t c) l c =
    {| page := page c; streamRef := streamRef c; srcObject := srcObject c;
       muted := muted c; playsInline := playsInline c;
       requests := requests c; stopped := stopped c ++ l |}.
Proof.
  revert c. induction l as [|t l IH]; intros c.
  - cbn. rewrite app_nil_r. destruct c; reflexivity.
  - cbn [fold_left]. rewrite IH. unfold stop. cbn.
    rewrite <- app_assoc. reflexivity.
Qed.

Ltac run_camera :=
  cbv [bind modify try_catch gets ret throw on_page request video_play
       set_streamRef set_srcObject set_muted set_playsInline with_page
       page streamRef srcObject muted playsInline requests stopped
       negb].

Lemma startCamera_run (c : Camera) :
  startCamera D c =
    (Resolved tt,
     match getUserMedia D (requests c) with
     | Rejected e =>
         started c false (Some (message_or e "Failed to start camera"))
           (streamRef c) (srcObject c) (muted c, playsInline c)
     | Resolved s =>
         if videoRef (page c)
         then match play D s with
              | Some e =>
                  started c false
                    (Some (message_or e "Failed to start camera"))
                    (Some s) (Some s) (true, true)
              | None => started c true None (Some s) (Some s) (true, true)
              end
         else started c false (Some "Video element not found")
                (Some s) (srcObject c) (muted c, playsInline c)
     end).
Proof.
  destruct c as [[vr co er sh cd si ss w] ref src mu pl n st].
  unfold startCamera, started. run_camera.
  destruct (getUserMedia D n) as [s|e]; [|reflexivity].
  cbn [videoRef setError]. destruct vr; [|reflexivity].
  cbn [negb]. run_camera.
  destruct (play D s); reflexivity.
Qed.

Lemma stopCamera_run (c : Camera) :
  stopCamera c =
    (Resolved tt,
     {| page := setCountdown 0 (setIsShooting false
                                  (setCameraOn false (page c)));
        streamRef := None;
        srcObject := if videoRef (page c) then None else srcObject c;
        muted := muted c; playsInline := playsInline c;
        requests := requests c;
        stopped := stopped c ++ match streamRef c with
                                | Some s => getTracks s
                                | None => []
                                end |}).
Proof.
  destruct c as [[vr co er sh cd si ss w] ref src mu pl n st].
  unfold stopCamera. run_camera.
  destruct ref as [s|].
  - run_camera. rewrite stop_all. cbn. destruct vr; reflexivity.
  - run_camera. cbn. rewrite app_nil_r. destruct vr; reflexivity.
Qed.

(** X6.  [startCamera] never rejects.  It leaves [cameraOn] set exactly
    when [getUserMedia] resolved, the video element is there and
    [video.play()] resolved; then no error is shown and the element
    plays the stream held in [streamRef].  In every other case an error
    is shown.  A stream that [getUserMedia] handed out is kept in
    [streamRef] whether or not the steps after it succeed, and
    [startCamera] itself stops no track and makes no other platform
    call. *)
Theorem startCamera_turns_on_iff (c : Camera) :
  let c' := snd (startCamera D c) in
  fst (startCamera D c) = Resolved tt /\
  (cameraOn (page c') = true <->
     exists s, getUserMedia D (requests c) = Resolved s /\
               videoRef (page c) = true /\ play D s = None) /\
  (forall s, getUserMedia D (requests c) = Resolved s ->
             streamRef c' = Some s) /\
  (cameraOn (page c') = true ->
     error (page c') = None /\ srcObject c' = streamRef c') /\
  (cameraOn (page c') = false -> error (page c') <> None) /\
  stopped c' = stopped c /\
  world (page c') = world (page c).
Proof.
  cbv zeta. rewrite startCamera_run. cbn [fst snd].
  split; [reflexivity|].
  destruct (getUserMedia D (requests c)) as [s|e].
  - destruct (videoRef (page c)) eqn:Hv; [destruct (play D s) eqn:Hp|];
      unfold started; cbn.
    + split; [split; [discriminate|]|].
      * intros (s' & [= <-] & _ & Hp'). congruence.
      * split; [intros s' [= <-]; reflexivity|].
        split; [discriminate|]. split; [discriminate|]. split; reflexivity.
    + split; [split; [intros _; eauto|reflexivity]|].
      split; [intros s' [= <-]; reflexivity|].
      split; [intros _; split; reflexivity|].
      split; [discriminate|]. split; reflexivity.
    + split; [split; [discriminate|]|].
      * intros (s' & _ & Hv' & _). discriminate Hv'.
      * split; [intros s' [= <-]; reflexivity|].
        split; [discriminate|]. split; [discriminate|]. split; reflexivity.
  - unfold started. cbn.
    split; [split; [discriminate|]|].
    + intros (s' & Hs & _). discriminate Hs.
    + split; [discriminate|].
      split; [discriminate|]. split; [discriminate|]. split; reflexivity.
Qed.

(** X7.  [stopCamera] calls [stop()] on every track of the stream held
    in [streamRef], in order, and on no other track, clears
    [streamRef], detaches the stream from the video element if there is
    one, and leaves the page with the camera off, not shooting and the
    countdown at 0; the shots taken and the error shown stay.  It
    releases whatever [startCamera] acquired: after [startCamera]
    followed by [stopCamera], every track of the stream that
    [getUserMedia] handed out has been stopped, also when [startCamera]
    failed after it got the stream. *)
Theorem stopCamera_releases (c : Camera) :
  let c' := snd (stopCamera c) in
  streamRef c' = None /\
  stopped c' = stopped c ++ match streamRef c with
                            | Some s => getTracks s
                            | None => []
                            end /\
  cameraOn (page c') = false /\
  isShooting (page c') = false /\
  countdown (page c') = 0%Z /\
  (videoRef (page c) = true -> srcObject c' = None) /\
  (shots (page c'), error (page c')) = (shots (page c), error (page c)) /\
  (forall s, getUserMedia D (requests c) = Resolved s ->
     let c2 := snd (stopCamera (snd (startCamera D c))) in
     stopped c2 = stopped c ++ getTracks s /\ streamRef c2 = None).
Proof.
  cbv zeta. rewrite stopCamera_run. cbn [snd streamRef stopped page srcObject].
  split; [reflexivity|]. split; [reflexivity|].
  split; [reflexivity|]. split; [reflexivity|]. split; [reflexivity|].
  split; [intros ->; reflexivity|]. split; [reflexivity|].
  intros s Hs. rewrite stopCamera_run, startCamera_run, Hs.
  cbn [snd streamRef stopped].
  destruct (videoRef (page c)); [destruct (play D s)|];
    split; reflexivity.
Qed.

(** X8.  A stream is lost when [startCamera] is tried again after it
    failed with the stream in hand.  If [getUserMedia] hands out [s1]
    and the call then fails (no video element, or [video.play()]
    rejects), the camera is shown as off, with [s1] in [streamRef] and
    none of its tracks stopped.  A second [startCamera] that gets [s2]
    overwrites [streamRef], and the [stopCamera] that follows stops the
    tracks of [s2] only: a track of [s1] that is not also a track of
    [s2] is never stopped, and [streamRef] no longer holds [s1]. *)
Theorem retry_after_failed_start_leaks (c : Camera) (s1 s2 : MediaStream) :
  getUserMedia D (requests c) = Resolved s1 ->
  videoRef (page c) = false \/ play D s1 <> None ->
  getUserMedia D (S (requests c)) = Resolved s2 ->
  let c1 := snd (startCamera D c) in
  let c3 := snd (stopCamera (snd (startCamera D c1))) in
  cameraOn (page c1) = false /\
  streamRef c1 = Some s1 /\
  stopped c1 = stopped c /\
  stopped c3 = stopped c ++ getTracks s2 /\
  streamRef c3 = None /\
  (forall t, In t (getTracks s1) -> ~ In t (getTracks s2) ->
             ~ In t (stopped c) -> ~ In t (stopped c3)).
Proof.
  intros H1 Hfail H2 c1 c3.
  assert (E1 : cameraOn (page c1) = false /\ streamRef c1 = Some s1 /\
               stopped c1 = stopped c /\ requests c1 = S (requests c)).
  { subst c1. rewrite startCamera_run, H1. cbn [snd].
    destruct (videoRef (page c)); [|repeat split].
    destruct (play D s1); [repeat split|].
    destruct Hfail as [Hv|Hp]; [discriminate Hv | congruence]. }
  destruct E1 as (On1 & Ref1 & St1 & Rq1).
  assert (E3 : stopped c3 = stopped c ++ getTracks s2 /\ streamRef c3 = None).
  { subst c3. rewrite stopCamera_run, startCamera_run, Rq1, H2.
    cbn [snd streamRef stopped].
    destruct (videoRef (page c1)); [destruct (play D s2)|];
      cbn [started streamRef stopped]; rewrite St1; split; reflexivity. }
  destruct E3 as (St3 & Ref3).
  split; [exact On1|]. split; [exact Ref1|]. split; [exact St1|].
  split; [exact St3|]. split; [exact Ref3|].
  intros t _ Hn2 Hn0. rewrite St3. intros Hin.
  apply in_app_or in Hin. destruct Hin; contradiction.
Qed.

End CameraProps.

Section CameraExamples.

Import CapturePage Sample.

Lemma retry_after_failed_start_leaks_witness :
  stopped (snd (stopCamera
                  (snd (startCamera devices
                          (snd (startCamera devices idle))))))
    = [1%nat].
Proof.
  destruct (retry_after_failed_start_leaks devices idle
              {| getTracks := [0%nat] |} {| getTracks := [1%nat] |})
    as (_ & _ & _ & Hstopped & _).
  - reflexivity.
  - right. discriminate.
  - reflexivity.
  - exact Hstopped.
Defined.

End CameraExamples.

(** ** The earlier page *)

Section Clamp.

Import Page.
Local Open Scope Q_scope.

(** X19.  [clamp(n, min, max)] lies between [min] and [max] when
    [min <= max]: it is [n] when [n] lies between them, [min] when [n]
    is below and [max] when [n] is above.  When the bounds are the
    wrong way round it is [min]. *)
Theorem clamp_bounds (n min max : Q) :
  (min <= max -> min <= clamp n min max /\ clamp n min max <= max) /\
  (min <= n -> n <= max -> clamp n min max == n) /\
  (n <= min -> clamp n min max == min) /\
  (min <= max -> max <= n -> clamp n min max == max) /\
  (max <= min -> clamp n min max == min).
Proof.
  unfold clamp, Math_max, Math_min.
  destruct (Q.min_spec max n) as [[H1 E1]|[H1 E1]];
    destruct (Q.max_spec min (Qmin max n)) as [[H2 E2]|[H2 E2]];
    rewrite E2, ?E1; rewrite E1 in H2;
    repeat split; intros; try lra.
Qed.

End Clamp.

Section EarlierPage.

Import Page.
Variable P : Platform.

Ltac run_page :=
  cbv [bind modify finally try_catch io idb_get idb_set idb_del gets ret
       throw Date_now length_of
       setError setShots setFrameId setFinalBlob setLoadedAt
       setSaving setWorld error shots frameId finalBlob saving
       loadedAt world].

Lemma events_since_refl (w : World) : events_since w w = [].
Proof. unfold events_since. apply drop_all. Qed.

Lemma uniform_page_compose shots src :
  uniform (compose P shots src).
Proof.
  unfold compose. destruct src as [s|]; [|apply uniform_throw].
  destruct shots as [sh|]; [|apply uniform_throw].
  apply uniform_single_compose.
Qed.

Lemma loadFromDB_run (st : State) :
  idb_failure P = None ->
  loadFromDB P st =
    (Resolved tt,
     let w := after (world st) [IdbGet DB_KEY] in
     match store (world st) !! DB_KEY with
     | None =>
         {| error := Some "저장된 데이터가 없어요."; shots := shots st;
            frameId := frameId st; finalBlob := finalBlob st;
            saving := false; loadedAt := loadedAt st; world := w |}
     | Some d =>
         match saved_final d with
         | Some final =>
             {| error := None; shots := saved_shots d;
                frameId := saved_frameId d; finalBlob := Some final;
                saving := false; loadedAt := savedAt d; world := w |}
         | None =>
             let run := compose P (saved_shots d)
                          (frameSrc (saved_frameId d)) w in
             match fst run with
             | Resolved final =>
                 {| error := None; shots := saved_shots d;
                    frameId := saved_frameId d; finalBlob := Some final;
                    saving := false; loadedAt := savedAt d;
                    world := snd run |}
             | Rejected e =>
                 {| error := Some (message_or e "Load failed");
                    shots := saved_shots d; frameId := saved_frameId d;
                    finalBlob := finalBlob st; saving := false;
                    loadedAt := loadedAt st; world := snd run |}
             end
         end
     end).
Proof.
  intros Hidb. destruct st as [er sh fi fb sa la w].
  unfold loadFromDB. run_page. rewrite Hidb.
  change (emit (IdbGet DB_KEY) w) with (after w [IdbGet DB_KEY]).
  destruct (store w !! DB_KEY) as [d|]; [|reflexivity].
  run_page.
  destruct (saved_final d) as [final|]; [reflexivity|].
  run_page.
  destruct (compose P _ _ _) as [[b|e] w']; reflexivity.
Qed.

Lemma page_saveToDB_run (st : State) (sh : list Blob) :
  shots st = Some sh -> length sh = 4%nat ->
  saveToDB P st =
    (Resolved tt,
     let now := clock (world st) in
     let payload :=
       {| saved_shots := Some sh; saved_frameId := frameId st;
          saved_final := finalBlob st; savedAt := Some now |} in
     match idb_failure P with
     | Some e =>
         {| error := Some (message_or e "Save failed");
            shots := shots st; frameId := frameId st;
            finalBlob := finalBlob st; saving := false;
            loadedAt := loadedAt st;
            world := after (world st) [IdbSet DB_KEY payload] |}
     | None =>
         {| error := None; shots := shots st; frameId := frameId st;
            finalBlob := finalBlob st; saving := false;
            loadedAt := Some now;
            world :=
              with_store (<[DB_KEY := payload]> (store (world st)))
                (after (world st) [IdbSet DB_KEY payload]) |}
     end).
Proof.
  intros Hsh Hlen. destruct st as [er s fi fb sa la w].
  cbn [shots] in Hsh. subst s. apply Nat.eqb_eq in Hlen.
  unfold saveToDB. run_page. rewrite Hlen. cbn [negb]. run_page.
  destruct (idb_failure P); reflexivity.
Qed.

Lemma page_clearDB_run (st : State) :
  clearDB P st =
    (Resolved tt,
     match idb_failure P with
     | Some e =>
         {| error := Some (message_or e "Clear failed");
            shots := shots st; frameId := frameId st;
            finalBlob := finalBlob st; saving := false;
            loadedAt := loadedAt st;
            world := after (world st) [IdbDel DB_KEY] |}
     | None =>
         {| error := None; shots := shots st; frameId := frameId st;
            finalBlob := finalBlob st; saving := false; loadedAt := None;
            world := with_store (delete DB_KEY (store (world st)))
                       (after (world st) [IdbDel DB_KEY]) |}
     end).
Proof.
  destruct st as [er sh fi fb sa la w].
  unfold clearDB. run_page.
  destruct (idb_failure P); reflexivity.
Qed.

Lemma recomputeFinal_run (st : State) (sh : list Blob) :
  shots st = Some sh -> length sh = 4%nat ->
  recomputeFinal P st =
    (Resolved tt,
     let run := compose P (Some sh) (frameSrc (frameId st)) (world st) in
     match fst run with
     | Resolved final =>
         {| error := None; shots := shots st; frameId := frameId st;
            finalBlob := Some final; saving := saving st;
            loadedAt := loadedAt st; world := snd run |}
     | Rejected e =>
         {| error := Some (message_or e "Compose failed");
            shots := shots st; frameId := frameId st;
            finalBlob := finalBlob st; saving := saving st;
            loadedAt := loadedAt st; world := snd run |}
     end).
Proof.
  intros Hsh Hlen. destruct st as [er s fi fb sa la w].
  cbn [shots] in Hsh. subst s. apply Nat.eqb_eq in Hlen.
  unfold recomputeFinal. run_page. rewrite Hlen. cbn [negb]. run_page.
  destruct (compose P _ _ _) as [[b|e] w']; reflexivity.
Qed.

(** X20.  The earlier page's [loadFromDB] trusts the record it finds.
    With a working IndexedDB and a record under [DB_KEY], it adopts the
    record's shots and frame as they are, whatever their number.  If
    the record carries a final image, that image becomes the composite
    and nothing is composed: the only platform call is the read.  If it
    carries none, the composite is what [composeFinalPNG] makes of the
    record's shots and frame, and when that fails the error is shown
    while the shots and the frame stay adopted.  This is the handler on
    its own; the effect that depends on [frameId] is a separate step. *)
Theorem loadFromDB_trusts_the_record (st : State) (d : SavedState) :
  idb_failure P = None ->
  store (world st) !! DB_KEY = Some d ->
  let st' := snd (loadFromDB P st) in
  shots st' = saved_shots d /\
  frameId st' = saved_frameId d /\
  saving st' = false /\
  (forall final, saved_final d = Some final ->
     finalBlob st' = Some final /\
     error st' = None /\
     loadedAt st' = savedAt d /\
     world st' = after (world st) [IdbGet DB_KEY]) /\
  (saved_final d = None ->
     forall w0,
       match fst (compose P (saved_shots d) (frameSrc (saved_frameId d)) w0)
       with
       | Resolved final =>
           finalBlob st' = Some final /\ error st' = None /\
           loadedAt st' = savedAt d
       | Rejected e =>
           finalBlob st' = finalBlob st /\
           error st' = Some (message_or e "Load failed") /\
           loadedAt st' = loadedAt st
       end).
Proof.
  intros Hidb Hd st'. subst st'.
  rewrite (loadFromDB_run _ Hidb), Hd. cbn [snd].
  destruct (saved_final d) as [final|] eqn:Hf.
  - split; [reflexivity|]. split; [reflexivity|]. split; [reflexivity|].
    split; [|discriminate].
    intros final' [= <-]. repeat split.
  - destruct (uniform_page_compose (saved_shots d)
                (frameSrc (saved_frameId d))) as (r & evs & _ & Hrun).
    cbv zeta. rewrite Hrun. cbn [fst snd].
    destruct r as [b|e]; (split; [reflexivity|]); (split; [reflexivity|]);
      (split; [reflexivity|]); (split; [discriminate|]);
      intros _ w0; rewrite Hrun; repeat split.
Qed.

(** X21.  On the earlier page a save followed by a load is the
    identity on what was saved.  With four shots and a composite on the
    page and a working IndexedDB, [loadFromDB] run from any state of the
    page, in the world [saveToDB] left, restores the shots, the frame
    and the composite that were saved and shows the time of the save;
    its only platform call is the read.  This is the handler on its
    own; the effect that depends on [frameId] is a separate step. *)
Theorem page_save_then_load
        (st st0 : State) (sh : list Blob) (final : Blob) :
  idb_failure P = None ->
  shots st = Some sh -> length sh = 4%nat ->
  finalBlob st = Some final ->
  let saved := snd (saveToDB P st) in
  let st' := snd (loadFromDB P (setWorld (world saved) st0)) in
  (shots st', frameId st', finalBlob st', loadedAt st', error st')
    = (shots st, frameId st, finalBlob st, loadedAt saved, None) /\
  loadedAt saved = Some (clock (world st)) /\
  events_since (world saved) (world st') = [IdbGet DB_KEY].
Proof.
  intros Hidb Hsh Hlen Hfinal saved st'. subst st' saved.
  rewrite (page_saveToDB_run _ _ Hsh Hlen), Hidb. cbv zeta.
  cbn [snd world loadedAt].
  rewrite (loadFromDB_run _ Hidb).
  cbn [snd setWorld world with_store store].
  rewrite lookup_insert_eq. cbn [saved_final]. rewrite Hfinal.
  cbn [shots frameId finalBlob loadedAt error saved_shots saved_frameId
       savedAt world].
  rewrite Hsh, events_since_after. repeat split.
Qed.

(** X22.  The earlier page's [clearDB] removes the record but keeps the
    photos on the page: with a working IndexedDB the store loses the
    record under [DB_KEY] and [loadedAt] is cleared, while the shots,
    the frame and the composite stay.  With four shots on the page, a
    [saveToDB] right after it puts a record with those shots, that
    frame and that composite back. *)
Theorem page_clearDB_keeps_the_photos (st : State) (sh : list Blob) :
  idb_failure P = None ->
  shots st = Some sh -> length sh = 4%nat ->
  let cleared := snd (clearDB P st) in
  store (world cleared) = delete DB_KEY (store (world st)) /\
  (shots cleared, frameId cleared, finalBlob cleared)
    = (shots st, frameId st, finalBlob st) /\
  loadedAt cleared = None /\
  store (world (snd (saveToDB P cleared))) !! DB_KEY =
    Some {| saved_shots := shots st; saved_frameId := frameId st;
            saved_final := finalBlob st;
            savedAt := Some (clock (world st)) |}.
Proof.
  intros Hidb Hsh Hlen cleared. subst cleared.
  rewrite page_clearDB_run, Hidb. cbn [snd world with_store store shots
    frameId finalBlob loadedAt].
  split; [reflexivity|]. split; [reflexivity|]. split; [reflexivity|].
  rewrite (page_saveToDB_run _ sh) by (cbn; assumption).
  rewrite Hidb. cbv zeta.
  cbn [snd world with_store store shots frameId finalBlob after clock].
  rewrite lookup_insert_eq, Hsh. reflexivity.
Qed.

(** X23.  On the earlier page a frame selection is never saved: whatever
    the state of the page and whatever the browser does, selecting a
    frame leaves the store as it was and makes no IndexedDB call, and
    the shots and [loadedAt] stay; a frame other than the current one
    becomes the current one. *)
Theorem earlier_page_never_saves_a_frame_change (st : State) (f : FrameId) :
  let st' := snd (select_frame P f st) in
  store (world st') = store (world st) /\
  forallb (fun e => negb (is_idb e)) (events_since (world st) (world st'))
    = true /\
  shots st' = shots st /\
  loadedAt st' = loadedAt st /\
  (Some f <> frameId st -> frameId st' = Some f).
Proof.
  cbv zeta.
  destruct st as [er sh fi fb sa la w].
  unfold select_frame, bind, gets. cbn [frameId].
  destruct (bool_decide_reflect (Some f = fi)) as [E|N].
  { cbn. rewrite events_since_refl. repeat split. intros; contradiction. }
  unfold modify, setFrameId. cbn [error shots frameId finalBlob saving
    loadedAt world].
  unfold frame_effect, bind, gets, length_of. cbn [shots].
  destruct sh as [sh|].
  2:{ cbn. rewrite events_since_refl. repeat split. }
  unfold ret.
  destruct (Nat.eqb_spec (length sh) 4) as [Hlen|Hlen].
  2:{ cbn. rewrite events_since_refl. repeat split. }
  match goal with |- context [recomputeFinal P ?s] =>
    rewrite (recomputeFinal_run s sh eq_refl Hlen) end.
  cbn [snd world shots frameId].
  destruct (uniform_page_compose (Some sh) (frameSrc (Some f)))
    as (r & evs & Hq & Hrun).
  rewrite Hrun. cbn [fst snd].
  destruct r; cbn [world shots loadedAt frameId];
    rewrite events_since_after; repeat split; exact Hq.
Qed.

End EarlierPage.

Section EarlierPageExamples.

Import Page Sample.

Lemma loadFromDB_trusts_the_record_witness :
  shots (snd (loadFromDB browser (initial cached_world))) = Some [shot 0] /\
  finalBlob (snd (loadFromDB browser (initial cached_world)))
    = Some composite.
Proof.
  destruct (loadFromDB_trusts_the_record browser (initial cached_world)
              cached eq_refl) as (Hshots & _ & _ & Hfinal & _).
  - apply lookup_singleton_eq.
  - destruct (Hfinal composite eq_refl) as (Hblob & _).
    split; [exact Hshots | exact Hblob].
Defined.

Lemma page_save_then_load_witness :
  finalBlob
    (snd (loadFromDB browser
            (setWorld (world (snd (saveToDB browser composed)))
               (initial empty_world))))
    = Some composite.
Proof.
  destruct (page_save_then_load browser composed (initial empty_world)
              four_shots composite eq_refl eq_refl eq_refl eq_refl)
    as (Hview & _).
  exact (f_equal (fun t => snd (fst (fst t))) Hview).
Defined.

Lemma page_clearDB_keeps_the_photos_witness :
  shots (snd (clearDB browser composed)) = Some four_shots.
Proof.
  destruct (page_clearDB_keeps_the_photos browser composed four_shots
              eq_refl eq_refl eq_refl) as (_ & Hkept & _).
  exact (f_equal (fun t => fst (fst t)) Hkept).
Defined.

End EarlierPageExamples.
